(** * Fin_agent: the memory manager and the profile store

    A shallow embedding of [memory/memory_manager.py] and
    [memory/user_profile_store.py].  The Python methods mutate the
    manager's short-term dictionary and talk to a hosted vector index,
    an embedding service and an LLM-backed summarizer; every call to
    one of these collaborators may raise, and the methods catch, log
    and carry on.  The embedding therefore runs in a small state and
    exception monad over a [world] record. *)

From Stdlib Require Import QArith Ascii.
From stdpp Require Import gmap strings list fin_maps sorting pretty.

Local Open Scope string_scope.
Local Open Scope Z_scope.
Local Open Scope nat_scope.

(** ** Scores *)

(** Similarity scores and thresholds are floats in the source; they are
    modelled as rationals.  [Qltb x y] is the test [x < y]. *)
Definition Qltb (x y : Q) : bool :=
  (Qnum x * Z.pos (Qden y) <? Qnum y * Z.pos (Qden x))%Z.

(** ** The vector index (external collaborator)

    The index is the object [retrieval.pinecone_client.index], a client
    of the hosted vector database; neither the client module nor the
    database is part of the two classes.  Its operations are modelled
    by their contract: records are kept per namespace and per id, and
    a record holds the vector values and a metadata dictionary.  All
    metadata values this code writes are strings. *)

Record vector_record := VectorRecord {
  vec_values : list Q;
  vec_metadata : gmap string string
}.

Abbreviation namespace_store := (gmap string vector_record).
Abbreviation index_state := (gmap string namespace_store).

(** One entry of the [vectors=[...]] argument of [index.upsert]. *)
Record upsert_item := UpsertItem {
  up_id : string;
  up_values : list Q;
  up_metadata : gmap string string
}.

(** One entry of the [matches] list returned by [index.query]. *)
Record query_match := QueryMatch {
  match_id : string;
  match_score : Q;
  match_metadata : gmap string string
}.

(** Modelled from the spec: the metadata filter of the index, which is
    missing here.  A filter is a dictionary of required field values.
    The source writes it both as [{"user_id": {"$eq": u}}] and as
    [{"user_id": u}]; the index reads both as equality on that field,
    and several fields as a conjunction. *)
Definition filter_matches (flt meta : gmap string string) : Prop :=
  map_Forall (λ k v, meta !! k = Some v) flt.

Global Instance filter_matches_dec flt meta : Decision (filter_matches flt meta).
Proof. unfold filter_matches. apply _. Defined.

(** The records of one namespace; a namespace never written is empty. *)
Definition namespace_of (ns : string) (st : index_state) : namespace_store :=
  default ∅ (st !! ns).

(** Modelled from the spec: [index.upsert(vectors=..., namespace=ns)],
    missing here: insert or overwrite by id. *)
Definition idx_upsert (ns : string) (items : list upsert_item)
    (st : index_state) : index_state :=
  <[ns := foldl (λ m it, <[up_id it := VectorRecord (up_values it) (up_metadata it)]> m)
            (namespace_of ns st) items]> st.

(** Modelled from the spec: [index.fetch(ids=..., namespace=ns)],
    missing here: the [vectors] map of the response holds the records
    found under the ids asked for. *)
Definition idx_fetch (ns : string) (ids : list string)
    (st : index_state) : namespace_store :=
  filter (λ kv, kv.1 ∈ ids) (namespace_of ns st).

(** Modelled from the spec: [index.delete(ids=..., namespace=ns)],
    missing here: point delete, idempotent. *)
Definition idx_delete_ids (ns : string) (ids : list string)
    (st : index_state) : index_state :=
  <[ns := filter (λ kv, kv.1 ∉ ids) (namespace_of ns st)]> st.

(** Modelled from the spec: [index.delete(filter=..., namespace=ns)],
    missing here: delete every record whose metadata passes the filter. *)
Definition idx_delete_filter (ns : string) (flt : gmap string string)
    (st : index_state) : index_state :=
  <[ns := filter (λ kv, ¬ filter_matches flt (vec_metadata kv.2)) (namespace_of ns st)]> st.

(** Matches are returned best first. *)
Definition score_order (m1 m2 : query_match) : Prop :=
  Qle_bool (match_score m2) (match_score m1) = true.

Global Instance score_order_dec m1 m2 : Decision (score_order m1 m2).
Proof. unfold score_order. apply _. Defined.

(** Modelled from the spec: [index.query(vector=q, top_k=k, filter=flt,
    namespace=ns, include_metadata=True)], missing here: the records
    of the namespace that pass the filter, scored against [q] by the
    metric [sim] of the index, best first, at most [k] of them, each
    with its own metadata. *)
Definition idx_query (sim : list Q → list Q → Q) (ns : string) (q : list Q)
    (top_k : nat) (flt : gmap string string) (st : index_state) : list query_match :=
  let hits := filter (λ kv, filter_matches flt (vec_metadata kv.2))
                     (map_to_list (namespace_of ns st)) in
  let scored := (λ kv, QueryMatch kv.1 (sim q (vec_values kv.2)) (vec_metadata kv.2)) <$> hits in
  take top_k (merge_sort score_order scored).

(** ** Schemas ([agent.schemas]) *)

(** Modelled from the spec: the enumeration [MemoryType], declared in
    [agent/schemas.py], which is missing here.  The data model gives
    its members, FACT and EPISODIC; their values are the strings the
    deletion filters of the manager use. *)
Inductive MemoryType := FACT | EPISODIC.

Global Instance MemoryType_eq_dec : EqDecision MemoryType.
Proof. solve_decision. Defined.

Definition MemoryType_value (t : MemoryType) : string :=
  match t with FACT => "fact" | EPISODIC => "episodic" end.

(** Modelled from the spec: [UserProfileSchema], declared in
    [agent/schemas.py] as well and missing here.  The data model gives
    its four fields and the values each preference may take. *)
Inductive risk_level := risk_low | risk_medium | risk_high.
Inductive depth_level := depth_simple | depth_detailed | depth_technical.
Inductive style_kind := style_formal | style_casual | style_concise.

Global Instance risk_level_eq_dec : EqDecision risk_level.
Proof. solve_decision. Defined.
Global Instance depth_level_eq_dec : EqDecision depth_level.
Proof. solve_decision. Defined.
Global Instance style_kind_eq_dec : EqDecision style_kind.
Proof. solve_decision. Defined.

Record UserProfileSchema := UserProfile {
  user_id : string;
  risk_tolerance : risk_level;
  explanation_depth : depth_level;
  style_preference : style_kind
}.

Global Instance UserProfileSchema_eq_dec : EqDecision UserProfileSchema.
Proof. solve_decision. Defined.

Definition risk_value (r : risk_level) : string :=
  match r with risk_low => "low" | risk_medium => "medium" | risk_high => "high" end.
Definition depth_value (d : depth_level) : string :=
  match d with
  | depth_simple => "simple" | depth_detailed => "detailed" | depth_technical => "technical"
  end.
Definition style_value (s : style_kind) : string :=
  match s with
  | style_formal => "formal" | style_casual => "casual" | style_concise => "concise"
  end.

Definition risk_of_value (s : string) : option risk_level :=
  if decide (s = "low") then Some risk_low
  else if decide (s = "medium") then Some risk_medium
  else if decide (s = "high") then Some risk_high else None.
Definition depth_of_value (s : string) : option depth_level :=
  if decide (s = "simple") then Some depth_simple
  else if decide (s = "detailed") then Some depth_detailed
  else if decide (s = "technical") then Some depth_technical else None.
Definition style_of_value (s : string) : option style_kind :=
  if decide (s = "formal") then Some style_formal
  else if decide (s = "casual") then Some style_casual
  else if decide (s = "concise") then Some style_concise else None.

(** [profile.model_dump()]: the dictionary of the four fields. *)
Definition model_dump (p : UserProfileSchema) : gmap string string :=
  <["user_id" := user_id p]>
  (<["risk_tolerance" := risk_value (risk_tolerance p)]>
  (<["explanation_depth" := depth_value (explanation_depth p)]>
  (<["style_preference" := style_value (style_preference p)]> ∅))).

(** A stored memory as handed back to callers. *)
Record MemoryItem := Memory {
  mem_id : string;
  mem_content : string;
  mem_type : MemoryType;
  mem_timestamp : string;
  mem_metadata : gmap string string
}.

(** One turn of the short-term buffer, [{"role": ..., "content": ...}]. *)
Record turn := Turn { role : string; content : string }.

(** ** Collaborators

    Everything the two classes call but do not define.  A collaborator
    call is identified by its position [n] in the run (the [ticks]
    counter of the world): [fails n] tells whether that call raises,
    and the answers of the embedding service and of the LLM-backed
    summarizer may depend on [n] as well as on their arguments. *)
Record Collaborators := {
  (** [settings.EMBEDDING_DIMENSION] *)
  EMBEDDING_DIMENSION : nat;
  (** the defaults [UserProfileSchema] declares for the preferences *)
  default_risk_tolerance : risk_level;
  default_explanation_depth : depth_level;
  default_style_preference : style_kind;
  (** does the [n]-th collaborator call raise *)
  fails : nat → bool;
  (** [utils.llm_client.get_embedding]; the empty vector is its
      failure sentinel *)
  embed : nat → string → list Q;
  (** the metric of the index *)
  similarity : list Q → list Q → Q;
  (** [str(uuid.uuid4())] and [str(time.time())] *)
  uuid4 : nat → string;
  time_now : nat → string;
  (** [json.dumps] and [utils.json_utils.safe_json_load] *)
  json_dumps : gmap string string → string;
  safe_json_load : string → option (gmap string string);
  (** [memory.chat_summarizer.ChatSummarizer] *)
  analyze_interaction_delta :
    nat → UserProfileSchema → string → string → option (gmap string string);
  summarize : nat → list string → list string;
  deduplicate_facts : nat → list string → list string → list string
}.

(** ** The world and the monad *)

Inductive exn :=
  | CollaboratorError (n : nat)
  | ValidationError
  | ValueError
  | AttributeError.

Inductive level := INFO | WARNING | ERROR.

Global Instance level_eq_dec : EqDecision level.
Proof. solve_decision. Defined.

(** [index] is [None] when the import of the client failed.
    [raised] and [update_profile_calls] are instrumentation: they count
    the exceptions raised and the entries into [update_profile]. *)
Record world := World {
  index : option index_state;
  active_context : gmap string (list turn);
  semantic_cache : list string;
  log : list (level * string);
  ticks : nat;
  raised : nat;
  update_profile_calls : nat
}.

Definition set_index (i : option index_state) (w : world) : world :=
  World i (active_context w) (semantic_cache w) (log w) (ticks w) (raised w)
        (update_profile_calls w).
Definition set_active_context (c : gmap string (list turn)) (w : world) : world :=
  World (index w) c (semantic_cache w) (log w) (ticks w) (raised w)
        (update_profile_calls w).
Definition set_semantic_cache (c : list string) (w : world) : world :=
  World (index w) (active_context w) c (log w) (ticks w) (raised w)
        (update_profile_calls w).
Definition push_log (l : level) (msg : string) (w : world) : world :=
  World (index w) (active_context w) (semantic_cache w) (log w ++ [(l, msg)])%list
        (ticks w) (raised w) (update_profile_calls w).
Definition tick (w : world) : world :=
  World (index w) (active_context w) (semantic_cache w) (log w) (S (ticks w))
        (raised w) (update_profile_calls w).
Definition count_raise (w : world) : world :=
  World (index w) (active_context w) (semantic_cache w) (log w) (ticks w)
        (S (raised w)) (update_profile_calls w).
Definition count_update_profile (w : world) : world :=
  World (index w) (active_context w) (semantic_cache w) (log w) (ticks w)
        (raised w) (S (update_profile_calls w)).

Inductive result (A : Type) :=
  | Ok (a : A)
  | Raise (e : exn).
Arguments Ok {A} a.
Arguments Raise {A} e.

Definition M (A : Type) : Type := world → result A * world.

Global Instance M_ret : MRet M := λ A a w, (Ok a, w).

Global Instance M_bind : MBind M := λ A B f m w,
  match m w with
  | (Ok a, w') => f a w'
  | (Raise e, w') => (Raise e, w')
  end.

Definition raise {A} (e : exn) : M A := λ w, (Raise e, count_raise w).

(** [try: body except Exception as e: handler]. *)
Definition try_except {A} (body : M A) (handler : exn → M A) : M A :=
  λ w, match body w with
       | (Ok a, w') => (Ok a, w')
       | (Raise e, w') => handler e w'
       end.

Definition logger (l : level) (msg : string) : M unit :=
  λ w, (Ok tt, push_log l msg w).

Definition get_world : M world := λ w, (Ok w, w).

(** [for x in xs: body(x)]. *)
Fixpoint for_each {A} (xs : list A) (body : A → M unit) : M unit :=
  match xs with
  | [] => mret tt
  | x :: rest => body x ;; for_each rest body
  end.

Section Program.

Context (E : Collaborators).

(** A call to a stateless collaborator (embedding, summarizer). *)
Definition collaborator {A} (f : nat → A) : M A :=
  λ w, if fails E (ticks w)
       then raise (CollaboratorError (ticks w)) (tick w)
       else (Ok (f (ticks w)), tick w).

(** A call to a method of the index.  On [index = None] the attribute
    lookup itself raises; every use below is guarded against it. *)
Definition index_call {A} (op : index_state → A * index_state) : M A :=
  λ w, match index w with
       | None => raise AttributeError w
       | Some st =>
           if fails E (ticks w)
           then raise (CollaboratorError (ticks w)) (tick w)
           else (Ok (op st).1, set_index (Some (op st).2) (tick w))
       end.

(** The truth value of the module-level [index]. *)
Definition index_present : M bool :=
  λ w, (Ok (bool_decide (is_Some (index w))), w).

(** [retrieval.semantic_cache.clear_cache()]. *)
Definition clear_cache : M unit :=
  λ w, if fails E (ticks w)
       then raise (CollaboratorError (ticks w)) (tick w)
       else (Ok tt, set_semantic_cache [] (tick w)).

(** *** Validation of profile data *)

Definition field_or_default {A} (parse : string → option A) (dflt : A)
    (o : option string) : option A :=
  match o with
  | None => Some dflt
  | Some v => parse v
  end.

(** Modelled from the spec: the validation done by [UserProfileSchema],
    missing here, when it is built from a dictionary (by its
    constructor or by [model_validate]): [user_id] is required, a
    missing preference takes its default, a value outside the
    enumeration of its field is rejected, other keys are ignored. *)
Definition validated (data : gmap string string) : option UserProfileSchema :=
  match data !! "user_id",
        field_or_default risk_of_value (default_risk_tolerance E) (data !! "risk_tolerance"),
        field_or_default depth_of_value (default_explanation_depth E) (data !! "explanation_depth"),
        field_or_default style_of_value (default_style_preference E) (data !! "style_preference")
  with
  | Some uid, Some r, Some d, Some s => Some (UserProfile uid r d s)
  | _, _, _, _ => None
  end.

Definition model_validate (data : gmap string string) : M UserProfileSchema :=
  match validated data with
  | Some p => mret p
  | None => raise ValidationError
  end.

(** [UserProfileSchema(user_id=user_id)]. *)
Definition default_profile (uid : string) : UserProfileSchema :=
  UserProfile uid (default_risk_tolerance E) (default_explanation_depth E)
              (default_style_preference E).

(** [profile.model_dump_json()]. *)
Definition model_dump_json (p : UserProfileSchema) : string :=
  json_dumps E (model_dump p).

(** *** UserProfileStore *)

Definition PROFILE_NAMESPACE : string := "user_profiles".

(** The response of [index.fetch] is represented by its [vectors] map. *)
Definition _parse_fetch_response (response : namespace_store) (uid : string)
    : option vector_record :=
  response !! uid.

(** A record without [profile_data], like one whose [profile_data] does
    not parse, yields no data; empty data is falsy. *)
Definition get_profile (uid : string) : M UserProfileSchema :=
  present ← index_present;
  if negb present then mret (default_profile uid)
  else
    try_except
      (result ← index_call (λ st, (idx_fetch PROFILE_NAMESPACE [uid] st, st));
       match _parse_fetch_response result uid with
       | Some vector_data =>
           let meta := vec_metadata vector_data in
           let raw_json := meta !! "profile_data" in
           let data := raw_json ≫= safe_json_load E in
           match data with
           | Some d =>
               if decide (d = ∅) then mret (default_profile uid)
               else model_validate d
           | None => mret (default_profile uid)
           end
       | None => mret (default_profile uid)
       end)
      (λ e, logger ERROR "Fetch profile error" ;; mret (default_profile uid)).

(** Instrumentation: counts the entries into [update_profile]. *)
Definition enter_update_profile : M unit :=
  λ w, (Ok tt, count_update_profile w).

Definition update_profile (profile : UserProfileSchema) : M unit :=
  enter_update_profile ;;
  present ← index_present;
  if negb present then mret tt
  else
    try_except
      (let dim := EMBEDDING_DIMENSION E in
       let placeholder := <[0%nat := 1%Q]> (replicate dim 0%Q) in
       let profile_json := model_dump_json profile in
       index_call (λ st,
         (tt, idx_upsert PROFILE_NAMESPACE
                [UpsertItem (user_id profile) placeholder
                   (<["profile_data" := profile_json]>
                    (<["type" := "user_profile"]> ∅))] st)))
      (λ e, logger ERROR "Update profile error").

Definition sync_if_changed (old_profile current_profile : UserProfileSchema) : M bool :=
  if decide (model_dump old_profile ≠ model_dump current_profile) then
    logger INFO "Syncing profile changes" ;;
    update_profile current_profile ;;
    mret true
  else mret false.

Definition delete_profile (uid : string) : M unit :=
  present ← index_present;
  if negb present then mret tt
  else
    try_except
      (logger WARNING "DELETING PROFILE" ;;
       index_call (λ st, (tt, idx_delete_ids PROFILE_NAMESPACE [uid] st)) ;;
       logger INFO "Profile deleted successfully")
      (λ e, logger ERROR "Failed to delete profile").

(** *** MemoryManager *)

Definition NAMESPACE : string := "memory_store".

(** [if user_id in self._active_context: del self._active_context[user_id]]. *)
Definition drop_active_context (uid : string) : M unit :=
  λ w, (Ok tt, set_active_context (delete uid (active_context w)) w).

Definition clear_chat_history (uid : string) : M bool :=
  drop_active_context uid ;;
  present ← index_present;
  if negb present then mret false
  else
    try_except
      (index_call (λ st,
         (tt, idx_delete_filter NAMESPACE
                (<["user_id" := uid]> (<["type" := "episodic"]> ∅)) st)) ;;
       mret true)
      (λ e, logger ERROR "Failed to clear episodic history" ;; mret false).

Definition reset_memory (uid : string) : M bool :=
  drop_active_context uid ;;
  present ← index_present;
  success ←
    (if (present : bool) then
       try_except
         (index_call (λ st,
            (tt, idx_delete_filter NAMESPACE (<["user_id" := uid]> ∅) st)) ;;
          logger WARNING "Full memory reset performed" ;;
          mret true)
         (λ e, logger ERROR "Failed to reset memory vectors" ;; mret false)
     else mret true);
  delete_profile uid ;;
  try_except clear_cache
    (λ e, logger ERROR "Failed to clear semantic cache during reset") ;;
  mret success.

(** The metadata [add_memory] stores with a vector: the text, the type,
    the timestamp, the caller's metadata as JSON, and its [user_id]
    lifted to the top level when it has one. *)
Definition pinecone_meta (text : string) (memory_type : MemoryType)
    (timestamp : string) (safe_meta : gmap string string) : gmap string string :=
  let meta :=
    <["text" := text]>
    (<["type" := MemoryType_value memory_type]>
    (<["timestamp" := timestamp]>
    (<["attributes_json" := json_dumps E safe_meta]> ∅))) in
  match safe_meta !! "user_id" with
  | Some u => <["user_id" := u]> meta
  | None => meta
  end.

Definition add_memory (text : string) (memory_type : MemoryType)
    (metadata : option (gmap string string)) : M (option string) :=
  present ← index_present;
  if negb present || bool_decide (text = "") then mret None
  else
    let safe_meta := default ∅ metadata in
    if bool_decide (memory_type ∈ [FACT; EPISODIC])
       && negb (bool_decide (is_Some (safe_meta !! "user_id")))
    then
      logger ERROR "Attempted to store without 'user_id'" ;; mret None
    else
      try_except
        (vector ← collaborator (λ n, embed E n text);
         if decide (vector = []) then mret None
         else
           w ← get_world;
           let mem_id := uuid4 E (ticks w) in
           let meta := pinecone_meta text memory_type (time_now E (ticks w)) safe_meta in
           index_call (λ st,
             (tt, idx_upsert NAMESPACE [UpsertItem mem_id vector meta] st)) ;;
           mret (Some mem_id))
        (λ e, logger ERROR "Upsert failed" ;; mret None).

(** [MemoryType(value)]. *)
Definition MemoryType_of_value (s : string) : M MemoryType :=
  if decide (s = "fact") then mret FACT
  else if decide (s = "episodic") then mret EPISODIC
  else raise ValueError.

(** The loop over [results.get('matches', [])]. *)
Fixpoint collect_memories (score_threshold : Q) (matches : list query_match)
    : M (list MemoryItem) :=
  match matches with
  | [] => mret []
  | m :: rest =>
      if Qltb (match_score m) score_threshold then
        collect_memories score_threshold rest
      else
        let meta := match_metadata m in
        let attr := default ∅ (safe_json_load E (default "{}" (meta !! "attributes_json"))) in
        ty ← MemoryType_of_value (default "fact" (meta !! "type"));
        let item := Memory (match_id m) (default "" (meta !! "text")) ty
                           (default "" (meta !! "timestamp")) attr in
        memories ← collect_memories score_threshold rest;
        mret (item :: memories)
  end.

Definition retrieve_relevant (query uid : string) (limit : nat)
    (memory_type : option MemoryType) (score_threshold : Q) : M (list MemoryItem) :=
  present ← index_present;
  if negb present || bool_decide (query = "") then mret []
  else
    try_except
      (query_vector ← collaborator (λ n, embed E n query);
       if decide (query_vector = []) then mret []
       else
         let filter_dict := <["user_id" := uid]> (∅ : gmap string string) in
         let filter_dict :=
           match memory_type with
           | Some t => <["type" := MemoryType_value t]> filter_dict
           | None => filter_dict
           end in
         results ← index_call (λ st,
           (idx_query (similarity E) NAMESPACE query_vector limit filter_dict st, st));
         collect_memories score_threshold results)
      (λ e, logger ERROR "Retrieval error" ;; mret []).

Definition newline : string := String (Ascii.ascii_of_nat 10) "".

(** A byte of the form [10xxxxxx]: in UTF-8 it continues a character
    begun by an earlier byte. *)
Definition continuation_byte (c : ascii) : bool :=
  let 'Ascii _ _ _ _ _ _ b6 b7 := c in b7 && negb b6.

(** [len(s)] on a Python [str]: the number of characters (code
    points).  A [string] here holds the UTF-8 text, where every
    character is one byte that is not a continuation byte, followed by
    continuation bytes only. *)
Fixpoint len (s : string) : nat :=
  match s with
  | EmptyString => 0
  | String c rest => (if continuation_byte c then 0 else 1) + len rest
  end.

(** Step 1 of [process_realtime_interaction]: append both turns and
    keep the last 20 entries. *)
Definition update_short_term_context (uid user_msg agent_msg : string) : M unit :=
  λ w,
    let ctx := active_context w in
    let ctx := if decide (is_Some (ctx !! uid)) then ctx else <[uid := []]> ctx in
    let ctx := <[uid := (default [] (ctx !! uid) ++ [Turn "user" user_msg])%list]> ctx in
    let ctx := <[uid := (default [] (ctx !! uid) ++ [Turn "agent" agent_msg])%list]> ctx in
    let buf := default [] (ctx !! uid) in
    let ctx := if decide (20 < length buf)
               then <[uid := drop (length buf - 20) buf]> ctx else ctx in
    (Ok tt, set_active_context ctx w).

(** Step 2: detect a profile delta and persist it. *)
Definition analyze_profile_delta (uid user_msg agent_msg : string) : M unit :=
  current_profile ← get_profile uid;
  let original_dump := model_dump current_profile in
  updates ← collaborator (λ n,
    analyze_interaction_delta E n current_profile user_msg agent_msg);
  match updates with
  | Some u =>
      if decide (u = ∅) then mret tt
      else
        let updated_data := u ∪ original_dump in
        new_profile ← model_validate updated_data;
        sync_if_changed current_profile new_profile ;;
        mret tt
  | None => mret tt
  end.

(** The text archived for an exchange. *)
Definition exchange_text (user_msg agent_msg : string) : string :=
  "User: " +:+ user_msg +:+ newline +:+ "Agent: " +:+ agent_msg.

(** Step 3: archive the exchange when it is long enough. *)
Definition episodic_archival (uid user_msg agent_msg : string) : M unit :=
  if decide (50 < len user_msg + len agent_msg) then
    add_memory (exchange_text user_msg agent_msg)
               EPISODIC (Some (<["user_id" := uid]> ∅)) ;;
    mret tt
  else mret tt.

Definition process_realtime_interaction (uid user_msg agent_msg : string) : M unit :=
  if bool_decide (user_msg = "") || bool_decide (agent_msg = "") then mret tt
  else
    update_short_term_context uid user_msg agent_msg ;;
    try_except
      (analyze_profile_delta uid user_msg agent_msg ;;
       episodic_archival uid user_msg agent_msg)
      (λ e, logger ERROR "Real-time processing failed").

Definition consolidate_session (uid : string) (conversation_history : list string)
    : M unit :=
  if decide (conversation_history = []) then mret tt
  else
    try_except
      (key_facts ← collaborator (λ n, summarize E n conversation_history);
       if decide (key_facts = []) then mret tt
       else
         existing_memories ←
           retrieve_relevant "general user facts" uid 50 (Some FACT) 0%Q;
         let existing_texts := mem_content <$> existing_memories in
         final_facts ← collaborator (λ n,
           deduplicate_facts E n existing_texts key_facts);
         present ← index_present;
         if (present : bool) then
           index_call (λ st,
             (tt, idx_delete_filter NAMESPACE
                    (<["user_id" := uid]> (<["type" := "fact"]> ∅)) st)) ;;
           for_each final_facts (λ fact,
             add_memory fact FACT (Some (<["user_id" := uid]> ∅)) ;; mret tt) ;;
           logger INFO "Consolidated facts"
         else mret tt)
      (λ e, logger ERROR "Consolidation failed").

(** A sequence of [process_realtime_interaction] calls, each given as
    (user id, user message, agent message). *)
Definition run_interactions (calls : list (string * string * string)) : M unit :=
  for_each calls (λ c, process_realtime_interaction c.1.1 c.1.2 c.2).

End Program.

(** The manager right after [__init__]: no short-term context yet. *)
Definition fresh_manager (idx : option index_state) : world :=
  World idx ∅ [] [] 0 0 0.

(** ** A concrete set of collaborators

    Used to run the program on examples.  Dictionaries are serialised
    as [key:value;] entries, the embedding of a text is its length,
    the similarity of two vectors is the product of their first
    components, and the summarizer proposes no profile change, takes
    the statements of more than 10 characters as key facts and keeps
    every candidate fact. *)

Fixpoint split_on (sep : Ascii.ascii) (s : string) : list string :=
  match s with
  | EmptyString => [EmptyString]
  | String c rest =>
      match split_on sep rest with
      | [] => [String c EmptyString]
      | hd :: tl =>
          if decide (c = sep) then EmptyString :: hd :: tl
          else String c hd :: tl
      end
  end.

Definition kv_dumps (d : gmap string string) : string :=
  foldr (λ kv acc, kv.1 +:+ ":" +:+ kv.2 +:+ ";" +:+ acc) "" (map_to_list d).

Definition kv_entry (s : string) : option (string * string) :=
  match split_on ":"%char s with
  | [k; v] => Some (k, v)
  | _ => None
  end.

Definition kv_load (s : string) : option (gmap string string) :=
  if decide (s = "{}") then Some ∅
  else
    match reverse (split_on ";"%char s) with
    | EmptyString :: entries => list_to_map <$> mapM kv_entry entries
    | _ => None
    end.

Definition first_component (v : list Q) : Q := default 0%Q (head v).

Definition demo (faults : list nat) : Collaborators := {|
  EMBEDDING_DIMENSION := 4;
  default_risk_tolerance := risk_medium;
  default_explanation_depth := depth_detailed;
  default_style_preference := style_formal;
  fails := λ n, bool_decide (n ∈ faults);
  embed := λ _ s, [inject_Z (Z.of_nat (String.length s))];
  similarity := λ q v, (first_component q * first_component v)%Q;
  uuid4 := λ n, "mem-" +:+ pretty n;
  time_now := λ n, pretty n;
  json_dumps := kv_dumps;
  safe_json_load := kv_load;
  analyze_interaction_delta := λ _ _ _ _, None;
  summarize := λ _ history, filter (λ s, 10 < String.length s) history;
  deduplicate_facts := λ _ existing candidates, candidates
|}.

(** * Reasoning about runs *)

(** ** Properties of runs *)

(** [keeps f m]: whatever [m] does and however it ends, the observation
    [f] of the world is left as it was. *)
Definition keeps {A X} (f : world → X) (m : M A) : Prop :=
  ∀ w, f (m w).2 = f w.

(** [total m]: no exception escapes from [m]. *)
Definition total {A} (m : M A) : Prop :=
  ∀ w, ∃ a, (m w).1 = Ok a.


(** The field-by-field comparison of two profiles. *)
Definition profiles_differ (p q : UserProfileSchema) : Prop :=
  user_id p ≠ user_id q ∨ risk_tolerance p ≠ risk_tolerance q ∨
  explanation_depth p ≠ explanation_depth q ∨
  style_preference p ≠ style_preference q.

(** The content of one namespace of the index, when there is an index. *)
Definition stored (ns : string) (w : world) : option namespace_store :=
  namespace_of ns <$> index w.

(** The number of ERROR records in the log. *)
Definition errors_logged (w : world) : nat :=
  length (filter (λ r, r.1 = ERROR) (log w)).

(** One exception in flight when a run ends with [Raise]. *)
Definition pending {A} (r : result A) : nat :=
  match r with Ok _ => 0 | Raise _ => 1 end.

(** [balanced m]: along a run of [m], every exception raised has been
    logged as an ERROR record, save the one still in flight at the end. *)
Definition balanced {A} (m : M A) : Prop :=
  ∀ w, raised (m w).2 + errors_logged w
       = raised w + errors_logged (m w).2 + pending (m w).1.

(** [settles h]: the handler [h], entered with one exception in flight,
    logs it. *)
Definition settles {A} (h : M A) : Prop :=
  ∀ w, raised (h w).2 + errors_logged w + 1
       = raised w + errors_logged (h w).2 + pending (h w).1.

(** Every short-term buffer holds at most 20 entries. *)
Definition buffers_bounded (w : world) : Prop :=
  ∀ (uid : string) (buf : list turn),
    active_context w !! uid = Some buf → length buf ≤ 20.

(** The buffer step 1 leaves for the user, from the one it found. *)
Definition appended_buffer (old : list turn) (user_msg agent_msg : string) : list turn :=
  let buf := (old ++ [Turn "user" user_msg; Turn "agent" agent_msg])%list in
  if decide (20 < length buf) then drop (length buf - 20) buf else buf.

(** The dictionary parsed from the profile record of a user, when the
    record is there and its [profile_data] parses. *)
Definition stored_profile_data (E : Collaborators) (uid : string) (w : world)
    : option (gmap string string) :=
  st ← index w;
  rec ← namespace_of PROFILE_NAMESPACE st !! uid;
  raw_json ← vec_metadata rec !! "profile_data";
  safe_json_load E raw_json.

(** The vector deletion of [reset_memory], with its handler. *)
Definition delete_user_vectors_outcome (E : Collaborators) (uid : string) (w : world)
    : bool * world :=
  match index w with
  | None => (true, w)
  | Some st =>
      if fails E (ticks w)
      then (false, push_log ERROR "Failed to reset memory vectors" (count_raise (tick w)))
      else (true,
            push_log WARNING "Full memory reset performed"
              (set_index (Some (idx_delete_filter NAMESPACE (<["user_id" := uid]> ∅) st))
                 (tick w)))
  end.

(** The world [delete_profile] leaves. *)
Definition delete_profile_outcome (E : Collaborators) (uid : string) (w : world)
    : world :=
  match index w with
  | None => w
  | Some st =>
      let w1 := push_log WARNING "DELETING PROFILE" w in
      if fails E (ticks w)
      then push_log ERROR "Failed to delete profile" (count_raise (tick w1))
      else push_log INFO "Profile deleted successfully"
             (set_index (Some (idx_delete_ids PROFILE_NAMESPACE [uid] st)) (tick w1))
  end.

Definition clear_cache_outcome (E : Collaborators) (w : world) : world :=
  if fails E (ticks w)
  then push_log ERROR "Failed to clear semantic cache during reset" (count_raise (tick w))
  else set_semantic_cache [] (tick w).

(** The record [add_memory] writes for an exchange when its embedding
    is requested at tick [t] (the upsert follows at tick [t + 1]). *)
Definition archive_record (E : Collaborators) (uid user_msg agent_msg : string)
    (t : nat) : vector_record :=
  VectorRecord (embed E t (exchange_text user_msg agent_msg))
    (pinecone_meta E (exchange_text user_msg agent_msg) EPISODIC
       (time_now E (S t)) (<["user_id" := uid]> ∅)).

(** The exchange is long enough to be archived: more than 50
    characters in all. *)
Definition long_exchange (user_msg agent_msg : string) : Prop :=
  50 < len user_msg + len agent_msg.

Global Instance long_exchange_dec user_msg agent_msg :
  Decision (long_exchange user_msg agent_msg).
Proof. unfold long_exchange. apply _. Defined.

(** ** Example data *)

Definition alice_high : UserProfileSchema :=
  UserProfile "alice" risk_high depth_simple style_casual.

Definition alice_low : UserProfileSchema :=
  UserProfile "alice" risk_low depth_simple style_casual.

Definition long_question : string :=
  "What is the difference between a stock and a bond?".

Definition long_answer : string :=
  "A stock is a share of ownership; a bond is a loan.".

(** A manager whose index holds the profile of alice and nothing else:
    a fresh manager after one [update_profile]. *)
Definition world_with_alice : world :=
  (update_profile (demo []) alice_high (fresh_manager (Some ∅))).2.

(** Two memories stored for two users, one query vector away. *)
Definition two_user_index : index_state :=
  idx_upsert NAMESPACE
    [UpsertItem "m1" [1%Q]
       (<["user_id" := "alice"]> (<["type" := "fact"]> (<["text" := "likes bonds"]> ∅)));
     UpsertItem "m2" [1%Q]
       (<["user_id" := "bob"]> (<["type" := "fact"]> (<["text" := "likes stocks"]> ∅)));
     UpsertItem "m3" [1%Q]
       (<["user_id" := "alice"]> (<["type" := "episodic"]> (<["text" := "hello"]> ∅)))]
    ∅.

Definition two_user_world : world :=
  World (Some two_user_index)
        (<["alice" := [Turn "user" "hi"; Turn "agent" "hello"]]>
           (<["bob" := [Turn "user" "hey"]]> ∅))
        [] [] 0 0 0.

(** The world after steps 1 and 2 of an exchange on a fresh manager. *)
Definition world_after_delta : world :=
  (analyze_profile_delta (demo []) "alice" long_question long_answer
     (update_short_term_context "alice" long_question long_answer
        (fresh_manager (Some ∅))).2).2.

(** * The rest of the two classes, and their callers in the chat UI *)

(** [l[start:]] on a Python list: a negative [start] counts from the
    end, and the bound is clamped to the list. *)
Definition slice_from {A} (start : Z) (l : list A) : list A :=
  let n := Z.of_nat (length l) in
  let i := if (start <? 0)%Z then Z.max 0 (n + start) else Z.min n start in
  drop (Z.to_nat i) l.

(** [sep.join(lines)]. *)
Fixpoint join (sep : string) (lines : list string) : string :=
  match lines with
  | [] => ""
  | [x] => x
  | x :: rest => x +:+ sep +:+ join sep rest
  end.

(** One line of the rendered context. *)
Definition format_turn (msg : turn) : string :=
  (if decide (role msg = "user") then "User" else "Agent") +:+ ": " +:+ content msg.

Section ProgramMore.

Context (E : Collaborators).

(** *** UserProfileStore, continued *)

Definition check_user_status (uid : string) : M string :=
  present ← index_present;
  if negb present then
    logger INFO "Local Mode: Treating user as 'new'" ;; mret "new"
  else
    try_except
      (result ← index_call E (λ st, (idx_fetch PROFILE_NAMESPACE [uid] st, st));
       match _parse_fetch_response result uid with
       | Some vector_data => logger INFO "User identified as 'old'" ;; mret "old"
       | None => logger INFO "User identified as 'new'" ;; mret "new"
       end)
      (λ e, logger ERROR "Error checking user status" ;; mret "new").

(** *** MemoryManager, continued *)

(** [MemoryManager.get_profile]. *)
Definition manager_get_profile (uid : string) : M UserProfileSchema :=
  get_profile E uid.

Definition get_immediate_context (uid : string) (window_size : Z) : M string :=
  w ← get_world;
  let history := default [] (active_context w !! uid) in
  if decide (history = []) then mret ""
  else
    let recent_turns := slice_from (- window_size) history in
    mret (join newline (format_turn <$> recent_turns)).

Definition check_and_update_profile_pre_planning (uid user_query : string) : M unit :=
  if bool_decide (user_query = "") then mret tt
  else
    try_except
      (current_profile ← get_profile E uid;
       let original_dump := model_dump current_profile in
       updates ← collaborator E (λ n,
         analyze_interaction_delta E n current_profile user_query
           "[SYSTEM: PRE-RESPONSE CHECK]");
       match updates with
       | Some u =>
           if decide (u = ∅) then mret tt
           else
             let updated_data := u ∪ original_dump in
             new_profile ← model_validate E updated_data;
             changed ← sync_if_changed E current_profile new_profile;
             if (changed : bool) then
               logger INFO "Profile updated based on pre-planning check"
             else mret tt
       | None => mret tt
       end)
      (λ e, logger WARNING "Pre-planning profile check failed").

End ProgramMore.

(** ** The chat UI ([chatbot_ui.py])

    The two helpers of the login screen.  [st.session_state] is the
    record [session]; what a helper shows on the page is the list of
    [ui_event]s it returns, [st.rerun()] last when it is called. *)

Record session := Session {
  ss_user_id : option string;
  ss_authenticated : bool;
  ss_is_new_user : bool;
  ss_messages : list turn
}.

Inductive ui_event :=
  | UiError (msg : string)
  | UiSuccess (msg : string)
  | UiRerun.

Section ChatUI.

Context (E : Collaborators).

Definition login_user (uid : string) (is_new_declared : bool) (s : session)
    : M (session * list ui_event) :=
  if bool_decide (uid = "") then mret (s, [UiError "Please enter a User ID."])
  else
    status ← check_user_status E uid;
    if is_new_declared && bool_decide (status = "old") then
      mret (s, [UiError ("❌ User ID '" +:+ uid +:+
                         "' is already taken. Please choose a new ID.")])
    else if negb is_new_declared && bool_decide (status = "new") then
      mret (s, [UiError ("❌ Profile not found for '" +:+ uid +:+
                         "'. Please select 'New User' to create an account.")])
    else
      let s := Session (Some uid) (ss_authenticated s) (ss_is_new_user s)
                       (ss_messages s) in
      if is_new_declared then
        mret (Session (ss_user_id s) (ss_authenticated s) true (ss_messages s), [])
      else
        mret (Session (ss_user_id s) true false (ss_messages s), [UiRerun]).

(** The keyword arguments given to [UserProfileSchema] by [save_profile];
    a session without user id passes [None], which the schema rejects
    like a missing id. *)
Definition profile_form_data (user : option string) (risk depth style : string)
    : gmap string string :=
  let data :=
    <["risk_tolerance" := risk]>
    (<["explanation_depth" := depth]>
    (<["style_preference" := style]> ∅)) in
  match user with
  | Some uid => <["user_id" := uid]> data
  | None => data
  end.

Definition save_profile (risk depth style : string) (s : session)
    : M (session * list ui_event) :=
  let user := ss_user_id s in
  new_profile ← model_validate E (profile_form_data user risk depth style);
  try_except
    (update_profile E new_profile ;;
     mret (Session (ss_user_id s) true (ss_is_new_user s) (ss_messages s),
           [UiSuccess "Profile created successfully!"; UiRerun]))
    (λ e, mret (s, [UiError "Failed to save profile"])).

End ChatUI.

(** [st.session_state] as the script sets it up. *)
Definition initial_session : session := Session None false false [].

(** ** Notions used for the remaining properties *)

(** The codec gives back the dictionary it serialised. *)
Definition codec_round_trip (E : Collaborators) (d : gmap string string) : Prop :=
  safe_json_load E (json_dumps E d) = Some d.

(** The placeholder vector [update_profile] stores with a profile. *)
Definition profile_placeholder (E : Collaborators) : list Q :=
  <[0 := 1%Q]> (replicate (EMBEDDING_DIMENSION E) 0%Q).

(** The record [update_profile] stores for a profile. *)
Definition profile_record (E : Collaborators) (p : UserProfileSchema) : vector_record :=
  VectorRecord (profile_placeholder E)
    (<["profile_data" := model_dump_json E p]> (<["type" := "user_profile"]> ∅)).

(** The profile record stored under an id, when there is one. *)
Definition profile_record_of (uid : string) (w : world) : option vector_record :=
  stored PROFILE_NAMESPACE w ≫= (.!! uid).

(** [maintains I m]: a run of [m] from a world where [I] holds ends,
    normally or not, in a world where [I] holds. *)
Definition maintains {A} (I : world → Prop) (m : M A) : Prop :=
  ∀ w, I w → I (m w).2.

(** A record of the memory store that is a fact of the user. *)
Definition user_fact (uid : string) (rec : vector_record) : Prop :=
  vec_metadata rec !! "type" = Some (MemoryType_value FACT) ∧
  vec_metadata rec !! "user_id" = Some uid.

(** The record kept under an id of the memory store, when there is one. *)
Definition memory_record_of (id : string) (w : world) : option vector_record :=
  stored NAMESPACE w ≫= (.!! id).

(** Relative to the world [w0]: every record of the memory store is
    one of [w0] or a fact of the user. *)
Definition only_user_facts_added (uid : string) (w0 w : world) : Prop :=
  ∀ id rec, memory_record_of id w = Some rec →
    user_fact uid rec ∨ memory_record_of id w0 = Some rec.

(** Relative to the world [w0]: every record of [w0] that is not a fact
    of the user is still there. *)
Definition other_records_kept (uid : string) (w0 w : world) : Prop :=
  ∀ id rec, memory_record_of id w0 = Some rec → ¬ user_fact uid rec →
    memory_record_of id w = Some rec.

(** The ids [uuid4] hands out are not in use in the memory store. *)
Definition fresh_ids (E : Collaborators) (w : world) : Prop :=
  ∀ n, memory_record_of (uuid4 E n) w = None.

(** What holds of the memory store all along a consolidation started
    in [w0]. *)
Definition consolidation_invariant (E : Collaborators) (uid : string)
    (w0 w : world) : Prop :=
  only_user_facts_added uid w0 w ∧ (fresh_ids E w0 → other_records_kept uid w0 w).

(** Every fact of the user in the memory store has its text in [facts]. *)
Definition user_facts_among (uid : string) (facts : list string) (w : world) : Prop :=
  ∀ id rec, memory_record_of id w = Some rec → user_fact uid rec →
    ∃ fact, fact ∈ facts ∧ vec_metadata rec !! "text" = Some fact.

(** The profile a lookup that does not fail shows for a user: the
    stored one when it parses and validates, the default otherwise. *)
Definition profile_view (E : Collaborators) (uid : string) (w : world)
    : UserProfileSchema :=
  match stored_profile_data E uid w with
  | Some d =>
      if decide (d = ∅) then default_profile E uid
      else default (default_profile E uid) (validated E d)
  | None => default_profile E uid
  end.

(** The index [reset_memory] leaves: each of the two deletions is
    applied unless its own call fails. *)
Definition reset_memory_index (E : Collaborators) (uid : string) (w : world)
    (st : index_state) : index_state :=
  let st1 :=
    if fails E (ticks w) then st
    else idx_delete_filter NAMESPACE (<["user_id" := uid]> ∅) st in
  if fails E (S (ticks w)) then st1
  else idx_delete_ids PROFILE_NAMESPACE [uid] st1.

(** ** More example data *)

(** An exchange of 40 characters that takes 80 bytes in UTF-8. *)
Definition wide_question : string := "日日日日日日日日日日日日日日日日日日日日".

Definition wide_answer : string := "xxxxxxxxxxxxxxxxxxxx".

(** An exchange of exactly 50 characters, 51 bytes in UTF-8. *)
Definition accented_question : string := "éaaaaaaaaaaaaaaaaaaaaaaaa".

Definition accented_answer : string := "bbbbbbbbbbbbbbbbbbbbbbbbb".

(** The collaborators of [demo] without faults, with a summarizer that
    reads every exchange as a wish for low risk. *)
Definition cautious_demo : Collaborators := {|
  EMBEDDING_DIMENSION := EMBEDDING_DIMENSION (demo []);
  default_risk_tolerance := default_risk_tolerance (demo []);
  default_explanation_depth := default_explanation_depth (demo []);
  default_style_preference := default_style_preference (demo []);
  fails := fails (demo []);
  embed := embed (demo []);
  similarity := similarity (demo []);
  uuid4 := uuid4 (demo []);
  time_now := time_now (demo []);
  json_dumps := json_dumps (demo []);
  safe_json_load := safe_json_load (demo []);
  analyze_interaction_delta := λ _ _ _ _,
    Some (<["risk_tolerance" := "low"]> ∅);
  summarize := summarize (demo []);
  deduplicate_facts := deduplicate_facts (demo [])
|}.

(** The session of a new user who has passed the login form. *)
Definition bob_session : session := Session (Some "bob") false true [].

(** The record of bob in [two_user_index]. *)
Definition bob_fact : vector_record :=
  VectorRecord [1%Q]
    (<["user_id" := "bob"]> (<["type" := "fact"]> (<["text" := "likes stocks"]> ∅))).

(** * Proofs *)

(** Unfolding of the monad's plumbing. *)
Ltac unfold_monad :=
  unfold mbind, M_bind, mret, M_ret, try_except, logger, raise,
    index_present, get_world in *.

(** ** Observations left alone *)

Section Keeps.

Context {X : Type} (f : world → X).

Lemma keeps_mret {A} (a : A) : keeps f (mret a : M A).
Proof. intros w. reflexivity. Qed.

Lemma keeps_bind {A B} (m : M A) (k : A → M B) :
  keeps f m → (∀ a, keeps f (k a)) → keeps f (m ≫= k).
Proof.
  intros Hm Hk w. unfold mbind, M_bind.
  specialize (Hm w). destruct (m w) as [[a|e] w1]; simpl in *.
  - rewrite <- Hm. apply Hk.
  - exact Hm.
Qed.

Lemma keeps_try_except {A} (body : M A) (handler : exn → M A) :
  keeps f body → (∀ e, keeps f (handler e)) → keeps f (try_except body handler).
Proof.
  intros Hm Hh w. unfold try_except.
  specialize (Hm w). destruct (body w) as [[a|e] w1]; simpl in *.
  - exact Hm.
  - rewrite <- Hm. apply Hh.
Qed.

Lemma keeps_for_each {A} (xs : list A) (body : A → M unit) :
  (∀ x, keeps f (body x)) → keeps f (for_each xs body).
Proof.
  intros Hb. induction xs as [|x xs IH]; simpl.
  - apply keeps_mret.
  - apply keeps_bind; [apply Hb | intros _; exact IH].
Qed.

End Keeps.

(** Closes [keeps f m] for a primitive [m] by running it. *)
Ltac keeps_primitive :=
  let w := fresh "w" in
  intros w; destruct w as [? ? ? ? ? ? ?];
  unfold_monad; simpl; repeat case_match; simpl; reflexivity.

(** Breaks a goal [keeps f m] down along the shape of [m]; [known]
    closes the parts already proved. *)
Ltac monad_shape known :=
  repeat first
    [ solve [known]
    | apply keeps_mret
    | apply keeps_bind; [| intros ?]
    | apply keeps_try_except; [| intros ?]
    | apply keeps_for_each; intros ?
    | progress cbv beta zeta
    | match goal with
      | |- keeps _ (if ?b then _ else _) => destruct b
      | |- keeps _ (match ?x with _ => _ end) => destruct x
      end
    | solve [keeps_primitive] ].

(** ** No exception escapes *)

Lemma total_mret {A} (a : A) : total (mret a : M A).
Proof. intros w. by exists a. Qed.

Lemma total_bind {A B} (m : M A) (f : A → M B) :
  total m → (∀ a, total (f a)) → total (m ≫= f).
Proof.
  intros Hm Hf w. unfold mbind, M_bind.
  destruct (Hm w) as [a Ha]. destruct (m w) as [r w1]; simpl in *; subst r.
  apply Hf.
Qed.

Lemma total_try_except {A} (body : M A) (handler : exn → M A) :
  (∀ e, total (handler e)) → total (try_except body handler).
Proof.
  intros Hh w. unfold try_except.
  destruct (body w) as [[a|e] w1]; simpl; [by exists a | apply Hh].
Qed.

Lemma total_logger l msg : total (logger l msg).
Proof. intros w. by exists tt. Qed.

Lemma total_index_present : total index_present.
Proof. intros w. by eexists. Qed.

(** ** The index operations *)

Lemma namespace_of_insert_ne ns ns' (m : namespace_store) (st : index_state) :
  ns ≠ ns' → namespace_of ns (<[ns' := m]> st) = namespace_of ns st.
Proof. intros Hne. unfold namespace_of. by rewrite lookup_insert_ne. Qed.

Lemma namespace_of_insert_eq ns (m : namespace_store) (st : index_state) :
  namespace_of ns (<[ns := m]> st) = m.
Proof. unfold namespace_of. by rewrite lookup_insert_eq. Qed.

Lemma filter_matches_two k1 v1 k2 v2 (meta : gmap string string) :
  k1 ≠ k2 →
  filter_matches (<[k1 := v1]> (<[k2 := v2]> ∅)) meta
  ↔ meta !! k1 = Some v1 ∧ meta !! k2 = Some v2.
Proof.
  intros Hne. unfold filter_matches. split.
  - intros H. split.
    + apply (H k1 v1). by simplify_map_eq.
    + apply (H k2 v2). by simplify_map_eq.
  - intros [H1 H2] k v Hk.
    apply lookup_insert_Some in Hk as [[<- <-]|[_ Hk]]; [done|].
    apply lookup_insert_Some in Hk as [[<- <-]|[_ Hk]]; [done|].
    by rewrite lookup_empty in Hk.
Qed.

Lemma filter_matches_one k v (meta : gmap string string) :
  filter_matches (<[k := v]> ∅) meta ↔ meta !! k = Some v.
Proof.
  unfold filter_matches. split.
  - intros H. apply (H k v). by simplify_map_eq.
  - intros H1 k' v' Hk.
    apply lookup_insert_Some in Hk as [[<- <-]|[_ Hk]]; [done|].
    by rewrite lookup_empty in Hk.
Qed.

Lemma idx_delete_filter_other ns ns' flt st :
  ns' ≠ ns → namespace_of ns' (idx_delete_filter ns flt st) = namespace_of ns' st.
Proof. intros Hne. unfold idx_delete_filter. by apply namespace_of_insert_ne. Qed.

Lemma idx_delete_filter_lookup ns flt st id rec :
  namespace_of ns (idx_delete_filter ns flt st) !! id = Some rec
  ↔ namespace_of ns st !! id = Some rec ∧ ¬ filter_matches flt (vec_metadata rec).
Proof.
  unfold idx_delete_filter. rewrite namespace_of_insert_eq.
  rewrite map_lookup_filter_Some. simpl. done.
Qed.

Lemma idx_delete_ids_other ns ns' ids st :
  ns' ≠ ns → namespace_of ns' (idx_delete_ids ns ids st) = namespace_of ns' st.
Proof. intros Hne. unfold idx_delete_ids. by apply namespace_of_insert_ne. Qed.

Lemma idx_delete_ids_lookup ns ids st id rec :
  namespace_of ns (idx_delete_ids ns ids st) !! id = Some rec
  ↔ namespace_of ns st !! id = Some rec ∧ id ∉ ids.
Proof.
  unfold idx_delete_ids. rewrite namespace_of_insert_eq.
  rewrite map_lookup_filter_Some. simpl. done.
Qed.

Lemma idx_upsert_other ns ns' items st :
  ns' ≠ ns → namespace_of ns' (idx_upsert ns items st) = namespace_of ns' st.
Proof. intros Hne. unfold idx_upsert. by apply namespace_of_insert_ne. Qed.

Lemma idx_upsert_one ns id vals meta st :
  namespace_of ns (idx_upsert ns [UpsertItem id vals meta] st)
  = <[id := VectorRecord vals meta]> (namespace_of ns st).
Proof. unfold idx_upsert. by rewrite namespace_of_insert_eq. Qed.

Lemma idx_fetch_one ns id st :
  idx_fetch ns [id] st !! id = namespace_of ns st !! id.
Proof.
  unfold idx_fetch.
  destruct (namespace_of ns st !! id) as [rec|] eqn:Hrec.
  - apply map_lookup_filter_Some. split; [done|]. simpl. by left.
  - apply map_lookup_filter_None. left. done.
Qed.

(** ** What each method leaves alone *)

Section Frames.

Context (E : Collaborators).

(** *** The short-term context *)

Lemma get_profile_keeps_context uid : keeps active_context (get_profile E uid).
Proof.
  unfold get_profile, index_call, model_validate. monad_shape idtac.
Qed.

Lemma update_profile_keeps_context p : keeps active_context (update_profile E p).
Proof.
  unfold update_profile, enter_update_profile, index_call. monad_shape idtac.
Qed.

Lemma sync_if_changed_keeps_context p q :
  keeps active_context (sync_if_changed E p q).
Proof.
  unfold sync_if_changed.
  monad_shape ltac:(apply update_profile_keeps_context).
Qed.

Lemma add_memory_keeps_context text ty meta :
  keeps active_context (add_memory E text ty meta).
Proof. unfold add_memory, collaborator, index_call. monad_shape idtac. Qed.

Lemma analyze_profile_delta_keeps_context uid um am :
  keeps active_context (analyze_profile_delta E uid um am).
Proof.
  unfold analyze_profile_delta, collaborator, model_validate.
  monad_shape ltac:(first [ apply get_profile_keeps_context
                          | apply sync_if_changed_keeps_context ]).
Qed.

Lemma episodic_archival_keeps_context uid um am :
  keeps active_context (episodic_archival E uid um am).
Proof.
  unfold episodic_archival.
  monad_shape ltac:(apply add_memory_keeps_context).
Qed.

(** *** The namespaces of the index *)

(** An index call that does not touch the namespace [ns]. *)
Lemma index_call_keeps_stored ns {A} (op : index_state → A * index_state) :
  (∀ st, namespace_of ns (op st).2 = namespace_of ns st) →
  keeps (stored ns) (index_call E op).
Proof.
  intros Hop [idx ctx cache lg n r c]. unfold index_call, stored. unfold_monad.
  simpl. destruct idx as [st|]; simpl; [|done].
  destruct (fails E n); simpl; [done|]. by rewrite Hop.
Qed.

Lemma get_profile_keeps_stored ns uid : keeps (stored ns) (get_profile E uid).
Proof.
  unfold get_profile, model_validate.
  monad_shape ltac:(by apply index_call_keeps_stored).
Qed.

Lemma update_profile_keeps_stored ns p :
  ns ≠ PROFILE_NAMESPACE → keeps (stored ns) (update_profile E p).
Proof.
  intros Hne. unfold update_profile, enter_update_profile.
  monad_shape ltac:(apply index_call_keeps_stored; intros st; simpl;
                    by apply idx_upsert_other).
Qed.

Lemma sync_if_changed_keeps_stored ns p q :
  ns ≠ PROFILE_NAMESPACE → keeps (stored ns) (sync_if_changed E p q).
Proof.
  intros Hne. unfold sync_if_changed.
  monad_shape ltac:(by apply update_profile_keeps_stored).
Qed.

Lemma analyze_profile_delta_keeps_stored ns uid um am :
  ns ≠ PROFILE_NAMESPACE → keeps (stored ns) (analyze_profile_delta E uid um am).
Proof.
  intros Hne. unfold analyze_profile_delta, collaborator, model_validate.
  monad_shape ltac:(first [ apply get_profile_keeps_stored
                          | by apply sync_if_changed_keeps_stored ]).
Qed.

Lemma add_memory_keeps_stored ns text ty meta :
  ns ≠ NAMESPACE → keeps (stored ns) (add_memory E text ty meta).
Proof.
  intros Hne. unfold add_memory, collaborator.
  monad_shape ltac:(apply index_call_keeps_stored; intros st; simpl;
                    by apply idx_upsert_other).
Qed.

Lemma episodic_archival_keeps_stored ns uid um am :
  ns ≠ NAMESPACE → keeps (stored ns) (episodic_archival E uid um am).
Proof.
  intros Hne. unfold episodic_archival.
  monad_shape ltac:(by apply add_memory_keeps_stored).
Qed.

End Frames.

(** ** Exceptions raised and errors logged *)

Lemma errors_logged_push_log l msg w :
  errors_logged (push_log l msg w)
  = errors_logged w + (if decide (l = ERROR) then 1 else 0).
Proof.
  unfold errors_logged, push_log. simpl.
  rewrite filter_app, length_app. f_equal.
  rewrite filter_cons, filter_nil. simpl.
  destruct (decide (l = ERROR)); reflexivity.
Qed.

Section Balance.

Context (E : Collaborators).

Lemma balanced_mret {A} (a : A) : balanced (mret a : M A).
Proof. intros w. simpl. lia. Qed.

Lemma balanced_bind {A B} (m : M A) (k : A → M B) :
  balanced m → (∀ a, balanced (k a)) → balanced (m ≫= k).
Proof.
  intros Hm Hk w. unfold mbind, M_bind. specialize (Hm w).
  destruct (m w) as [[a|e] w1]; simpl in *.
  - specialize (Hk a w1). lia.
  - lia.
Qed.

Lemma balanced_try_except {A} (body : M A) (handler : exn → M A) :
  balanced body → (∀ e, settles (handler e)) → balanced (try_except body handler).
Proof.
  intros Hm Hh w. unfold try_except. specialize (Hm w).
  destruct (body w) as [[a|e] w1]; simpl in *.
  - lia.
  - specialize (Hh e w1). lia.
Qed.

(** A handler that logs one ERROR record and returns. *)
Lemma settles_log_error {A} msg (a : A) : settles (logger ERROR msg ;; mret a).
Proof.
  intros w. unfold_monad. simpl. rewrite errors_logged_push_log.
  rewrite decide_True by done. simpl. lia.
Qed.

Lemma settles_logger_error msg : settles (logger ERROR msg).
Proof.
  intros w. unfold_monad. simpl. rewrite errors_logged_push_log.
  rewrite decide_True by done. simpl. lia.
Qed.

Lemma balanced_logger l msg : l ≠ ERROR → balanced (logger l msg).
Proof.
  intros Hl w. unfold_monad. simpl. rewrite errors_logged_push_log.
  rewrite decide_False by done. simpl. lia.
Qed.

Lemma balanced_raise {A} e : balanced (raise e : M A).
Proof. intros [idx ctx cache lg n r c]. unfold_monad. unfold errors_logged. simpl. lia. Qed.

Lemma balanced_index_present : balanced index_present.
Proof. intros w. unfold_monad. simpl. lia. Qed.

Lemma balanced_collaborator {A} (g : nat → A) : balanced (collaborator E g).
Proof.
  intros [idx ctx cache lg n r c]. unfold collaborator. unfold_monad.
  unfold errors_logged. simpl. destruct (fails E n); simpl; lia.
Qed.

Lemma balanced_index_call {A} (op : index_state → A * index_state) :
  balanced (index_call E op).
Proof.
  intros [idx ctx cache lg n r c]. unfold index_call. unfold_monad.
  unfold errors_logged. simpl.
  destruct idx; simpl; [destruct (fails E n)|]; simpl; lia.
Qed.

Lemma balanced_model_validate data : balanced (model_validate E data).
Proof.
  unfold model_validate. destruct (validated E data);
    [apply balanced_mret | apply balanced_raise].
Qed.

Lemma balanced_enter_update_profile : balanced enter_update_profile.
Proof. intros [idx ctx cache lg n r c]. unfold enter_update_profile, errors_logged. simpl. lia. Qed.

End Balance.

Section BalancedMethods.

Context (E : Collaborators).

Lemma balanced_get_profile uid : balanced (get_profile E uid).
Proof.
  unfold get_profile.
  apply balanced_bind; [apply balanced_index_present|]. intros present.
  destruct (negb present); [apply balanced_mret|].
  apply balanced_try_except; [|intros e; apply settles_log_error].
  apply balanced_bind; [apply balanced_index_call|]. intros result.
  destruct (_parse_fetch_response result uid) as [vector_data|];
    [|apply balanced_mret].
  cbv zeta. destruct (_ ≫= safe_json_load E) as [d|]; [|apply balanced_mret].
  destruct (decide (d = ∅)); [apply balanced_mret | apply balanced_model_validate].
Qed.

Lemma balanced_update_profile p : balanced (update_profile E p).
Proof.
  unfold update_profile.
  apply balanced_bind; [apply balanced_enter_update_profile|]. intros _.
  apply balanced_bind; [apply balanced_index_present|]. intros present.
  destruct (negb present); [apply balanced_mret|].
  apply balanced_try_except; [|intros e; apply settles_logger_error].
  apply balanced_index_call.
Qed.

Lemma balanced_sync_if_changed p q : balanced (sync_if_changed E p q).
Proof.
  unfold sync_if_changed. case_decide; [|apply balanced_mret].
  apply balanced_bind; [by apply balanced_logger|]. intros _.
  apply balanced_bind; [apply balanced_update_profile|]. intros _.
  apply balanced_mret.
Qed.

Lemma balanced_analyze_profile_delta uid um am :
  balanced (analyze_profile_delta E uid um am).
Proof.
  unfold analyze_profile_delta.
  apply balanced_bind; [apply balanced_get_profile|]. intros current_profile.
  apply balanced_bind; [apply balanced_collaborator|]. intros [u|];
    [|apply balanced_mret].
  destruct (decide (u = ∅)); [apply balanced_mret|].
  apply balanced_bind; [apply balanced_model_validate|]. intros new_profile.
  apply balanced_bind; [apply balanced_sync_if_changed|]. intros _.
  apply balanced_mret.
Qed.

End BalancedMethods.

(** ** The profile dictionary *)

Lemma risk_value_inj r1 r2 : risk_value r1 = risk_value r2 → r1 = r2.
Proof. destruct r1, r2; simpl; intros H; first [reflexivity | discriminate H]. Qed.

Lemma depth_value_inj d1 d2 : depth_value d1 = depth_value d2 → d1 = d2.
Proof. destruct d1, d2; simpl; intros H; first [reflexivity | discriminate H]. Qed.

Lemma style_value_inj s1 s2 : style_value s1 = style_value s2 → s1 = s2.
Proof. destruct s1, s2; simpl; intros H; first [reflexivity | discriminate H]. Qed.

Lemma model_dump_lookup_user_id p : model_dump p !! "user_id" = Some (user_id p).
Proof. unfold model_dump. by simplify_map_eq. Qed.

Lemma model_dump_lookup_risk p :
  model_dump p !! "risk_tolerance" = Some (risk_value (risk_tolerance p)).
Proof. unfold model_dump. by simplify_map_eq. Qed.

Lemma model_dump_lookup_depth p :
  model_dump p !! "explanation_depth" = Some (depth_value (explanation_depth p)).
Proof. unfold model_dump. by simplify_map_eq. Qed.

Lemma model_dump_lookup_style p :
  model_dump p !! "style_preference" = Some (style_value (style_preference p)).
Proof. unfold model_dump. by simplify_map_eq. Qed.

(** Two profiles with the same dictionary are the same profile. *)
Lemma model_dump_inj p q : model_dump p = model_dump q → p = q.
Proof.
  intros H.
  pose proof (model_dump_lookup_user_id p) as Hu.
  pose proof (model_dump_lookup_risk p) as Hr.
  pose proof (model_dump_lookup_depth p) as Hd.
  pose proof (model_dump_lookup_style p) as Hs.
  rewrite H in Hu, Hr, Hd, Hs.
  rewrite model_dump_lookup_user_id in Hu.
  rewrite model_dump_lookup_risk in Hr.
  rewrite model_dump_lookup_depth in Hd.
  rewrite model_dump_lookup_style in Hs.
  destruct p as [u1 r1 d1 s1], q as [u2 r2 d2 s2]; simpl in *.
  f_equal.
  - congruence.
  - apply risk_value_inj; congruence.
  - apply depth_value_inj; congruence.
  - apply style_value_inj; congruence.
Qed.

Lemma profiles_differ_iff p q : profiles_differ p q ↔ p ≠ q.
Proof.
  unfold profiles_differ. split.
  - intros [H|[H|[H|H]]] ->; done.
  - intros Hne. destruct p as [u1 r1 d1 s1], q as [u2 r2 d2 s2]; simpl.
    destruct (decide (u1 = u2)) as [->|]; [|by left].
    destruct (decide (r1 = r2)) as [->|]; [|by right; left].
    destruct (decide (d1 = d2)) as [->|]; [|by right; right; left].
    destruct (decide (s1 = s2)) as [->|]; [|by right; right; right].
    done.
Qed.

Lemma model_dump_differ_iff p q :
  model_dump p ≠ model_dump q ↔ profiles_differ p q.
Proof.
  rewrite profiles_differ_iff. split.
  - intros H ->. done.
  - intros H Heq. apply H, model_dump_inj, Heq.
Qed.

(** ** [sync_if_changed] *)

Lemma update_profile_counted E p w :
  update_profile_calls (update_profile E p w).2 = S (update_profile_calls w).
Proof.
  destruct w as [idx ctx cache lg n r c].
  unfold update_profile, enter_update_profile, index_call. unfold_monad. simpl.
  destruct idx as [st|]; simpl; [|done].
  destruct (fails E n); done.
Qed.

(** C4. [sync_if_changed old new] calls [update_profile] exactly when
    some field of [old] differs from the same field of [new], it calls
    it once, and it returns whether it did; on profiles with equal
    fields it leaves the world as it was. *)
Theorem sync_if_changed_writes_iff_differ E (old new : UserProfileSchema) (w : world) :
  ∃ b : bool,
    (sync_if_changed E old new w).1 = Ok b ∧
    (b = true ↔ profiles_differ old new) ∧
    update_profile_calls (sync_if_changed E old new w).2
      = update_profile_calls w + (if b then 1 else 0) ∧
    (b = false → (sync_if_changed E old new w).2 = w).
Proof.
  unfold sync_if_changed.
  destruct (decide (model_dump old ≠ model_dump new)) as [Hd|Hd].
  - exists true. apply model_dump_differ_iff in Hd.
    assert (Hrun : ∀ w0, ∃ w1,
      (logger INFO "Syncing profile changes" ;;
       update_profile E new ;; mret true) w0 = (Ok true, w1) ∧
      update_profile_calls w1 = S (update_profile_calls w0)).
    { intros w0. unfold mbind, M_bind, logger.
      pose proof (update_profile_counted E new (push_log INFO "Syncing profile changes" w0)) as Hc.
      assert (Ht : ∃ u, (update_profile E new (push_log INFO "Syncing profile changes" w0)).1 = Ok u).
      { destruct w0 as [idx ctx cache lg n r c].
        unfold update_profile, enter_update_profile, index_call. unfold_monad. simpl.
        destruct idx; simpl; [|by eexists].
        destruct (fails E n); by eexists. }
      destruct Ht as [u Hu].
      destruct (update_profile E new (push_log INFO "Syncing profile changes" w0)) as [r w1].
      simpl in *. subst r. exists w1. split; [done|]. exact Hc. }
    destruct (Hrun w) as (w1 & -> & Hc). simpl.
    split; [done|]. split; [done|]. split; [lia | done].
  - exists false. simpl. split; [done|]. split.
    + split; [done|]. intros H. apply model_dump_differ_iff in H. done.
    + split; [lia | done].
Qed.

(** ** [add_memory] *)

(** C1. A call to [add_memory] with type FACT or EPISODIC and metadata
    without the key [user_id] returns [None]; it leaves the index as
    it was and calls no collaborator, so no vector is upserted. *)
Theorem add_memory_rejects_missing_user_id E (text : string)
    (memory_type : MemoryType) (metadata : option (gmap string string)) (w : world) :
  memory_type ∈ [FACT; EPISODIC] →
  default ∅ metadata !! "user_id" = None →
  (add_memory E text memory_type metadata w).1 = Ok None ∧
  index (add_memory E text memory_type metadata w).2 = index w ∧
  ticks (add_memory E text memory_type metadata w).2 = ticks w.
Proof.
  intros Hty Hmeta.
  destruct w as [idx ctx cache lg n r c].
  unfold add_memory. unfold_monad. simpl.
  destruct (negb (bool_decide (is_Some idx)) || bool_decide (text = "")); [done|].
  rewrite (bool_decide_eq_true_2 _ Hty). rewrite Hmeta.
  rewrite bool_decide_eq_false_2 by (intros [? ?]; discriminate).
  done.
Qed.

Lemma pinecone_meta_tagged E text ty ts uid :
  pinecone_meta E text ty ts (<["user_id" := uid]> ∅) !! "type"
    = Some (MemoryType_value ty) ∧
  pinecone_meta E text ty ts (<["user_id" := uid]> ∅) !! "user_id" = Some uid ∧
  pinecone_meta E text ty ts (<["user_id" := uid]> ∅) !! "text" = Some text.
Proof. unfold pinecone_meta. rewrite lookup_insert_eq. by simplify_map_eq. Qed.

(** [add_memory] on metadata that carries the user id, step by step. *)
Lemma add_memory_tagged_run E text ty uid w :
  add_memory E text ty (Some (<["user_id" := uid]> ∅)) w =
  match index w with
  | None => (Ok None, w)
  | Some st =>
      if bool_decide (text = "") then (Ok None, w)
      else if fails E (ticks w)
      then (Ok None, push_log ERROR "Upsert failed" (count_raise (tick w)))
      else if decide (embed E (ticks w) text = []) then (Ok None, tick w)
      else if fails E (S (ticks w))
      then (Ok None, push_log ERROR "Upsert failed" (count_raise (tick (tick w))))
      else
        (Ok (Some (uuid4 E (S (ticks w)))),
         set_index
           (Some (idx_upsert NAMESPACE
                    [UpsertItem (uuid4 E (S (ticks w))) (embed E (ticks w) text)
                       (pinecone_meta E text ty (time_now E (S (ticks w)))
                          (<["user_id" := uid]> ∅))] st))
           (tick (tick w)))
  end.
Proof.
  destruct w as [idx ctx cache lg n r c].
  unfold add_memory, collaborator, index_call. unfold_monad. simpl.
  destruct idx as [st|]; simpl; [|done].
  destruct (bool_decide (text = "")); simpl; [done|].
  rewrite lookup_insert_eq.
  rewrite (bool_decide_eq_true_2 (is_Some (Some uid))) by (by eexists).
  rewrite andb_false_r. simpl.
  destruct (fails E n); simpl; [done|].
  destruct (decide (embed E n text = [])); simpl; [done|].
  destruct (fails E (S n)); done.
Qed.

(** ** [retrieve_relevant] *)

Lemma Qltb_false_le (x y : Q) : Qltb x y = false → (y <= x)%Q.
Proof. unfold Qltb, Qle. intros H. apply Z.ltb_ge in H. exact H. Qed.

(** What the index hands back on a query: records of the namespace
    that pass the filter, with their own metadata and their score
    against the query vector. *)
Lemma idx_query_sound sim ns q top_k flt st (m : query_match) :
  m ∈ idx_query sim ns q top_k flt st →
  ∃ rec : vector_record,
    namespace_of ns st !! match_id m = Some rec ∧
    match_metadata m = vec_metadata rec ∧
    match_score m = sim q (vec_values rec) ∧
    filter_matches flt (vec_metadata rec).
Proof.
  unfold idx_query. intros Hin.
  apply elem_of_take in Hin as (i & Hin & _).
  apply list_elem_of_lookup_2 in Hin.
  rewrite merge_sort_Permutation in Hin.
  apply list_elem_of_fmap in Hin as ([k rec] & -> & Hin).
  apply list_elem_of_filter in Hin as [Hflt Hin].
  apply elem_of_map_to_list in Hin. simpl in *.
  exists rec. done.
Qed.

(** The loop keeps, in order, the matches whose score is not below
    the threshold. *)
Lemma collect_memories_sound E thr (ms : list query_match) w items w' :
  collect_memories E thr ms w = (Ok items, w') →
  ∀ item, item ∈ items →
    ∃ m, m ∈ ms ∧ mem_id item = match_id m ∧ Qltb (match_score m) thr = false.
Proof.
  revert w items w'. induction ms as [|m ms IH]; intros w items w' Hrun item Hin.
  - simpl in Hrun. unfold_monad. simplify_eq. by apply elem_of_nil in Hin.
  - simpl in Hrun. destruct (Qltb (match_score m) thr) eqn:Hlt.
    + destruct (IH _ _ _ Hrun item Hin) as (m' & Hm' & Hid & Hs).
      exists m'. split; [by right | done].
    + unfold MemoryType_of_value in Hrun. unfold_monad.
      repeat case_decide; simpl in Hrun; try discriminate Hrun.
      * destruct (collect_memories E thr ms w) as [[rest|e] w1] eqn:Hrest;
          simplify_eq.
        apply elem_of_cons in Hin as [->|Hin].
        -- exists m. split; [by left | done].
        -- destruct (IH _ _ _ Hrest item Hin) as (m' & Hm' & Hid & Hs).
           exists m'. split; [by right | done].
      * destruct (collect_memories E thr ms w) as [[rest|e] w1] eqn:Hrest;
          simplify_eq.
        apply elem_of_cons in Hin as [->|Hin].
        -- exists m. split; [by left | done].
        -- destruct (IH _ _ _ Hrest item Hin) as (m' & Hm' & Hid & Hs).
           exists m'. split; [by right | done].
Qed.

Lemma filter_dict_user_id (uid : string) (memory_type : option MemoryType)
    (meta : gmap string string) :
  filter_matches
    match memory_type with
    | Some t => <["type" := MemoryType_value t]> (<["user_id" := uid]> ∅)
    | None => <["user_id" := uid]> ∅
    end meta →
  meta !! "user_id" = Some uid.
Proof.
  unfold filter_matches. intros H. apply (H "user_id" uid).
  destruct memory_type; by simplify_map_eq.
Qed.

(** C2. [retrieve_relevant] always returns a list, and every item of
    it comes from a record stored in the memory namespace whose
    metadata carries the [user_id] asked for and whose score against
    the query's embedding is at least the threshold. *)
Theorem retrieve_relevant_scoped E (query uid : string) (limit : nat)
    (memory_type : option MemoryType) (score_threshold : Q) (w : world) :
  ∃ items : list MemoryItem,
    (retrieve_relevant E query uid limit memory_type score_threshold w).1 = Ok items ∧
    ∀ item, item ∈ items →
      ∃ (st : index_state) (rec : vector_record),
        index w = Some st ∧
        namespace_of NAMESPACE st !! mem_id item = Some rec ∧
        vec_metadata rec !! "user_id" = Some uid ∧
        (score_threshold <= similarity E (embed E (ticks w) query) (vec_values rec))%Q.
Proof.
  destruct w as [idx ctx cache lg n r c].
  unfold retrieve_relevant, collaborator, index_call. unfold_monad. simpl.
  destruct idx as [st|]; simpl;
    [| exists []; split; [done | intros ? H; by apply elem_of_nil in H]].
  destruct (bool_decide (query = "")); simpl;
    [exists []; split; [done | intros ? H; by apply elem_of_nil in H]|].
  destruct (fails E n); simpl;
    [exists []; split; [done | intros ? H; by apply elem_of_nil in H]|].
  destruct (decide (embed E n query = [])); simpl;
    [exists []; split; [done | intros ? H; by apply elem_of_nil in H]|].
  destruct (fails E (S n)); simpl;
    [exists []; split; [done | intros ? H; by apply elem_of_nil in H]|].
  match goal with
  | |- context [collect_memories E ?thr ?ms ?w0] =>
      destruct (collect_memories E thr ms w0) as [[items|e] w1] eqn:Hrun
  end; simpl;
    [| exists []; split; [done | intros ? H; by apply elem_of_nil in H]].
  exists items. split; [done|]. intros item Hin.
  destruct (collect_memories_sound _ _ _ _ _ _ Hrun item Hin) as (m & Hm & Hid & Hs).
  apply idx_query_sound in Hm as (rec & Hrec & Hmeta & Hscore & Hflt).
  exists st, rec. split; [done|]. rewrite Hid. split; [done|].
  split.
  - eapply filter_dict_user_id. exact Hflt.
  - rewrite <- Hscore. apply Qltb_false_le, Hs.
Qed.

(** ** The short-term buffer *)

Lemma update_short_term_context_buffer uid um am w :
  active_context (update_short_term_context uid um am w).2
  = <[uid := appended_buffer (default [] (active_context w !! uid)) um am]>
      (active_context w).
Proof.
  destruct w as [idx ctx cache lg n r c].
  unfold update_short_term_context, appended_buffer. simpl.
  destruct (ctx !! uid) as [old|] eqn:Hold; simpl.
  - rewrite !lookup_insert_eq, ?Hold. simpl.
    rewrite <- (assoc_L app). simpl.
    case_decide; rewrite !insert_insert_eq; reflexivity.
  - rewrite !lookup_insert_eq. simpl.
    rewrite !insert_insert_eq. reflexivity.
Qed.

Lemma appended_buffer_length old um am : length (appended_buffer old um am) ≤ 20.
Proof.
  unfold appended_buffer. simpl. case_decide as Hlen.
  - rewrite length_drop. lia.
  - lia.
Qed.

Lemma update_short_term_context_bounded uid um am w :
  buffers_bounded w →
  buffers_bounded (update_short_term_context uid um am w).2.
Proof.
  intros Hb uid' buf. rewrite update_short_term_context_buffer.
  destruct (decide (uid = uid')) as [->|Hne].
  - rewrite lookup_insert_eq. intros [= <-]. apply appended_buffer_length.
  - rewrite lookup_insert_ne by done. apply Hb.
Qed.

Lemma process_realtime_interaction_context E uid um am w :
  active_context (process_realtime_interaction E uid um am w).2
  = if bool_decide (um = "") || bool_decide (am = "")
    then active_context w
    else active_context (update_short_term_context uid um am w).2.
Proof.
  unfold process_realtime_interaction.
  destruct (bool_decide (um = "") || bool_decide (am = "")); [done|].
  unfold mbind at 1. unfold M_bind.
  destruct (update_short_term_context uid um am w) as [[[]|e] w1] eqn:Hstep;
    [| unfold update_short_term_context in Hstep; discriminate Hstep].
  simpl.
  assert (Hk : keeps active_context
            (try_except
               (analyze_profile_delta E uid um am ;; episodic_archival E uid um am)
               (λ _, logger ERROR "Real-time processing failed"))).
  { apply keeps_try_except.
    - apply keeps_bind; [apply analyze_profile_delta_keeps_context|].
      intros _. apply episodic_archival_keeps_context.
    - intros e. keeps_primitive. }
  apply Hk.
Qed.

Lemma process_realtime_interaction_bounded E uid um am w :
  buffers_bounded w →
  buffers_bounded (process_realtime_interaction E uid um am w).2.
Proof.
  intros Hb uid' buf. rewrite process_realtime_interaction_context.
  destruct (bool_decide (um = "") || bool_decide (am = "")).
  - apply Hb.
  - by apply update_short_term_context_bounded.
Qed.

Lemma run_interactions_bounded E calls w :
  buffers_bounded w → buffers_bounded (run_interactions E calls w).2.
Proof.
  revert w. induction calls as [|[[uid um] am] calls IH]; intros w Hb.
  - exact Hb.
  - unfold run_interactions. simpl. unfold mbind, M_bind.
    pose proof (process_realtime_interaction_bounded E uid um am w Hb) as Hb1.
    destruct (process_realtime_interaction E uid um am w) as [[[]|e] w1]; simpl in *.
    + apply IH, Hb1.
    + exact Hb1.
Qed.

(** C5. Starting from a manager with no short-term context, after any
    sequence of [process_realtime_interaction] calls the buffer held
    for any user has at most 20 entries. *)
Theorem short_term_buffer_at_most_20 E (calls : list (string * string * string))
    (w : world) (uid : string) (buf : list turn) :
  active_context w = ∅ →
  active_context (run_interactions E calls w).2 !! uid = Some buf →
  length buf ≤ 20.
Proof.
  intros Hempty. apply run_interactions_bounded.
  intros uid' buf'. rewrite Hempty, lookup_empty. discriminate.
Qed.

(** ** [clear_chat_history] *)

Lemma clear_chat_history_run E uid w :
  clear_chat_history E uid w =
  let w1 := set_active_context (delete uid (active_context w)) w in
  match index w with
  | None => (Ok false, w1)
  | Some st =>
      if fails E (ticks w)
      then (Ok false,
            push_log ERROR "Failed to clear episodic history" (count_raise (tick w1)))
      else (Ok true,
            set_index
              (Some (idx_delete_filter NAMESPACE
                       (<["user_id" := uid]> (<["type" := "episodic"]> ∅)) st))
              (tick w1))
  end.
Proof.
  destruct w as [idx ctx cache lg n r c].
  unfold clear_chat_history, drop_active_context, index_call. unfold_monad. simpl.
  destruct idx as [st|]; simpl; [|done].
  destruct (fails E n); done.
Qed.

(** C7. [clear_chat_history uid] returns a boolean, removes the
    short-term buffer of [uid] and no other, leaves every namespace
    but the memory store as it was (so the profile record stands),
    adds or alters no record, and keeps every record of the memory
    store that is not both of type episodic and tagged with [uid]; in
    particular every FACT record stays.  When it returns [True] the
    episodic records of [uid] are gone. *)
Theorem clear_chat_history_frame E (uid : string) (w : world) :
  let w' := (clear_chat_history E uid w).2 in
  (∃ b : bool, (clear_chat_history E uid w).1 = Ok b) ∧
  active_context w' = delete uid (active_context w) ∧
  (∀ ns, ns ≠ NAMESPACE → stored ns w' = stored ns w) ∧
  (∀ st' id rec,
     index w' = Some st' → namespace_of NAMESPACE st' !! id = Some rec →
     ∃ st, index w = Some st ∧ namespace_of NAMESPACE st !! id = Some rec) ∧
  (∀ st id rec,
     index w = Some st → namespace_of NAMESPACE st !! id = Some rec →
     ¬ (vec_metadata rec !! "user_id" = Some uid ∧
        vec_metadata rec !! "type" = Some "episodic") →
     ∃ st', index w' = Some st' ∧ namespace_of NAMESPACE st' !! id = Some rec) ∧
  (∀ st id rec,
     index w = Some st → namespace_of NAMESPACE st !! id = Some rec →
     vec_metadata rec !! "type" = Some (MemoryType_value FACT) →
     ∃ st', index w' = Some st' ∧ namespace_of NAMESPACE st' !! id = Some rec) ∧
  ((clear_chat_history E uid w).1 = Ok true →
   ∀ st' id rec,
     index w' = Some st' → namespace_of NAMESPACE st' !! id = Some rec →
     ¬ (vec_metadata rec !! "user_id" = Some uid ∧
        vec_metadata rec !! "type" = Some "episodic")).
Proof.
  intros w'. subst w'. rewrite clear_chat_history_run.
  destruct w as [idx ctx cache lg n r c]. simpl.
  assert (Hsurvive : ∀ (st : index_state) id rec,
    namespace_of NAMESPACE st !! id = Some rec →
    ¬ (vec_metadata rec !! "user_id" = Some uid ∧
       vec_metadata rec !! "type" = Some "episodic") →
    namespace_of NAMESPACE
      (idx_delete_filter NAMESPACE
         (<["user_id" := uid]> (<["type" := "episodic"]> ∅)) st) !! id = Some rec).
  { intros st id rec Hrec Hnot. apply idx_delete_filter_lookup. split; [done|].
    rewrite filter_matches_two by done. exact Hnot. }
  destruct idx as [st|]; simpl.
  - destruct (fails E n); simpl.
    + split; [by eexists|]. split; [done|]. split; [done|].
      split; [intros st' id rec [= <-] Hrec; eauto|].
      split; [intros st0 id rec [= <-] Hrec _; eauto|].
      split; [intros st0 id rec [= <-] Hrec _; eauto|].
      intros [=].
    + split; [by eexists|]. split; [done|].
      split.
      { intros ns Hns. unfold stored. simpl. f_equal.
        by apply idx_delete_filter_other. }
      split.
      { intros st' id rec [= <-] Hrec.
        apply idx_delete_filter_lookup in Hrec as [Hrec _]. eauto. }
      split.
      { intros st0 id rec [= <-] Hrec Hnot. eexists. split; [done|].
        by apply Hsurvive. }
      split.
      { intros st0 id rec [= <-] Hrec Hfact. eexists. split; [done|].
        apply Hsurvive; [done|]. intros [_ Hty]. rewrite Hfact in Hty.
        discriminate Hty. }
      intros _ st' id rec [= <-] Hrec.
      apply idx_delete_filter_lookup in Hrec as [_ Hnot].
      by rewrite filter_matches_two in Hnot.
  - split; [by eexists|]. split; [done|]. split; [done|].
    split; [intros st' id rec [=]|].
    split; [intros st0 id rec [=]|].
    split; [intros st0 id rec [=]|].
    intros [=].
Qed.

(** ** [get_profile] *)

Lemma get_profile_run E uid w :
  get_profile E uid w =
  match index w with
  | None => (Ok (default_profile E uid), w)
  | Some st =>
      if fails E (ticks w)
      then (Ok (default_profile E uid),
            push_log ERROR "Fetch profile error" (count_raise (tick w)))
      else
        match stored_profile_data E uid w with
        | Some d =>
            if decide (d = ∅) then (Ok (default_profile E uid), tick w)
            else
              match validated E d with
              | Some p => (Ok p, tick w)
              | None => (Ok (default_profile E uid),
                         push_log ERROR "Fetch profile error" (count_raise (tick w)))
              end
        | None => (Ok (default_profile E uid), tick w)
        end
  end.
Proof.
  destruct w as [idx ctx cache lg n r c].
  unfold get_profile, stored_profile_data, index_call, model_validate,
    _parse_fetch_response.
  unfold_monad. simpl.
  destruct idx as [st|]; simpl; [|done].
  destruct (fails E n); simpl; [done|].
  rewrite idx_fetch_one.
  destruct (namespace_of PROFILE_NAMESPACE st !! uid) as [rec|]; simpl; [|done].
  destruct (vec_metadata rec !! "profile_data") as [raw|]; simpl; [|done].
  destruct (safe_json_load E raw) as [d|]; simpl; [|done].
  destruct (decide (d = ∅)); simpl; [done|].
  destruct (validated E d); done.
Qed.

(** ** [reset_memory] *)

Lemma delete_profile_run E uid w :
  delete_profile E uid w = (Ok tt, delete_profile_outcome E uid w).
Proof.
  destruct w as [idx ctx cache lg n r c].
  unfold delete_profile, delete_profile_outcome, index_call. unfold_monad. simpl.
  destruct idx as [st|]; simpl; [|done].
  destruct (fails E n); done.
Qed.

Lemma reset_memory_run E uid w :
  reset_memory E uid w =
  let w1 := set_active_context (delete uid (active_context w)) w in
  let '(success, w2) := delete_user_vectors_outcome E uid w1 in
  (Ok success, clear_cache_outcome E (delete_profile_outcome E uid w2)).
Proof.
  destruct w as [idx ctx cache lg n r c].
  unfold reset_memory, drop_active_context, delete_user_vectors_outcome,
    clear_cache_outcome, clear_cache, delete_profile, delete_profile_outcome,
    index_call.
  unfold_monad. simpl.
  destruct idx as [st|]; simpl.
  - destruct (fails E n); simpl;
      destruct (fails E (S n)); simpl; destruct (fails E (S (S n))); done.
  - destruct (fails E n); done.
Qed.

Lemma reset_memory_total E uid : total (reset_memory E uid).
Proof.
  intros w. rewrite reset_memory_run. simpl.
  destruct (delete_user_vectors_outcome E uid _) as [b w2]. by exists b.
Qed.

Lemma namespaces_distinct : NAMESPACE ≠ PROFILE_NAMESPACE.
Proof. unfold NAMESPACE, PROFILE_NAMESPACE. discriminate. Qed.

Lemma idx_delete_ids_gone ns id st :
  namespace_of ns (idx_delete_ids ns [id] st) !! id = None.
Proof.
  destruct (namespace_of ns (idx_delete_ids ns [id] st) !! id) as [rec|] eqn:Hrec;
    [|done].
  apply idx_delete_ids_lookup in Hrec as [_ Hnot].
  exfalso. apply Hnot. by left.
Qed.

Lemma idx_delete_filter_user_gone uid st id rec :
  namespace_of NAMESPACE
    (idx_delete_filter NAMESPACE (<["user_id" := uid]> ∅) st) !! id = Some rec →
  vec_metadata rec !! "user_id" ≠ Some uid.
Proof.
  intros Hrec. apply idx_delete_filter_lookup in Hrec as [_ Hnot].
  by rewrite filter_matches_one in Hnot.
Qed.

(** C3.  [reset_memory] misses a failed deletion of the profile.  On a
    manager that holds the profile of alice, with the second
    collaborator call of [reset_memory] (the deletion of the profile
    record) raising, the failure is logged by [delete_profile], the
    record is still there, and [reset_memory] returns [True]: its
    success flag is cleared only by the deletion of the vectors.  On
    the same manager with the first call (the deletion of the
    vectors) raising instead, it returns [False]. *)
Lemma reset_memory_hides_profile_failure :
  fails (demo [2]) (S (ticks world_with_alice)) = true ∧
  (reset_memory (demo [2]) "alice" world_with_alice).1 = Ok true ∧
  (ERROR, "Failed to delete profile")
    ∈ log (reset_memory (demo [2]) "alice" world_with_alice).2 ∧
  stored_profile_data (demo [2]) "alice"
    (reset_memory (demo [2]) "alice" world_with_alice).2
  = Some (model_dump alice_high) ∧
  (reset_memory (demo [1]) "alice" world_with_alice).1 = Ok false.
Proof.
  split; [vm_compute; reflexivity|].
  split; [vm_compute; reflexivity|].
  split; [|split].
  - apply list_elem_of_In. vm_compute. tauto.
  - vm_compute. reflexivity.
  - vm_compute. reflexivity.
Qed.

(** ** [get_profile] after [reset_memory] *)

Lemma get_profile_default E uid w :
  stored_profile_data E uid w = None →
  (get_profile E uid w).1 = Ok (default_profile E uid).
Proof.
  intros Hnone. rewrite get_profile_run, Hnone.
  destruct (index w); [|done]. by destruct (fails E (ticks w)).
Qed.

Lemma stored_profile_data_absent E uid w :
  (∀ st, index w = Some st → namespace_of PROFILE_NAMESPACE st !! uid = None) →
  stored_profile_data E uid w = None.
Proof.
  intros Habs. unfold stored_profile_data.
  destruct (index w) as [st|]; simpl; [|done].
  by rewrite (Habs st eq_refl).
Qed.

Lemma reset_memory_profile_gone E uid w :
  index w = None ∨ fails E (S (ticks w)) = false →
  stored_profile_data E uid (reset_memory E uid w).2 = None.
Proof.
  intros Hok. apply stored_profile_data_absent. revert Hok.
  rewrite reset_memory_run.
  destruct w as [idx ctx cache lg n r c].
  unfold delete_user_vectors_outcome, clear_cache_outcome, delete_profile_outcome.
  simpl. destruct idx as [st|]; simpl.
  - intros [[=]|Hf1] st'.
    destruct (fails E n); simpl; rewrite Hf1; simpl;
      destruct (fails E (S (S n))); simpl; intros [= <-];
      apply idx_delete_ids_gone.
  - intros _ st'. by destruct (fails E n).
Qed.

(** C6 (as the code has it).  [get_profile uid] always returns a
    profile.  It is the profile of [uid] with the default preferences
    when there is no index, when the lookup raises, when the record is
    absent, when its [profile_data] does not parse, and when the
    parsed data is rejected by the schema.  After [reset_memory uid]
    it is that default profile provided the deletion of the profile
    record inside [reset_memory] did not raise. *)
Theorem get_profile_falls_back_to_default E (uid : string) (w : world) :
  (∃ p, (get_profile E uid w).1 = Ok p) ∧
  (index w = None → (get_profile E uid w).1 = Ok (default_profile E uid)) ∧
  (fails E (ticks w) = true → (get_profile E uid w).1 = Ok (default_profile E uid)) ∧
  ((∀ st, index w = Some st → namespace_of PROFILE_NAMESPACE st !! uid = None) →
   (get_profile E uid w).1 = Ok (default_profile E uid)) ∧
  (stored_profile_data E uid w = None →
   (get_profile E uid w).1 = Ok (default_profile E uid)) ∧
  (∀ d, stored_profile_data E uid w = Some d → validated E d = None →
   (get_profile E uid w).1 = Ok (default_profile E uid)) ∧
  (index w = None ∨ fails E (S (ticks w)) = false →
   ((reset_memory E uid ;; get_profile E uid) w).1 = Ok (default_profile E uid)).
Proof.
  split.
  { rewrite get_profile_run. destruct (index w); [|by eexists].
    destruct (fails E (ticks w)); [by eexists|].
    destruct (stored_profile_data E uid w) as [d|]; [|by eexists].
    destruct (decide (d = ∅)); [by eexists|].
    destruct (validated E d); by eexists. }
  split.
  { intros Hnone. rewrite get_profile_run, Hnone. done. }
  split.
  { intros Hf. rewrite get_profile_run, Hf. by destruct (index w). }
  split.
  { intros Habs. by apply get_profile_default, stored_profile_data_absent. }
  split.
  { apply get_profile_default. }
  split.
  { intros d Hd Hv. rewrite get_profile_run, Hd, Hv.
    destruct (index w); [|done]. destruct (fails E (ticks w)); [done|].
    by destruct (decide (d = ∅)). }
  intros Hok. unfold mbind, M_bind.
  pose proof (reset_memory_profile_gone E uid w Hok) as Hgone.
  destruct (reset_memory_total E uid w) as [b Hb].
  destruct (reset_memory E uid w) as [r w1]. simpl in *. subst r.
  by apply get_profile_default.
Qed.

(** C6 as stated fails in its last part: with the deletion of the
    profile record raising inside [reset_memory], the record stays and
    the next [get_profile] returns the stored preferences, which are
    not the defaults. *)
Lemma get_profile_after_failed_reset_not_default :
  ((reset_memory (demo [2]) "alice" ;; get_profile (demo [2]) "alice")
     world_with_alice).1 = Ok alice_high ∧
  alice_high ≠ default_profile (demo [2]) "alice".
Proof.
  split; [vm_compute; reflexivity|]. intros H. discriminate H.
Qed.

(** ** [process_realtime_interaction] *)

Lemma add_memory_total E text ty meta : total (add_memory E text ty meta).
Proof.
  unfold add_memory.
  repeat first
    [ apply total_mret | apply total_logger | apply total_index_present
    | apply total_bind; [| intros ?]
    | apply total_try_except; intros ?
    | progress cbv beta zeta
    | match goal with |- total (if ?b then _ else _) => destruct b end ].
Qed.

Lemma episodic_archival_total E uid um am : total (episodic_archival E uid um am).
Proof.
  unfold episodic_archival. case_decide; [|apply total_mret].
  apply total_bind; [apply add_memory_total | intros _; apply total_mret].
Qed.

(** The three steps, with the handler around the last two. *)
Lemma process_realtime_interaction_run E uid um am w :
  um ≠ "" → am ≠ "" →
  process_realtime_interaction E uid um am w =
  let w1 := (update_short_term_context uid um am w).2 in
  match analyze_profile_delta E uid um am w1 with
  | (Ok _, w2) => (Ok tt, (episodic_archival E uid um am w2).2)
  | (Raise _, w2) => (Ok tt, push_log ERROR "Real-time processing failed" w2)
  end.
Proof.
  intros Hu Ha. unfold process_realtime_interaction.
  rewrite !bool_decide_eq_false_2 by done. simpl.
  unfold mbind at 1. unfold M_bind. unfold update_short_term_context at 1.
  unfold try_except. unfold mbind at 1. unfold M_bind.
  fold (update_short_term_context uid um am w).
  destruct (analyze_profile_delta E uid um am _) as [[[]|e] w2]; [|done].
  destruct (episodic_archival_total E uid um am w2) as [[] Hok].
  destruct (episodic_archival E uid um am w2) as [r3 w3]. simpl in *.
  by subst r3.
Qed.

(** [len] counts characters, not bytes. *)
Lemma len_le_length s : len s ≤ String.length s.
Proof.
  induction s as [|c s IH]; simpl; [done|].
  destruct (continuation_byte c); lia.
Qed.

Lemma len_app s1 s2 : len (s1 +:+ s2) = len s1 + len s2.
Proof.
  induction s1 as [|c s1 IH]; simpl; [done|].
  rewrite IH. lia.
Qed.

Lemma len_wide_text :
  len wide_question = 20 ∧ String.length wide_question = 60 ∧
  len accented_question = 25 ∧ String.length accented_question = 26.
Proof. repeat split; vm_compute; reflexivity. Qed.

Lemma exchange_text_nonempty um am : exchange_text um am ≠ "".
Proof. unfold exchange_text. simpl. discriminate. Qed.

(** What step 3 does to the memory store. *)
Lemma episodic_archival_stored E uid um am w :
  stored NAMESPACE (episodic_archival E uid um am w).2 =
  if decide (long_exchange um am) then
    if fails E (ticks w) then stored NAMESPACE w
    else if decide (embed E (ticks w) (exchange_text um am) = []) then stored NAMESPACE w
    else if fails E (S (ticks w)) then stored NAMESPACE w
    else <[uuid4 E (S (ticks w)) := archive_record E uid um am (ticks w)]>
           <$> stored NAMESPACE w
  else stored NAMESPACE w.
Proof.
  unfold episodic_archival, long_exchange.
  destruct (decide (50 < len um + len am)); [|done].
  unfold mbind, M_bind. rewrite add_memory_tagged_run.
  rewrite (bool_decide_eq_false_2 _ (exchange_text_nonempty um am)).
  destruct w as [idx ctx cache lg n r c]. unfold stored. simpl.
  destruct idx as [st|]; simpl.
  - destruct (fails E n); simpl; [done|].
    destruct (decide (embed E n (exchange_text um am) = [])); simpl; [done|].
    destruct (fails E (S n)); simpl; [done|].
    by rewrite idx_upsert_one.
  - by repeat case_match.
Qed.

(** C9 (as the code has it).  For non-empty messages: every record
    found in the memory store after [process_realtime_interaction]
    was there before, unless the exchange is longer than 50
    characters and the record is the archived exchange, of type
    episodic and tagged with the user id; a shorter exchange leaves
    the memory store as it was.  A longer exchange is archived when
    the profile step ends without an exception, there is an index,
    the embedding is computed and not empty, and the upsert does not
    raise. *)
Theorem episodic_archival_threshold E (uid um am : string) (w : world) :
  um ≠ "" → am ≠ "" →
  let w' := (process_realtime_interaction E uid um am w).2 in
  (∀ m' id rec,
     stored NAMESPACE w' = Some m' → m' !! id = Some rec →
     (∃ m, stored NAMESPACE w = Some m ∧ m !! id = Some rec) ∨
     (long_exchange um am ∧
      vec_metadata rec !! "type" = Some (MemoryType_value EPISODIC) ∧
      vec_metadata rec !! "user_id" = Some uid ∧
      vec_metadata rec !! "text" = Some (exchange_text um am))) ∧
  (¬ long_exchange um am → stored NAMESPACE w' = stored NAMESPACE w) ∧
  (long_exchange um am →
   ∀ w2,
     analyze_profile_delta E uid um am (update_short_term_context uid um am w).2
       = (Ok tt, w2) →
     is_Some (index w) →
     fails E (ticks w2) = false →
     embed E (ticks w2) (exchange_text um am) ≠ [] →
     fails E (S (ticks w2)) = false →
     ∃ m', stored NAMESPACE w' = Some m' ∧
           m' !! uuid4 E (S (ticks w2)) = Some (archive_record E uid um am (ticks w2))).
Proof.
  intros Hu Ha w'. subst w'.
  rewrite (process_realtime_interaction_run E uid um am w Hu Ha). cbv zeta.
  set (w1 := (update_short_term_context uid um am w).2).
  assert (H1 : stored NAMESPACE w1 = stored NAMESPACE w) by done.
  pose proof (analyze_profile_delta_keeps_stored E NAMESPACE uid um am
                namespaces_distinct w1) as H2. simpl in H2.
  destruct (analyze_profile_delta E uid um am w1) as [[[]|e] w2] eqn:Hstep;
    simpl in H2; cbn [snd].
  - pose proof (episodic_archival_stored E uid um am w2) as H3.
    rewrite H2, H1 in H3.
    split; [|split].
    + intros m' id rec Hm' Hrec. rewrite H3 in Hm'.
      destruct (decide (long_exchange um am)) as [Hlong|];
        [|left; by exists m'].
      destruct (fails E (ticks w2)); [left; by exists m'|].
      destruct (decide (embed E (ticks w2) (exchange_text um am) = []));
        [left; by exists m'|].
      destruct (fails E (S (ticks w2))); [left; by exists m'|].
      destruct (stored NAMESPACE w) as [m|]; simpl in Hm'; [|done].
      injection Hm' as <-.
      apply lookup_insert_Some in Hrec as [[_ <-]|[_ Hrec]].
      * right. split; [done|]. unfold archive_record. simpl.
        apply pinecone_meta_tagged.
      * left. by exists m.
    + intros Hshort. rewrite H3. by rewrite decide_False.
    + intros Hlong w2' [= <-] [st Hst] Hf0 Hemb Hf1.
      rewrite H3, decide_True, Hf0, decide_False, Hf1 by done.
      unfold stored. rewrite Hst. simpl. eexists. split; [done|].
      by rewrite lookup_insert_eq.
  - assert (H3 : stored NAMESPACE (push_log ERROR "Real-time processing failed" w2)
                 = stored NAMESPACE w) by (by rewrite <- H1, <- H2).
    split; [|split].
    + intros m' id rec Hm' Hrec. left. exists m'. by rewrite <- H3.
    + done.
    + intros _ w2' [=].
Qed.

(** *** Best effort *)

Lemma balanced_add_memory_tagged E text ty uid :
  balanced (add_memory E text ty (Some (<["user_id" := uid]> ∅))).
Proof.
  intros w. rewrite add_memory_tagged_run.
  destruct w as [idx ctx cache lg n r c]. simpl.
  destruct idx as [st|]; simpl; [|lia].
  destruct (bool_decide (text = "")); simpl; [lia|].
  destruct (fails E n); simpl.
  { rewrite errors_logged_push_log. unfold errors_logged. simpl. lia. }
  destruct (decide (embed E n text = [])); simpl; [unfold errors_logged; simpl; lia|].
  destruct (fails E (S n)); simpl.
  { rewrite errors_logged_push_log. unfold errors_logged. simpl. lia. }
  unfold errors_logged. simpl. lia.
Qed.

Lemma balanced_episodic_archival E uid um am :
  balanced (episodic_archival E uid um am).
Proof.
  unfold episodic_archival. case_decide; [|apply balanced_mret].
  apply balanced_bind; [apply balanced_add_memory_tagged|].
  intros _. apply balanced_mret.
Qed.

Lemma balanced_update_short_term_context uid um am :
  balanced (update_short_term_context uid um am).
Proof.
  intros [idx ctx cache lg n r c]. unfold update_short_term_context, errors_logged.
  simpl. lia.
Qed.

Lemma balanced_process_realtime_interaction E uid um am :
  balanced (process_realtime_interaction E uid um am).
Proof.
  unfold process_realtime_interaction.
  destruct (bool_decide (um = "") || bool_decide (am = "")); [apply balanced_mret|].
  apply balanced_bind; [apply balanced_update_short_term_context|]. intros _.
  apply balanced_try_except; [|intros e; apply settles_logger_error].
  apply balanced_bind; [apply balanced_analyze_profile_delta|]. intros _.
  apply balanced_episodic_archival.
Qed.

Lemma process_realtime_interaction_total E uid um am :
  total (process_realtime_interaction E uid um am).
Proof.
  unfold process_realtime_interaction.
  destruct (bool_decide (um = "") || bool_decide (am = "")); [apply total_mret|].
  apply total_bind; [by eexists|]. intros _.
  apply total_try_except. intros e. apply total_logger.
Qed.

(** C8. [process_realtime_interaction] never lets an exception reach
    its caller, and every exception raised while it runs is logged as
    an ERROR record.  A failure in a later step leaves what the
    earlier steps did: the buffer is the one step 1 produced whatever
    happens in steps 2 and 3, and the profile namespace is the one
    step 2 left whatever happens in step 3. *)
Theorem process_realtime_interaction_best_effort E (uid um am : string) (w : world) :
  (process_realtime_interaction E uid um am w).1 = Ok tt ∧
  raised (process_realtime_interaction E uid um am w).2 + errors_logged w
    = raised w + errors_logged (process_realtime_interaction E uid um am w).2 ∧
  (um ≠ "" → am ≠ "" →
   active_context (process_realtime_interaction E uid um am w).2
     = active_context (update_short_term_context uid um am w).2 ∧
   stored PROFILE_NAMESPACE (process_realtime_interaction E uid um am w).2
     = stored PROFILE_NAMESPACE
         (analyze_profile_delta E uid um am
            (update_short_term_context uid um am w).2).2).
Proof.
  destruct (process_realtime_interaction_total E uid um am w) as [[] Hok].
  split; [exact Hok|]. split.
  { pose proof (balanced_process_realtime_interaction E uid um am w) as Hb.
    rewrite Hok in Hb. simpl in Hb. lia. }
  intros Hu Ha. split.
  { rewrite process_realtime_interaction_context.
    by rewrite !bool_decide_eq_false_2 by done. }
  rewrite (process_realtime_interaction_run E uid um am w Hu Ha). cbv zeta.
  destruct (analyze_profile_delta E uid um am _) as [[[]|e] w2]; cbn [snd].
  - apply (episodic_archival_keeps_stored E PROFILE_NAMESPACE uid um am).
    intros H. by apply namespaces_distinct.
  - reflexivity.
Qed.

(** ** [consolidate_session] *)

(** C10. When the history is empty, or the summarizer extracts no key
    facts from it (or fails), [consolidate_session] returns normally
    and leaves the index exactly as it was: no stored fact is deleted
    and none is inserted. *)
Theorem consolidate_session_without_facts E (uid : string)
    (conversation_history : list string) (w : world) :
  conversation_history = [] ∨
  summarize E (ticks w) conversation_history = [] ∨
  fails E (ticks w) = true →
  (consolidate_session E uid conversation_history w).1 = Ok tt ∧
  index (consolidate_session E uid conversation_history w).2 = index w.
Proof.
  intros Hcase. unfold consolidate_session.
  destruct (decide (conversation_history = [])) as [|Hne]; [done|].
  destruct Hcase as [?|Hcase]; [done|].
  destruct w as [idx ctx cache lg n r c]. simpl in Hcase.
  unfold collaborator. unfold_monad. simpl.
  destruct (fails E n) eqn:Hf; simpl; [done|].
  destruct Hcase as [Hnone|[=]]. rewrite Hnone. simpl. done.
Qed.

(** * The theorems at concrete inputs *)

Lemma add_memory_rejects_missing_user_id_witness :
  FACT ∈ [FACT; EPISODIC] ∧
  default ∅ (Some (<["topic" := "bonds"]> (∅ : gmap string string))) !! "user_id" = None ∧
  (add_memory (demo []) "likes bonds" FACT
     (Some (<["topic" := "bonds"]> ∅)) two_user_world).1 = Ok None ∧
  index (add_memory (demo []) "likes bonds" FACT
           (Some (<["topic" := "bonds"]> ∅)) two_user_world).2
    = index two_user_world.
Proof.
  assert (H1 : FACT ∈ [FACT; EPISODIC]) by (by left).
  assert (H2 : default ∅ (Some (<["topic" := "bonds"]> (∅ : gmap string string)))
               !! "user_id" = None) by (vm_compute; reflexivity).
  destruct (add_memory_rejects_missing_user_id (demo []) "likes bonds" FACT
              (Some (<["topic" := "bonds"]> ∅)) two_user_world H1 H2)
    as (Hres & Hidx & _).
  split; [exact H1|]. split; [exact H2|]. split; [exact Hres | exact Hidx].
Defined.

Lemma retrieve_relevant_scoped_witness :
  (retrieve_relevant (demo []) "bonds" "alice" 5 None (7 # 10) two_user_world).1
    = Ok [Memory "m3" "hello" EPISODIC "" ∅; Memory "m1" "likes bonds" FACT "" ∅] ∧
  ∃ (st : index_state) (rec : vector_record),
    index two_user_world = Some st ∧
    namespace_of NAMESPACE st !! "m1" = Some rec ∧
    vec_metadata rec !! "user_id" = Some "alice" ∧
    (7 # 10 <= similarity (demo []) (embed (demo []) (ticks two_user_world) "bonds")
                 (vec_values rec))%Q.
Proof.
  assert (Hrun :
    (retrieve_relevant (demo []) "bonds" "alice" 5 None (7 # 10) two_user_world).1
    = Ok [Memory "m3" "hello" EPISODIC "" ∅; Memory "m1" "likes bonds" FACT "" ∅])
    by (vm_compute; reflexivity).
  split; [exact Hrun|].
  destruct (retrieve_relevant_scoped (demo []) "bonds" "alice" 5 None (7 # 10)
              two_user_world) as (items & Hres & Hall).
  rewrite Hrun in Hres. injection Hres as <-.
  apply (Hall (Memory "m1" "likes bonds" FACT "" ∅)).
  right. left.
Defined.

Lemma sync_if_changed_writes_iff_differ_witness :
  profiles_differ alice_high alice_low ∧
  (sync_if_changed (demo []) alice_high alice_low world_with_alice).1 = Ok true ∧
  update_profile_calls
    (sync_if_changed (demo []) alice_high alice_low world_with_alice).2
  = update_profile_calls world_with_alice + 1.
Proof.
  assert (Hd : profiles_differ alice_high alice_low)
    by (right; left; simpl; discriminate).
  destruct (sync_if_changed_writes_iff_differ (demo []) alice_high alice_low
              world_with_alice) as (b & Hres & Hiff & Hcalls & _).
  apply Hiff in Hd as Hb. subst b.
  split; [exact Hd|]. split; [exact Hres | exact Hcalls].
Defined.

Lemma short_term_buffer_at_most_20_witness :
  active_context (fresh_manager (Some ∅)) = ∅ ∧
  ∃ buf,
    active_context
      (run_interactions (demo [])
         (replicate 12 ("alice", "hello", "hi there"))
         (fresh_manager (Some ∅))).2 !! "alice" = Some buf ∧
    length buf ≤ 20.
Proof.
  split; [reflexivity|]. eexists. split.
  - vm_compute. reflexivity.
  - apply (short_term_buffer_at_most_20 (demo [])
             (replicate 12 ("alice", "hello", "hi there"))
             (fresh_manager (Some ∅)) "alice").
    + reflexivity.
    + vm_compute. reflexivity.
Defined.

Lemma get_profile_falls_back_to_default_witness :
  ((reset_memory (demo []) "alice" ;; get_profile (demo []) "alice")
     world_with_alice).1 = Ok (default_profile (demo []) "alice").
Proof.
  destruct (get_profile_falls_back_to_default (demo []) "alice" world_with_alice)
    as (_ & _ & _ & _ & _ & _ & Hreset).
  apply Hreset. right. vm_compute. reflexivity.
Defined.

Lemma clear_chat_history_frame_witness :
  (clear_chat_history (demo []) "alice" two_user_world).1 = Ok true ∧
  ∃ st' rec,
    index (clear_chat_history (demo []) "alice" two_user_world).2 = Some st' ∧
    namespace_of NAMESPACE st' !! "m1" = Some rec.
Proof.
  split; [vm_compute; reflexivity|].
  destruct (clear_chat_history_frame (demo []) "alice" two_user_world)
    as (_ & _ & _ & _ & _ & Hfact & _).
  destruct (Hfact two_user_index "m1"
              (VectorRecord [1%Q]
                 (<["user_id" := "alice"]>
                    (<["type" := "fact"]> (<["text" := "likes bonds"]> ∅)))))
    as (st' & Hst' & Hrec).
  - reflexivity.
  - vm_compute. reflexivity.
  - vm_compute. reflexivity.
  - exists st'. eexists. split; [exact Hst' | exact Hrec].
Defined.

Lemma process_realtime_interaction_best_effort_witness :
  long_question ≠ "" ∧ long_answer ≠ "" ∧
  (process_realtime_interaction (demo [1]) "alice" long_question long_answer
     (fresh_manager (Some ∅))).1 = Ok tt ∧
  active_context
    (process_realtime_interaction (demo [1]) "alice" long_question long_answer
       (fresh_manager (Some ∅))).2
  = active_context
      (update_short_term_context "alice" long_question long_answer
         (fresh_manager (Some ∅))).2.
Proof.
  assert (H1 : long_question ≠ "") by discriminate.
  assert (H2 : long_answer ≠ "") by discriminate.
  destruct (process_realtime_interaction_best_effort (demo [1]) "alice"
              long_question long_answer (fresh_manager (Some ∅)))
    as (Hok & _ & Hsteps).
  destruct (Hsteps H1 H2) as [Hctx _].
  split; [exact H1|]. split; [exact H2|]. split; [exact Hok | exact Hctx].
Defined.

Lemma episodic_archival_threshold_witness :
  long_question ≠ "" ∧ long_answer ≠ "" ∧
  long_exchange long_question long_answer ∧
  (∃ m',
    stored NAMESPACE
      (process_realtime_interaction (demo []) "alice" long_question long_answer
         (fresh_manager (Some ∅))).2 = Some m' ∧
    m' !! uuid4 (demo []) (S (ticks world_after_delta))
      = Some (archive_record (demo []) "alice" long_question long_answer
                (ticks world_after_delta))) ∧
  ¬ long_exchange wide_question wide_answer ∧
  stored NAMESPACE
    (process_realtime_interaction (demo []) "alice" wide_question wide_answer
       (fresh_manager (Some ∅))).2
  = stored NAMESPACE (fresh_manager (Some ∅)) ∧
  ¬ long_exchange accented_question accented_answer ∧
  stored NAMESPACE
    (process_realtime_interaction (demo []) "alice" accented_question
       accented_answer (fresh_manager (Some ∅))).2
  = stored NAMESPACE (fresh_manager (Some ∅)).
Proof.
  assert (H1 : long_question ≠ "") by discriminate.
  assert (H2 : long_answer ≠ "") by discriminate.
  assert (H3 : long_exchange long_question long_answer)
    by (unfold long_exchange; vm_compute; lia).
  assert (H4 : ¬ long_exchange wide_question wide_answer)
    by (unfold long_exchange; vm_compute; lia).
  assert (H5 : ¬ long_exchange accented_question accented_answer)
    by (unfold long_exchange; vm_compute; lia).
  destruct (episodic_archival_threshold (demo []) "alice" long_question long_answer
              (fresh_manager (Some ∅)) H1 H2) as (_ & _ & Harch).
  split; [exact H1|]. split; [exact H2|]. split; [exact H3|].
  split; [|split; [exact H4|split; [|split; [exact H5|]]]].
  - apply (Harch H3 world_after_delta).
    + vm_compute. reflexivity.
    + vm_compute. eauto.
    + vm_compute. reflexivity.
    + vm_compute. discriminate.
    + vm_compute. reflexivity.
  - destruct (episodic_archival_threshold (demo []) "alice" wide_question
                wide_answer (fresh_manager (Some ∅))) as (_ & Hshort & _);
      [discriminate | discriminate |].
    exact (Hshort H4).
  - destruct (episodic_archival_threshold (demo []) "alice" accented_question
                accented_answer (fresh_manager (Some ∅))) as (_ & Hshort & _);
      [discriminate | discriminate |].
    exact (Hshort H5).
Defined.

(** C9 as stated fails: an exchange of 100 characters, on a manager
    with an empty index, with the upsert of [add_memory] (the fourth
    collaborator call) raising: the failure is logged and the memory
    store is still empty. *)
Lemma long_exchange_not_archived_when_upsert_fails :
  long_question ≠ "" ∧ long_answer ≠ "" ∧
  long_exchange long_question long_answer ∧
  stored NAMESPACE
    (process_realtime_interaction (demo [3]) "alice" long_question long_answer
       (fresh_manager (Some ∅))).2 = Some ∅ ∧
  log (process_realtime_interaction (demo [3]) "alice" long_question long_answer
         (fresh_manager (Some ∅))).2 = [(ERROR, "Upsert failed")].
Proof.
  split; [discriminate|]. split; [discriminate|].
  split; [unfold long_exchange; vm_compute; lia|].
  split; vm_compute; reflexivity.
Qed.

Lemma consolidate_session_without_facts_witness :
  summarize (demo []) (ticks two_user_world) ["ok"; "thanks"] = [] ∧
  (consolidate_session (demo []) "alice" ["ok"; "thanks"] two_user_world).1 = Ok tt ∧
  index (consolidate_session (demo []) "alice" ["ok"; "thanks"] two_user_world).2
    = index two_user_world.
Proof.
  assert (H : summarize (demo []) (ticks two_user_world) ["ok"; "thanks"] = [])
    by (vm_compute; reflexivity).
  split; [exact H|].
  apply (consolidate_session_without_facts (demo []) "alice" ["ok"; "thanks"]
           two_user_world).
  right. left. exact H.
Defined.

(** * Further properties *)

(** ** The profile store *)

Lemma of_value_value_risk r : risk_of_value (risk_value r) = Some r.
Proof. by destruct r. Qed.

Lemma of_value_value_depth d : depth_of_value (depth_value d) = Some d.
Proof. by destruct d. Qed.

Lemma of_value_value_style s : style_of_value (style_value s) = Some s.
Proof. by destruct s. Qed.

(** The schema accepts every dictionary it dumped, and reads the same
    profile back. *)
Lemma validated_model_dump E p : validated E (model_dump p) = Some p.
Proof.
  unfold validated.
  rewrite model_dump_lookup_user_id, model_dump_lookup_risk,
    model_dump_lookup_depth, model_dump_lookup_style. simpl.
  rewrite of_value_value_risk, of_value_value_depth, of_value_value_style.
  by destruct p.
Qed.

Lemma model_dump_nonempty p : model_dump p ≠ ∅.
Proof.
  intros H. pose proof (model_dump_lookup_user_id p) as Hu.
  rewrite H, lookup_empty in Hu. discriminate Hu.
Qed.

Lemma update_profile_run E p w :
  update_profile E p w =
  match index w with
  | None => (Ok tt, count_update_profile w)
  | Some st =>
      if fails E (ticks w)
      then (Ok tt, push_log ERROR "Update profile error"
                     (count_raise (tick (count_update_profile w))))
      else (Ok tt,
            set_index
              (Some (idx_upsert PROFILE_NAMESPACE
                       [UpsertItem (user_id p) (profile_placeholder E)
                          (vec_metadata (profile_record E p))] st))
              (tick (count_update_profile w)))
  end.
Proof.
  destruct w as [idx ctx cache lg n r c].
  unfold update_profile, enter_update_profile, index_call, profile_record,
    profile_placeholder.
  unfold_monad. simpl. destruct idx as [st|]; simpl; [|done].
  destruct (fails E n); done.
Qed.

Lemma profile_record_of_update E p st w :
  profile_record_of (user_id p)
    (set_index
       (Some (idx_upsert PROFILE_NAMESPACE
                [UpsertItem (user_id p) (profile_placeholder E)
                   (vec_metadata (profile_record E p))] st)) w)
  = Some (profile_record E p).
Proof.
  unfold profile_record_of, stored. simpl.
  rewrite idx_upsert_one. by rewrite lookup_insert_eq.
Qed.

(** X1. Round trip of a profile: on an index that is there and does
    not fail on the two calls, and with a codec that reads back the
    dictionary of the profile, [get_profile] after [update_profile]
    returns the profile that was written. *)
Theorem update_profile_then_get_profile E (p : UserProfileSchema) (w : world) :
  is_Some (index w) →
  fails E (ticks w) = false →
  fails E (S (ticks w)) = false →
  codec_round_trip E (model_dump p) →
  ((update_profile E p ;; get_profile E (user_id p)) w).1 = Ok p.
Proof.
  intros [st Hst] Hf0 Hf1 Hcodec.
  unfold mbind at 1. unfold M_bind. rewrite update_profile_run, Hst, Hf0.
  rewrite get_profile_run. simpl. rewrite Hf1.
  unfold stored_profile_data. simpl.
  rewrite idx_upsert_one, lookup_insert_eq. simpl.
  rewrite lookup_insert_eq. simpl.
  unfold model_dump_json. rewrite Hcodec.
  rewrite decide_False by apply model_dump_nonempty.
  by rewrite validated_model_dump.
Qed.

(** ** [check_user_status] *)

Lemma check_user_status_run E uid w :
  check_user_status E uid w =
  match index w with
  | None => (Ok "new", push_log INFO "Local Mode: Treating user as 'new'" w)
  | Some st =>
      if fails E (ticks w)
      then (Ok "new",
            push_log ERROR "Error checking user status" (count_raise (tick w)))
      else
        match namespace_of PROFILE_NAMESPACE st !! uid with
        | Some _ => (Ok "old", push_log INFO "User identified as 'old'" (tick w))
        | None => (Ok "new", push_log INFO "User identified as 'new'" (tick w))
        end
  end.
Proof.
  destruct w as [idx ctx cache lg n r c].
  unfold check_user_status, index_call, _parse_fetch_response.
  unfold_monad. simpl. destruct idx as [st|]; simpl; [|done].
  destruct (fails E n); simpl; [done|].
  rewrite idx_fetch_one.
  by destruct (namespace_of PROFILE_NAMESPACE st !! uid).
Qed.

(** X2. [check_user_status] never raises, answers "old" or "new",
    and changes neither the index nor the short-term context.  It
    answers "old" exactly when there is an index, the lookup does not
    fail and a record is stored under the id in the profile
    namespace: every failure is read as "new". *)
Theorem check_user_status_old_iff_stored E (uid : string) (w : world) :
  ∃ status : string,
    (check_user_status E uid w).1 = Ok status ∧
    (status = "old" ∨ status = "new") ∧
    (status = "old" ↔
       fails E (ticks w) = false ∧ is_Some (profile_record_of uid w)) ∧
    index (check_user_status E uid w).2 = index w ∧
    active_context (check_user_status E uid w).2 = active_context w.
Proof.
  rewrite check_user_status_run. unfold profile_record_of, stored.
  destruct w as [idx ctx cache lg n r c]. simpl.
  destruct idx as [st|]; simpl.
  - destruct (fails E n) eqn:Hf; simpl.
    + exists "new". split; [done|]. split; [by right|]. split; [|done].
      split; [discriminate | intros [[=] _]].
    + destruct (namespace_of PROFILE_NAMESPACE st !! uid) as [rec|] eqn:Hrec; simpl.
      * exists "old". split; [done|]. split; [by left|]. split; [|done].
        split; [by eauto | done].
      * exists "new". split; [done|]. split; [by right|]. split; [|done].
        split; [discriminate | intros [_ [? [=]]]].
  - exists "new". split; [done|]. split; [by right|]. split; [|done].
    split; [discriminate | intros [_ [? [=]]]].
Qed.

Lemma delete_profile_outcome_gone E uid w :
  fails E (ticks w) = false →
  profile_record_of uid (delete_profile_outcome E uid w) = None.
Proof.
  intros Hf. unfold delete_profile_outcome, profile_record_of, stored.
  destruct w as [idx ctx cache lg n r c]. simpl in *.
  destruct idx as [st|]; simpl; [|done]. rewrite Hf. simpl.
  apply idx_delete_ids_gone.
Qed.

Lemma check_user_status_new_when_absent E uid w :
  profile_record_of uid w = None → (check_user_status E uid w).1 = Ok "new".
Proof.
  rewrite check_user_status_run. unfold profile_record_of, stored.
  destruct (index w) as [st|]; simpl; [|done].
  intros ->. by destruct (fails E (ticks w)).
Qed.

(** X3. The life of a profile as the login flow sees it.  After an
    [update_profile] whose upsert went through, [check_user_status]
    answers "old" for the profile's user, provided its own lookup
    does not fail; after a [delete_profile] whose call did not fail
    it answers "new", whatever its own lookup does. *)
Theorem profile_lifecycle_status E (p : UserProfileSchema) (uid : string) (w : world) :
  (is_Some (index w) → fails E (ticks w) = false → fails E (S (ticks w)) = false →
   ((update_profile E p ;; check_user_status E (user_id p)) w).1 = Ok "old") ∧
  (fails E (ticks w) = false →
   ((delete_profile E uid ;; check_user_status E uid) w).1 = Ok "new").
Proof.
  split.
  - intros [st Hst] Hf0 Hf1. unfold mbind at 1. unfold M_bind.
    rewrite update_profile_run, Hst, Hf0. rewrite check_user_status_run. simpl.
    rewrite Hf1. rewrite idx_upsert_one, lookup_insert_eq. done.
  - intros Hf0. unfold mbind at 1. unfold M_bind. rewrite delete_profile_run.
    apply check_user_status_new_when_absent.
    by apply delete_profile_outcome_gone.
Qed.

(** ** What the writes of the store touch *)

Lemma idx_delete_ids_lookup_other ns uid other st :
  other ≠ uid →
  namespace_of ns (idx_delete_ids ns [uid] st) !! other = namespace_of ns st !! other.
Proof.
  intros Hne.
  destruct (namespace_of ns st !! other) as [rec|] eqn:Hrec.
  - apply idx_delete_ids_lookup. split; [done|].
    intros Hin. apply list_elem_of_singleton in Hin. done.
  - destruct (namespace_of ns (idx_delete_ids ns [uid] st) !! other) eqn:Hd; [|done].
    apply idx_delete_ids_lookup in Hd as [Hd _]. congruence.
Qed.

(** X4. [delete_profile uid] never raises and touches nothing but the
    profile record of [uid]: the short-term context, every other
    namespace and every other user's profile record are as before,
    and the record of [uid] is either as before or gone.  It is gone
    whenever the call to the index did not fail. *)
Theorem delete_profile_frame E (uid : string) (w : world) :
  (delete_profile E uid w).1 = Ok tt ∧
  active_context (delete_profile E uid w).2 = active_context w ∧
  (∀ ns, ns ≠ PROFILE_NAMESPACE →
     stored ns (delete_profile E uid w).2 = stored ns w) ∧
  (∀ other, other ≠ uid →
     profile_record_of other (delete_profile E uid w).2 = profile_record_of other w) ∧
  (profile_record_of uid (delete_profile E uid w).2 = profile_record_of uid w ∨
   profile_record_of uid (delete_profile E uid w).2 = None) ∧
  (fails E (ticks w) = false →
   profile_record_of uid (delete_profile E uid w).2 = None).
Proof.
  rewrite delete_profile_run. simpl.
  split; [done|].
  pose proof (delete_profile_outcome_gone E uid w) as Hgone.
  unfold delete_profile_outcome in *.
  destruct w as [idx ctx cache lg n r c]. simpl in *.
  destruct idx as [st|]; simpl in *.
  - destruct (fails E n) eqn:Hf; simpl in *.
    + split; [done|]. split; [done|]. split; [done|]. split; [by left|].
      intros [=].
    + split; [done|]. split.
      { intros ns Hns. unfold stored. simpl. f_equal.
        by apply idx_delete_ids_other. }
      split.
      { intros other Hne. unfold profile_record_of, stored. simpl.
        by apply idx_delete_ids_lookup_other. }
      split; [right; by apply Hgone | done].
  - split; [done|]. split; [done|]. split; [done|]. split; [by left | done].
Qed.

Lemma profile_placeholder_length E :
  length (profile_placeholder E) = EMBEDDING_DIMENSION E.
Proof. unfold profile_placeholder. by rewrite length_insert, length_replicate. Qed.

Lemma profile_placeholder_first E :
  0 < EMBEDDING_DIMENSION E → profile_placeholder E !! 0 = Some 1%Q.
Proof.
  intros Hdim. unfold profile_placeholder.
  apply list_lookup_insert_eq. by rewrite length_replicate.
Qed.

(** X5. [update_profile p] never raises and writes at most one record,
    the one kept under the user id of [p] in the profile namespace:
    the short-term context, every other namespace and every other
    user's profile record are as before.  When there is an index and
    the upsert does not fail, the record holds the serialised profile
    under [profile_data], the type [user_profile], and a placeholder
    vector of the configured dimension whose first component is 1, so
    it is not the zero vector. *)
Theorem update_profile_writes_one_record E (p : UserProfileSchema) (w : world) :
  (update_profile E p w).1 = Ok tt ∧
  active_context (update_profile E p w).2 = active_context w ∧
  (∀ ns, ns ≠ PROFILE_NAMESPACE →
     stored ns (update_profile E p w).2 = stored ns w) ∧
  (∀ other, other ≠ user_id p →
     profile_record_of other (update_profile E p w).2 = profile_record_of other w) ∧
  (is_Some (index w) → fails E (ticks w) = false →
   ∃ rec,
     profile_record_of (user_id p) (update_profile E p w).2 = Some rec ∧
     vec_metadata rec !! "profile_data" = Some (json_dumps E (model_dump p)) ∧
     vec_metadata rec !! "type" = Some "user_profile" ∧
     length (vec_values rec) = EMBEDDING_DIMENSION E ∧
     (0 < EMBEDDING_DIMENSION E → vec_values rec !! 0 = Some 1%Q)).
Proof.
  rewrite update_profile_run.
  destruct w as [idx ctx cache lg n r c]. simpl.
  destruct idx as [st|]; simpl.
  - destruct (fails E n) eqn:Hf; simpl.
    + split; [done|]. split; [done|]. split; [done|]. split; [done|].
      intros _ [=].
    + split; [done|]. split; [done|]. split.
      { intros ns Hns. unfold stored. simpl. f_equal. by apply idx_upsert_other. }
      split.
      { intros other Hne. unfold profile_record_of, stored. simpl.
        rewrite idx_upsert_one. by rewrite lookup_insert_ne. }
      intros _ _. exists (profile_record E p).
      split; [apply profile_record_of_update|].
      split; [by simplify_map_eq|]. split; [by simplify_map_eq|].
      split; [apply profile_placeholder_length | apply profile_placeholder_first].
  - split; [done|]. split; [done|]. split; [done|]. split; [done|].
    intros [? [=]].
Qed.

(** ** The rendered context *)

Lemma slice_from_last {A} (k : Z) (l : list A) :
  (1 ≤ k)%Z → slice_from (- k) l = drop (length l - Z.to_nat k) l.
Proof.
  intros Hk. unfold slice_from.
  destruct (- k <? 0)%Z eqn:Hneg; [|apply Z.ltb_ge in Hneg; lia].
  f_equal. lia.
Qed.

Lemma slice_from_zero {A} (l : list A) : slice_from (- 0) l = l.
Proof. unfold slice_from. simpl. by rewrite Z.min_r by lia. Qed.

Lemma get_immediate_context_run uid ws w :
  get_immediate_context uid ws w =
  (Ok (if decide (default [] (active_context w !! uid) = []) then ""
       else join newline
              (format_turn <$> slice_from (- ws) (default [] (active_context w !! uid)))),
   w).
Proof.
  unfold get_immediate_context. unfold_monad.
  by destruct (decide (default [] (active_context w !! uid) = [])).
Qed.

(** X6. [get_immediate_context] changes nothing and renders the empty
    string for a user without history.  For a window of [k >= 1] it
    renders the last [k] turns of the buffer (all of them when there
    are fewer); for a window of 0 the slice [history[-0:]] is the
    whole list, so it renders every turn of the buffer. *)
Theorem get_immediate_context_window (uid : string) (window_size : Z) (w : world) :
  (get_immediate_context uid window_size w).2 = w ∧
  (default [] (active_context w !! uid) = [] →
   (get_immediate_context uid window_size w).1 = Ok "") ∧
  ((1 ≤ window_size)%Z →
   (get_immediate_context uid window_size w).1
   = Ok (join newline
           (format_turn <$>
              drop (length (default [] (active_context w !! uid)) - Z.to_nat window_size)
                   (default [] (active_context w !! uid))))) ∧
  (window_size = 0%Z →
   (get_immediate_context uid window_size w).1
   = Ok (join newline (format_turn <$> default [] (active_context w !! uid)))).
Proof.
  rewrite get_immediate_context_run. simpl.
  split; [done|]. split; [|split].
  - intros ->. done.
  - intros Hk. destruct (decide (default [] (active_context w !! uid) = [])) as [->|].
    + done.
    + by rewrite slice_from_last.
  - intros ->. destruct (decide (default [] (active_context w !! uid) = [])) as [->|].
    + done.
    + by rewrite slice_from_zero.
Qed.

Lemma appended_buffer_last_two old um am :
  drop (length (appended_buffer old um am) - 2) (appended_buffer old um am)
  = [Turn "user" um; Turn "agent" am].
Proof.
  unfold appended_buffer. cbv zeta.
  set (buf := (old ++ [Turn "user" um; Turn "agent" am])%list).
  assert (Hlen : length buf = length old + 2)
    by (unfold buf; rewrite length_app; simpl; lia).
  assert (Hlast : drop (length buf - 2) buf = [Turn "user" um; Turn "agent" am]).
  { unfold buf at 2. apply drop_app_length'. lia. }
  case_decide.
  - rewrite length_drop, drop_drop. rewrite <- Hlast. f_equal. lia.
  - exact Hlast.
Qed.

Lemma appended_buffer_nonempty old um am : appended_buffer old um am ≠ [].
Proof.
  intros H. pose proof (appended_buffer_last_two old um am) as Hl.
  rewrite H in Hl. discriminate Hl.
Qed.

Lemma process_realtime_interaction_buffer E uid um am w :
  um ≠ "" → am ≠ "" →
  active_context (process_realtime_interaction E uid um am w).2
  = <[uid := appended_buffer (default [] (active_context w !! uid)) um am]>
      (active_context w).
Proof.
  intros Hu Ha. rewrite process_realtime_interaction_context.
  rewrite !bool_decide_eq_false_2 by done. simpl.
  apply update_short_term_context_buffer.
Qed.

(** X7. Right after an exchange with non-empty messages, the context
    rendered with a window of 2 is the exchange itself, the very text
    that step 3 archives, whatever the collaborators did in
    between. *)
Theorem immediate_context_after_interaction E (uid um am : string) (w : world) :
  um ≠ "" → am ≠ "" →
  ((process_realtime_interaction E uid um am ;; get_immediate_context uid 2) w).1
  = Ok (exchange_text um am).
Proof.
  intros Hu Ha. unfold mbind at 1. unfold M_bind.
  pose proof (process_realtime_interaction_buffer E uid um am w Hu Ha) as Hctx.
  destruct (process_realtime_interaction_total E uid um am w) as [[] Hok].
  destruct (process_realtime_interaction E uid um am w) as [r1 w1].
  simpl in *. subst r1.
  rewrite get_immediate_context_run. simpl. rewrite Hctx, lookup_insert_eq. simpl.
  rewrite decide_False by apply appended_buffer_nonempty.
  rewrite (slice_from_last 2) by lia.
  change (Z.to_nat 2) with 2. rewrite appended_buffer_last_two.
  reflexivity.
Qed.

(** X8. After [clear_chat_history] and after [reset_memory] the
    rendered context of the user is empty, for every window and
    whatever the index did. *)
Theorem immediate_context_empty_after_clear E (uid : string) (window_size : Z)
    (w : world) :
  ((clear_chat_history E uid ;; get_immediate_context uid window_size) w).1 = Ok "" ∧
  ((reset_memory E uid ;; get_immediate_context uid window_size) w).1 = Ok "".
Proof.
  split.
  - unfold mbind at 1. unfold M_bind. rewrite clear_chat_history_run.
    cbv zeta. destruct (index w); [destruct (fails E (ticks w))|];
      rewrite get_immediate_context_run; simpl;
      by rewrite lookup_delete_eq.
  - unfold mbind at 1. unfold M_bind. rewrite reset_memory_run. cbv zeta.
    destruct (delete_user_vectors_outcome E uid _) as [b w2] eqn:Hout.
    rewrite get_immediate_context_run. simpl.
    assert (Hctx : active_context (clear_cache_outcome E (delete_profile_outcome E uid w2))
                   = delete uid (active_context w)).
    { revert Hout. unfold delete_user_vectors_outcome, clear_cache_outcome,
        delete_profile_outcome.
      destruct w as [idx ctx cache lg n r c]. simpl.
      destruct idx as [st|]; simpl.
      - destruct (fails E n); intros [= <- <-]; simpl;
          destruct (fails E (S n)); simpl; by destruct (fails E (S (S n))).
      - intros [= <- <-]. simpl. by destruct (fails E n). }
    rewrite Hctx, lookup_delete_eq. done.
Qed.

(** ** The short-term buffer, exactly *)

Lemma appended_buffer_exact_length old um am :
  length (appended_buffer old um am) = 20 `min` (length old + 2).
Proof.
  unfold appended_buffer. cbv zeta.
  assert (Hlen : length (old ++ [Turn "user" um; Turn "agent" am])%list = length old + 2)
    by (rewrite length_app; simpl; lia).
  case_decide.
  - rewrite length_drop. lia.
  - lia.
Qed.

Lemma appended_buffer_suffix old um am :
  appended_buffer old um am
  `suffix_of` (old ++ [Turn "user" um; Turn "agent" am])%list.
Proof.
  unfold appended_buffer. cbv zeta. case_decide; [apply suffix_drop | done].
Qed.

(** X9. An exchange with an empty message is ignored altogether: the
    world is left as it was and no collaborator is called.  With
    non-empty messages only the buffer of the user changes, the
    buffers of all other users are as before, and the new buffer is
    the old one followed by the user turn and the agent turn, cut
    down to its last 20 entries. *)
Theorem process_realtime_interaction_buffers E (uid um am : string) (w : world) :
  (um = "" ∨ am = "" → process_realtime_interaction E uid um am w = (Ok tt, w)) ∧
  (um ≠ "" → am ≠ "" →
   (∀ other, other ≠ uid →
      active_context (process_realtime_interaction E uid um am w).2 !! other
      = active_context w !! other) ∧
   ∃ buf,
     active_context (process_realtime_interaction E uid um am w).2 !! uid = Some buf ∧
     buf `suffix_of`
       (default [] (active_context w !! uid)
          ++ [Turn "user" um; Turn "agent" am])%list ∧
     length buf = 20 `min` (length (default [] (active_context w !! uid)) + 2)).
Proof.
  split.
  - intros Hempty. unfold process_realtime_interaction.
    destruct Hempty as [-> | ->]; simpl; [done|].
    by rewrite orb_true_r.
  - intros Hu Ha. rewrite (process_realtime_interaction_buffer E uid um am w Hu Ha).
    split.
    + intros other Hne. by rewrite lookup_insert_ne.
    + eexists. split; [apply lookup_insert_eq|].
      split; [apply appended_buffer_suffix | apply appended_buffer_exact_length].
Qed.

Lemma run_interactions_cons E c calls w :
  (run_interactions E (c :: calls) w).2
  = (run_interactions E calls (process_realtime_interaction E c.1.1 c.1.2 c.2 w).2).2.
Proof.
  unfold run_interactions. simpl. unfold mbind, M_bind.
  destruct (process_realtime_interaction_total E c.1.1 c.1.2 c.2 w) as [[] Hok].
  destruct (process_realtime_interaction E c.1.1 c.1.2 c.2 w) as [r1 w1].
  simpl in *. by subst r1.
Qed.

(** X10. After [n] exchanges of one user, all with non-empty messages,
    on a buffer that held [k <= 20] entries, the buffer holds
    [min 20 (k + 2 n)] entries: it grows by two per exchange until it
    is full and stays at 20. *)
Theorem buffer_length_after_exchanges E (uid : string)
    (msgs : list (string * string)) (w : world) :
  Forall (λ m, m.1 ≠ "" ∧ m.2 ≠ "") msgs →
  length (default [] (active_context w !! uid)) ≤ 20 →
  length (default []
            (active_context
               (run_interactions E ((λ m, (uid, m.1, m.2)) <$> msgs) w).2 !! uid))
  = 20 `min` (length (default [] (active_context w !! uid)) + 2 * length msgs).
Proof.
  intros Hmsgs. revert w.
  induction Hmsgs as [|[um am] msgs [Hu Ha] _ IH]; intros w Hk.
  - rewrite fmap_nil. change (run_interactions E [] w).2 with w.
    cbn [length]. lia.
  - rewrite fmap_cons, run_interactions_cons. cbn [fst snd length] in *.
    pose proof (process_realtime_interaction_buffer E uid um am w Hu Ha) as Hctx.
    set (w1 := (process_realtime_interaction E uid um am w).2) in *.
    assert (Hlen1 : length (default [] (active_context w1 !! uid))
                    = 20 `min` (length (default [] (active_context w !! uid)) + 2)).
    { rewrite Hctx, lookup_insert_eq. simpl. apply appended_buffer_exact_length. }
    rewrite IH by lia. rewrite Hlen1. lia.
Qed.

(** ** Storing and retrieving memories *)

Lemma pinecone_meta_lookup E text ty ts (safe_meta : gmap string string) :
  pinecone_meta E text ty ts safe_meta !! "text" = Some text ∧
  pinecone_meta E text ty ts safe_meta !! "type" = Some (MemoryType_value ty) ∧
  pinecone_meta E text ty ts safe_meta !! "timestamp" = Some ts ∧
  pinecone_meta E text ty ts safe_meta !! "attributes_json"
    = Some (json_dumps E safe_meta) ∧
  pinecone_meta E text ty ts safe_meta !! "user_id" = safe_meta !! "user_id".
Proof.
  unfold pinecone_meta.
  destruct (safe_meta !! "user_id") as [u|]; by simplify_map_eq.
Qed.

Lemma memory_type_is_user_specific ty : ty ∈ [FACT; EPISODIC].
Proof. destruct ty; [by left | by right; left]. Qed.

(** [add_memory], step by step. *)
Lemma add_memory_run E text ty metadata w :
  add_memory E text ty metadata w =
  match index w with
  | None => (Ok None, w)
  | Some st =>
      if bool_decide (text = "") then (Ok None, w)
      else if bool_decide (is_Some (default ∅ metadata !! "user_id")) then
        if fails E (ticks w)
        then (Ok None, push_log ERROR "Upsert failed" (count_raise (tick w)))
        else if decide (embed E (ticks w) text = []) then (Ok None, tick w)
        else if fails E (S (ticks w))
        then (Ok None, push_log ERROR "Upsert failed" (count_raise (tick (tick w))))
        else
          (Ok (Some (uuid4 E (S (ticks w)))),
           set_index
             (Some (idx_upsert NAMESPACE
                      [UpsertItem (uuid4 E (S (ticks w))) (embed E (ticks w) text)
                         (pinecone_meta E text ty (time_now E (S (ticks w)))
                            (default ∅ metadata))] st))
             (tick (tick w)))
      else (Ok None, push_log ERROR "Attempted to store without 'user_id'" w)
  end.
Proof.
  destruct w as [idx ctx cache lg n r c].
  unfold add_memory, collaborator, index_call. unfold_monad. simpl.
  destruct idx as [st|]; simpl; [|done].
  destruct (bool_decide (text = "")); simpl; [done|].
  rewrite (bool_decide_eq_true_2 _ (memory_type_is_user_specific ty)).
  destruct (bool_decide (is_Some (default ∅ metadata !! "user_id"))); simpl; [|done].
  destruct (fails E n); simpl; [done|].
  destruct (decide (embed E n text = [])); simpl; [done|].
  destruct (fails E (S n)); done.
Qed.

(** X11. [add_memory] never raises.  When it returns [None] the index
    is as it was.  When it returns an id, there is an index and the
    memory namespace holds under that id a record with a non-empty
    vector whose metadata carries the text, the value of the type,
    the caller's metadata as JSON and the caller's [user_id] lifted to
    the top level; the records under all other ids are as before. *)
Theorem add_memory_returns_stored_id E (text : string) (memory_type : MemoryType)
    (metadata : option (gmap string string)) (w : world) :
  (∃ r, (add_memory E text memory_type metadata w).1 = Ok r) ∧
  ((add_memory E text memory_type metadata w).1 = Ok None →
   index (add_memory E text memory_type metadata w).2 = index w) ∧
  (∀ id, (add_memory E text memory_type metadata w).1 = Ok (Some id) →
   ∃ m m' rec,
     stored NAMESPACE w = Some m ∧
     stored NAMESPACE (add_memory E text memory_type metadata w).2 = Some m' ∧
     m' !! id = Some rec ∧
     (∀ other, other ≠ id → m' !! other = m !! other) ∧
     vec_values rec ≠ [] ∧
     vec_metadata rec !! "text" = Some text ∧
     vec_metadata rec !! "type" = Some (MemoryType_value memory_type) ∧
     vec_metadata rec !! "attributes_json"
       = Some (json_dumps E (default ∅ metadata)) ∧
     is_Some (vec_metadata rec !! "user_id") ∧
     vec_metadata rec !! "user_id" = default ∅ metadata !! "user_id").
Proof.
  rewrite add_memory_run.
  destruct w as [idx ctx cache lg n r c]. simpl.
  destruct idx as [st|]; simpl; [|by (split; [eexists|])].
  destruct (bool_decide (text = "")); simpl; [by (split; [eexists|])|].
  destruct (bool_decide (is_Some (default ∅ metadata !! "user_id"))) eqn:Huid;
    simpl; [|by (split; [eexists|])].
  apply bool_decide_eq_true_1 in Huid.
  destruct (fails E n); simpl; [by (split; [eexists|])|].
  destruct (decide (embed E n text = [])) as [|Hemb]; simpl;
    [by (split; [eexists|])|].
  destruct (fails E (S n)); simpl; [by (split; [eexists|])|].
  split; [by eexists|]. split; [intros [=]|].
  intros id [= <-]. unfold stored. simpl.
  eexists _, _, _. split; [reflexivity|]. split; [reflexivity|].
  rewrite idx_upsert_one.
  split; [apply lookup_insert_eq|].
  split; [intros other Hne; by rewrite lookup_insert_ne|].
  simpl. split; [done|].
  destruct (pinecone_meta_lookup E text memory_type (time_now E (S n))
              (default ∅ metadata)) as (Ht & Hty & _ & Hattr & Hu).
  split; [done|]. split; [done|]. split; [done|].
  rewrite Hu. done.
Qed.

(** *** Retrieval *)

Lemma MemoryType_value_inj t1 t2 : MemoryType_value t1 = MemoryType_value t2 → t1 = t2.
Proof. destruct t1, t2; simpl; intros H; first [reflexivity | discriminate H]. Qed.

Lemma collect_memories_keeps_index E thr ms : keeps index (collect_memories E thr ms).
Proof.
  induction ms as [|m ms IH]; simpl.
  - apply keeps_mret.
  - destruct (Qltb (match_score m) thr); [exact IH|].
    unfold MemoryType_of_value. monad_shape ltac:(exact IH).
Qed.

Lemma collect_memories_keeps_context E thr ms :
  keeps active_context (collect_memories E thr ms).
Proof.
  induction ms as [|m ms IH]; simpl.
  - apply keeps_mret.
  - destruct (Qltb (match_score m) thr); [exact IH|].
    unfold MemoryType_of_value. monad_shape ltac:(exact IH).
Qed.

(** The items the loop builds, against the matches it was given. *)
Lemma collect_memories_items E thr (ms : list query_match) w items w' :
  collect_memories E thr ms w = (Ok items, w') →
  mem_id <$> items `sublist_of` match_id <$> ms ∧
  Forall (λ item, ∃ m, m ∈ ms ∧ mem_id item = match_id m ∧
            MemoryType_value (mem_type item)
              = default "fact" (match_metadata m !! "type") ∧
            mem_content item = default "" (match_metadata m !! "text")) items.
Proof.
  revert w items w'. induction ms as [|m ms IH]; intros w items w' Hrun.
  - simpl in Hrun. unfold_monad. simplify_eq. split; [done | constructor].
  - simpl in Hrun. destruct (Qltb (match_score m) thr).
    + destruct (IH _ _ _ Hrun) as [Hsub Hall]. split.
      * rewrite fmap_cons. by apply sublist_cons.
      * eapply Forall_impl; [exact Hall|]. intros item (m' & Hm' & Hrest).
        exists m'. split; [by right | done].
    + unfold MemoryType_of_value in Hrun. unfold_monad.
      assert (Hcase : ∃ ty rest w1,
        MemoryType_value ty = default "fact" (match_metadata m !! "type") ∧
        collect_memories E thr ms w = (Ok rest, w1) ∧
        items = Memory (match_id m) (default "" (match_metadata m !! "text")) ty
                  (default "" (match_metadata m !! "timestamp"))
                  (default ∅ (safe_json_load E
                     (default "{}" (match_metadata m !! "attributes_json"))))
                :: rest).
      { repeat case_decide; simpl in Hrun; try discriminate Hrun;
          destruct (collect_memories E thr ms w) as [[rest|e] w1] eqn:Hrest;
          simplify_eq; eexists _, _, _; (split; [|split; [reflexivity|reflexivity]]);
          simpl; congruence. }
      destruct Hcase as (ty & rest & w1 & Hty & Hrest & ->).
      destruct (IH _ _ _ Hrest) as [Hsub Hall]. split.
      * rewrite !fmap_cons. simpl. by apply sublist_skip.
      * constructor.
        -- exists m. split; [by left | done].
        -- eapply Forall_impl; [exact Hall|]. intros item (m' & Hm' & Hrest').
           exists m'. split; [by right | done].
Qed.

(** [retrieve_relevant], step by step. *)
Lemma retrieve_relevant_run E query uid limit memory_type thr w :
  retrieve_relevant E query uid limit memory_type thr w =
  match index w with
  | None => (Ok [], w)
  | Some st =>
      if bool_decide (query = "") then (Ok [], w)
      else if fails E (ticks w)
      then (Ok [], push_log ERROR "Retrieval error" (count_raise (tick w)))
      else if decide (embed E (ticks w) query = []) then (Ok [], tick w)
      else if fails E (S (ticks w))
      then (Ok [], push_log ERROR "Retrieval error" (count_raise (tick (tick w))))
      else
        match collect_memories E thr
                (idx_query (similarity E) NAMESPACE (embed E (ticks w) query) limit
                   match memory_type with
                   | Some t => <["type" := MemoryType_value t]> (<["user_id" := uid]> ∅)
                   | None => <["user_id" := uid]> ∅
                   end st)
                (set_index (Some st) (tick (tick w)))
        with
        | (Ok items, w') => (Ok items, w')
        | (Raise e, w') => (Ok [], push_log ERROR "Retrieval error" w')
        end
  end.
Proof.
  destruct w as [idx ctx cache lg n r c].
  unfold retrieve_relevant, collaborator, index_call. unfold_monad. simpl.
  destruct idx as [st|]; simpl; [|done].
  destruct (bool_decide (query = "")); simpl; [done|].
  destruct (fails E n); simpl; [done|].
  destruct (decide (embed E n query = [])); simpl; [done|].
  destruct (fails E (S n)); done.
Qed.

Lemma idx_query_length sim ns q top_k flt st :
  length (idx_query sim ns q top_k flt st) ≤ top_k.
Proof. unfold idx_query. rewrite length_take. lia. Qed.

Lemma idx_query_distinct sim ns q top_k flt st :
  NoDup (match_id <$> idx_query sim ns q top_k flt st).
Proof.
  unfold idx_query. cbv zeta.
  eapply sublist_NoDup; [|apply fmap_sublist, sublist_take].
  rewrite merge_sort_Permutation. rewrite <- list_fmap_compose.
  eapply sublist_NoDup; [apply (NoDup_fst_map_to_list (namespace_of ns st))|].
  apply (fmap_sublist fst). apply sublist_filter.
Qed.

(** X12. [retrieve_relevant] changes neither the index nor the
    short-term context.  It returns no more items than the limit,
    never the same stored memory twice, nothing at all for an empty
    query or without an index, and, when a memory type is asked for,
    only items of that type. *)
Theorem retrieve_relevant_bounded E (query uid : string) (limit : nat)
    (memory_type : option MemoryType) (score_threshold : Q) (w : world) :
  ∃ items : list MemoryItem,
    (retrieve_relevant E query uid limit memory_type score_threshold w).1 = Ok items ∧
    index (retrieve_relevant E query uid limit memory_type score_threshold w).2
      = index w ∧
    active_context (retrieve_relevant E query uid limit memory_type score_threshold w).2
      = active_context w ∧
    length items ≤ limit ∧
    NoDup (mem_id <$> items) ∧
    (query = "" ∨ index w = None → items = []) ∧
    (∀ t, memory_type = Some t → Forall (λ item, mem_type item = t) items).
Proof.
  rewrite retrieve_relevant_run.
  assert (Hnil' : ∀ w' : world, index w' = index w → active_context w' = active_context w →
    ∃ items : list MemoryItem,
      (@Ok (list MemoryItem) [], w').1 = Ok items ∧
      index (@Ok (list MemoryItem) [], w').2 = index w ∧
      active_context (@Ok (list MemoryItem) [], w').2 = active_context w ∧
      length items ≤ limit ∧ NoDup (mem_id <$> items) ∧
      (query = "" ∨ index w = None → items = []) ∧
      (∀ t, memory_type = Some t → Forall (λ item, mem_type item = t) items)).
  { intros w' Hi Hc. exists []. simpl.
    split; [done|]. split; [done|]. split; [done|]. split; [lia|].
    split; [constructor|]. split; [done|]. intros t _. constructor. }
  destruct (index w) as [st|] eqn:Hst; [|by apply Hnil'].
  destruct (bool_decide (query = "")) eqn:Hq; [by apply Hnil'|].
  apply bool_decide_eq_false_1 in Hq.
  destruct (fails E (ticks w)); [apply Hnil'; by destruct w|].
  destruct (decide (embed E (ticks w) query = [])); [apply Hnil'; by destruct w|].
  destruct (fails E (S (ticks w))); [apply Hnil'; by destruct w|].
  set (flt := match memory_type with
              | Some t => <["type" := MemoryType_value t]> (<["user_id" := uid]> ∅)
              | None => <["user_id" := uid]> ∅
              end).
  set (ms := idx_query (similarity E) NAMESPACE (embed E (ticks w) query) limit flt st).
  set (w2 := set_index (Some st) (tick (tick w))).
  pose proof (collect_memories_keeps_index E score_threshold ms w2) as Hki.
  pose proof (collect_memories_keeps_context E score_threshold ms w2) as Hkc.
  destruct (collect_memories E score_threshold ms w2) as [[items|e] w3] eqn:Hrun;
    simpl in Hki, Hkc.
  - destruct (collect_memories_items _ _ _ _ _ _ Hrun) as [Hsub Hall].
    exists items. simpl. split; [done|].
    split; [by rewrite Hki|]. split; [by rewrite Hkc; destruct w|].
    split.
    { apply sublist_length in Hsub. rewrite !length_fmap in Hsub.
      pose proof (idx_query_length (similarity E) NAMESPACE
                    (embed E (ticks w) query) limit flt st). unfold ms in Hsub. lia. }
    split.
    { eapply sublist_NoDup; [|exact Hsub]. apply idx_query_distinct. }
    split; [intros [?|[=]]; done|].
    intros t ->. eapply Forall_impl; [exact Hall|].
    intros item (m & Hm & _ & Hty & _).
    apply idx_query_sound in Hm as (rec & _ & Hmeta & _ & Hflt).
    assert (Htype : match_metadata m !! "type" = Some (MemoryType_value t)).
    { rewrite Hmeta. apply (Hflt "type"). unfold flt. by simplify_map_eq. }
    rewrite Htype in Hty. simpl in Hty. by apply MemoryType_value_inj.
  - apply Hnil'; simpl; [by rewrite Hki | by rewrite Hkc; destruct w].
Qed.

(** ** Invariants along a run *)

Section Maintains.

Context (I : world → Prop).

Lemma maintains_mret {A} (a : A) : maintains I (mret a : M A).
Proof. intros w HI. exact HI. Qed.

Lemma maintains_bind {A B} (m : M A) (k : A → M B) :
  maintains I m → (∀ a, maintains I (k a)) → maintains I (m ≫= k).
Proof.
  intros Hm Hk w HI. unfold mbind, M_bind. specialize (Hm w HI).
  destruct (m w) as [[a|e] w1]; simpl in *; [by apply Hk | exact Hm].
Qed.

Lemma maintains_try_except {A} (body : M A) (handler : exn → M A) :
  maintains I body → (∀ e, maintains I (handler e)) →
  maintains I (try_except body handler).
Proof.
  intros Hm Hh w HI. unfold try_except. specialize (Hm w HI).
  destruct (body w) as [[a|e] w1]; simpl in *; [exact Hm | by apply Hh].
Qed.

Lemma maintains_for_each {A} (xs : list A) (body : A → M unit) :
  (∀ x, x ∈ xs → maintains I (body x)) → maintains I (for_each xs body).
Proof.
  induction xs as [|x xs IH]; intros Hb; simpl.
  - apply maintains_mret.
  - apply maintains_bind; [apply Hb; by left|].
    intros _. apply IH. intros y Hy. apply Hb. by right.
Qed.

(** A computation that leaves the observation [f] alone maintains
    whatever depends on the world through [f] only. *)
Lemma maintains_keeps {A X} (f : world → X) (m : M A) :
  (∀ w w', f w' = f w → I w → I w') → keeps f m → maintains I m.
Proof. intros Hf Hk w HI. eapply Hf; [apply Hk | exact HI]. Qed.

End Maintains.

(** ** [consolidate_session] *)

Lemma collect_memories_keeps_stored E ns thr ms :
  keeps (stored ns) (collect_memories E thr ms).
Proof.
  induction ms as [|m ms IH]; simpl.
  - apply keeps_mret.
  - destruct (Qltb (match_score m) thr); [exact IH|].
    unfold MemoryType_of_value. monad_shape ltac:(exact IH).
Qed.

Lemma retrieve_relevant_keeps_stored E ns query uid limit ty thr :
  keeps (stored ns) (retrieve_relevant E query uid limit ty thr).
Proof.
  unfold retrieve_relevant, collaborator.
  monad_shape ltac:(first [ apply collect_memories_keeps_stored
                          | by apply index_call_keeps_stored ]).
Qed.

Lemma retrieve_relevant_keeps_context E query uid limit ty thr :
  keeps active_context (retrieve_relevant E query uid limit ty thr).
Proof.
  unfold retrieve_relevant, collaborator, index_call.
  monad_shape ltac:(apply collect_memories_keeps_context).
Qed.

Lemma consolidate_session_keeps_context E uid history :
  keeps active_context (consolidate_session E uid history).
Proof.
  unfold consolidate_session, collaborator, index_call.
  monad_shape ltac:(first [ apply retrieve_relevant_keeps_context
                          | apply add_memory_keeps_context ]).
Qed.

Lemma consolidate_session_keeps_stored E ns uid history :
  ns ≠ NAMESPACE → keeps (stored ns) (consolidate_session E uid history).
Proof.
  intros Hne. unfold consolidate_session, collaborator.
  monad_shape ltac:(first [ apply retrieve_relevant_keeps_stored
                          | by apply add_memory_keeps_stored
                          | apply index_call_keeps_stored; intros st; simpl;
                            by apply idx_delete_filter_other ]).
Qed.

Lemma consolidate_session_total E uid history :
  total (consolidate_session E uid history).
Proof.
  unfold consolidate_session. case_decide; [apply total_mret|].
  apply total_try_except. intros e. apply total_logger.
Qed.

Lemma user_fact_filter uid (meta : gmap string string) :
  filter_matches (<["user_id" := uid]> (<["type" := "fact"]> ∅)) meta
  ↔ user_fact uid (VectorRecord [] meta).
Proof. rewrite filter_matches_two by done. unfold user_fact. simpl. tauto. Qed.

Section ConsolidateInvariant.

Context (E : Collaborators) (uid : string) (w0 : world).

Lemma consolidation_invariant_stored w w' :
  stored NAMESPACE w' = stored NAMESPACE w →
  consolidation_invariant E uid w0 w → consolidation_invariant E uid w0 w'.
Proof.
  unfold consolidation_invariant, only_user_facts_added, other_records_kept,
    memory_record_of.
  by intros ->.
Qed.

Lemma delete_user_facts_maintains :
  maintains (consolidation_invariant E uid w0)
    (index_call E (λ st,
       (tt, idx_delete_filter NAMESPACE
              (<["user_id" := uid]> (<["type" := "fact"]> ∅)) st))).
Proof.
  intros w [Hadd Hkept]. unfold index_call. unfold_monad.
  destruct (index w) as [st|] eqn:Hst;
    [|eapply consolidation_invariant_stored; [|by split]; by destruct w].
  destruct (fails E (ticks w));
    [eapply consolidation_invariant_stored; [|by split]; by destruct w|].
  assert (Hlook : ∀ id rec,
    memory_record_of id
      (set_index (Some (idx_delete_filter NAMESPACE
                          (<["user_id" := uid]> (<["type" := "fact"]> ∅)) st)) (tick w))
    = Some rec ↔ memory_record_of id w = Some rec ∧ ¬ user_fact uid rec).
  { intros id rec. unfold memory_record_of, stored. simpl. rewrite Hst. simpl.
    rewrite idx_delete_filter_lookup, user_fact_filter. unfold user_fact. simpl.
    done. }
  simpl. split.
  - intros id rec Hrec. apply Hlook in Hrec as [Hrec _]. by apply Hadd.
  - intros Hfresh id rec Hrec Hnot. apply Hlook. split; [|done].
    by apply Hkept.
Qed.

Lemma add_user_fact_maintains fact :
  maintains (consolidation_invariant E uid w0)
    (add_memory E fact FACT (Some (<["user_id" := uid]> ∅))).
Proof.
  intros w [Hadd Hkept]. rewrite add_memory_tagged_run.
  destruct (index w) as [st|] eqn:Hst; [|by split].
  destruct (bool_decide (fact = "")); [by split|].
  destruct (fails E (ticks w));
    [eapply consolidation_invariant_stored; [|by split]; by destruct w|].
  destruct (decide (embed E (ticks w) fact = []));
    [eapply consolidation_invariant_stored; [|by split]; by destruct w|].
  destruct (fails E (S (ticks w)));
    [eapply consolidation_invariant_stored; [|by split]; by destruct w|].
  set (id0 := uuid4 E (S (ticks w))).
  set (rec0 := VectorRecord (embed E (ticks w) fact)
                 (pinecone_meta E fact FACT (time_now E (S (ticks w)))
                    (<["user_id" := uid]> ∅))).
  assert (Hlook : ∀ id,
    memory_record_of id
      (set_index (Some (idx_upsert NAMESPACE
                          [UpsertItem id0 (vec_values rec0) (vec_metadata rec0)] st))
         (tick (tick w)))
    = if decide (id0 = id) then Some rec0 else memory_record_of id w).
  { intros id. unfold memory_record_of, stored. simpl. rewrite Hst. simpl.
    rewrite idx_upsert_one. by rewrite lookup_insert. }
  simpl. split.
  - intros id rec Hrec. rewrite Hlook in Hrec. case_decide.
    + injection Hrec as <-. left. unfold user_fact, rec0. simpl.
      destruct (pinecone_meta_tagged E fact FACT (time_now E (S (ticks w))) uid)
        as (Hty & Hu & _). done.
    + by apply Hadd.
  - intros Hfresh id rec Hrec Hnot. rewrite Hlook. case_decide as Hid.
    + subst id. unfold id0 in Hrec. rewrite Hfresh in Hrec. discriminate Hrec.
    + by apply Hkept.
Qed.

Lemma consolidate_session_maintains history :
  maintains (consolidation_invariant E uid w0) (consolidate_session E uid history).
Proof.
  assert (Hkeep : ∀ A (m : M A), keeps (stored NAMESPACE) m →
                    maintains (consolidation_invariant E uid w0) m).
  { intros A m. apply maintains_keeps. apply consolidation_invariant_stored. }
  unfold consolidate_session. case_decide; [apply maintains_mret|].
  apply maintains_try_except; [|intros e; apply Hkeep; keeps_primitive].
  apply maintains_bind; [apply Hkeep; unfold collaborator; keeps_primitive|].
  intros key_facts. case_decide; [apply maintains_mret|].
  apply maintains_bind; [apply Hkeep, retrieve_relevant_keeps_stored|].
  intros existing. cbv zeta.
  apply maintains_bind; [apply Hkeep; unfold collaborator; keeps_primitive|].
  intros final_facts.
  apply maintains_bind; [apply Hkeep; keeps_primitive|].
  intros [|]; [|apply maintains_mret].
  apply maintains_bind; [apply delete_user_facts_maintains|]. intros _.
  apply maintains_bind; [|intros _; apply Hkeep; keeps_primitive].
  apply maintains_for_each. intros fact _.
  apply maintains_bind; [apply add_user_fact_maintains|].
  intros _. apply maintains_mret.
Qed.

End ConsolidateInvariant.

(** X13. [consolidate_session] never raises and stays within the
    facts of its user: the short-term context and every namespace but
    the memory store are as before, and every record found in the
    memory store afterwards was there before or is a fact tagged
    with the user id.  If moreover the ids handed out by [uuid4] are
    not in use, every record that is not a fact of the user (other
    users' records, the user's episodes) is still there unchanged. *)
Theorem consolidate_session_stays_within_user_facts E (uid : string)
    (conversation_history : list string) (w : world) :
  (consolidate_session E uid conversation_history w).1 = Ok tt ∧
  active_context (consolidate_session E uid conversation_history w).2
    = active_context w ∧
  (∀ ns, ns ≠ NAMESPACE →
     stored ns (consolidate_session E uid conversation_history w).2 = stored ns w) ∧
  only_user_facts_added uid w (consolidate_session E uid conversation_history w).2 ∧
  (fresh_ids E w →
   other_records_kept uid w (consolidate_session E uid conversation_history w).2).
Proof.
  split.
  { destruct (consolidate_session_total E uid conversation_history w) as [[] H].
    exact H. }
  split; [apply consolidate_session_keeps_context|].
  split; [intros ns Hns; by apply consolidate_session_keeps_stored|].
  apply (consolidate_session_maintains E uid w conversation_history w).
  split.
  - intros id rec Hrec. by right.
  - intros _ id rec Hrec _. exact Hrec.
Qed.

(** *** Replacement of the user's facts *)

Lemma user_facts_among_stored uid facts w w' :
  stored NAMESPACE w' = stored NAMESPACE w →
  user_facts_among uid facts w → user_facts_among uid facts w'.
Proof. unfold user_facts_among, memory_record_of. by intros ->. Qed.

(** Once the user's facts are deleted, none is left. *)
Lemma delete_user_facts_leaves_none E uid facts w :
  fails E (ticks w) = false →
  user_facts_among uid facts
    (index_call E (λ st,
       (tt, idx_delete_filter NAMESPACE
              (<["user_id" := uid]> (<["type" := "fact"]> ∅)) st)) w).2.
Proof.
  intros Hf. unfold index_call. unfold_monad. rewrite Hf.
  destruct (index w) as [st|] eqn:Hst; simpl.
  - intros id rec Hrec Hfact. exfalso.
    unfold memory_record_of, stored in Hrec. simpl in Hrec.
    apply idx_delete_filter_lookup in Hrec as [_ Hnot].
    apply Hnot. apply user_fact_filter. exact Hfact.
  - intros id rec Hrec. unfold memory_record_of, stored in Hrec. simpl in Hrec.
    rewrite Hst in Hrec. discriminate Hrec.
Qed.

Lemma add_user_fact_among E uid facts fact :
  fact ∈ facts →
  maintains (user_facts_among uid facts)
    (add_memory E fact FACT (Some (<["user_id" := uid]> ∅))).
Proof.
  intros Hin w HJ. rewrite add_memory_tagged_run.
  destruct (index w) as [st|] eqn:Hst; [|done].
  destruct (bool_decide (fact = "")); [done|].
  destruct (fails E (ticks w));
    [eapply user_facts_among_stored; [|exact HJ]; by destruct w|].
  destruct (decide (embed E (ticks w) fact = []));
    [eapply user_facts_among_stored; [|exact HJ]; by destruct w|].
  destruct (fails E (S (ticks w)));
    [eapply user_facts_among_stored; [|exact HJ]; by destruct w|].
  simpl. intros id rec Hrec Hfact.
  unfold memory_record_of, stored in Hrec. simpl in Hrec.
  rewrite idx_upsert_one in Hrec.
  apply lookup_insert_Some in Hrec as [[_ <-]|[_ Hrec]].
  - exists fact. split; [done|]. simpl.
    apply (pinecone_meta_tagged E fact FACT (time_now E (S (ticks w))) uid).
  - apply (HJ id rec); [|done].
    unfold memory_record_of, stored. by rewrite Hst.
Qed.

(** The replace step: delete the user's facts, insert the final set. *)
Lemma replace_user_facts_among E uid facts w :
  fails E (ticks w) = false →
  user_facts_among uid facts
    ((index_call E (λ st,
        (tt, idx_delete_filter NAMESPACE
               (<["user_id" := uid]> (<["type" := "fact"]> ∅)) st)) ;;
      for_each facts (λ fact,
        add_memory E fact FACT (Some (<["user_id" := uid]> ∅)) ;; mret tt) ;;
      logger INFO "Consolidated facts") w).2.
Proof.
  intros Hf. pose proof (delete_user_facts_leaves_none E uid facts w Hf) as Hdel.
  unfold mbind at 1. unfold M_bind.
  destruct (index_call E _ w) as [[[]|e] w1]; simpl in *; [|exact Hdel].
  revert Hdel. generalize w1.
  change (maintains (user_facts_among uid facts)
            (for_each facts (λ fact,
               add_memory E fact FACT (Some (<["user_id" := uid]> ∅)) ;; mret tt) ;;
             logger INFO "Consolidated facts")).
  apply maintains_bind.
  - apply maintains_for_each. intros fact Hin.
    apply maintains_bind; [by apply add_user_fact_among|].
    intros _. apply maintains_mret.
  - intros _ w2. by apply user_facts_among_stored.
Qed.

(** X14. Replacement.  When no collaborator call fails, the history is
    not empty and the summarizer extracts at least one key fact, then
    after [consolidate_session] every fact of the user in the memory
    store carries one of the texts returned by the deduplication of
    the key facts against the facts retrieved for the user: the facts
    stored before are gone unless the deduplication kept their text. *)
Theorem consolidate_session_replaces_user_facts E (uid : string)
    (conversation_history : list string) (w : world)
    (existing_memories : list MemoryItem) :
  (∀ n, fails E n = false) →
  conversation_history ≠ [] →
  summarize E (ticks w) conversation_history ≠ [] →
  (retrieve_relevant E "general user facts" uid 50 (Some FACT) 0 (tick w)).1
    = Ok existing_memories →
  user_facts_among uid
    (deduplicate_facts E
       (ticks (retrieve_relevant E "general user facts" uid 50 (Some FACT) 0 (tick w)).2)
       (mem_content <$> existing_memories)
       (summarize E (ticks w) conversation_history))
    (consolidate_session E uid conversation_history w).2.
Proof.
  intros Hfails Hhist Hkey Hexisting. unfold consolidate_session.
  rewrite decide_False by done.
  assert (Hbody : ∀ A (body : M A) (handler : exn → M A) J w0,
    (∀ e w1, J w1 → J (handler e w1).2) → J (body w0).2 →
    J (try_except body handler w0).2).
  { intros A body handler J w0 Hh Hb. unfold try_except.
    destruct (body w0) as [[a|e] w1]; simpl in *; [done | by apply Hh]. }
  apply Hbody.
  { intros e w1 HJ. by apply (user_facts_among_stored uid _ w1). }
  unfold mbind at 1. unfold M_bind. unfold collaborator at 1.
  rewrite Hfails. rewrite decide_False by done.
  unfold mbind at 1. unfold M_bind.
  destruct (retrieve_relevant E "general user facts" uid 50 (Some FACT) 0 (tick w))
    as [r2 w2] eqn:Hretr.
  simpl in Hexisting. subst r2. cbv zeta. simpl.
  unfold mbind at 1. unfold M_bind. unfold collaborator at 1. rewrite Hfails.
  unfold mbind at 1. unfold M_bind. unfold index_present at 1. cbv beta iota.
  destruct (bool_decide (is_Some (index (tick w2)))) eqn:Hpresent.
  - apply replace_user_facts_among. apply Hfails.
  - simpl. apply bool_decide_eq_false_1 in Hpresent.
    intros id rec Hrec. unfold memory_record_of, stored in Hrec.
    destruct w2 as [idx ctx cache lg n r c]. simpl in *.
    destruct idx; [exfalso; apply Hpresent; by eexists | discriminate Hrec].
Qed.

(** ** [check_and_update_profile_pre_planning] *)

Lemma get_profile_keeps_index E uid : keeps index (get_profile E uid).
Proof.
  unfold get_profile, index_call, model_validate. monad_shape idtac.
Qed.

Lemma get_profile_total E uid : total (get_profile E uid).
Proof.
  intros w. rewrite get_profile_run. repeat case_match; by eexists.
Qed.

Lemma pre_planning_check_total E uid q :
  total (check_and_update_profile_pre_planning E uid q).
Proof.
  unfold check_and_update_profile_pre_planning.
  destruct (bool_decide (q = "")); [apply total_mret|].
  apply total_try_except. intros e. apply total_logger.
Qed.

Lemma pre_planning_check_keeps_context E uid q :
  keeps active_context (check_and_update_profile_pre_planning E uid q).
Proof.
  unfold check_and_update_profile_pre_planning, collaborator, model_validate.
  monad_shape ltac:(first [ apply get_profile_keeps_context
                          | apply sync_if_changed_keeps_context ]).
Qed.

Lemma pre_planning_check_keeps_stored E ns uid q :
  ns ≠ PROFILE_NAMESPACE →
  keeps (stored ns) (check_and_update_profile_pre_planning E uid q).
Proof.
  intros Hne. unfold check_and_update_profile_pre_planning, collaborator, model_validate.
  monad_shape ltac:(first [ apply get_profile_keeps_stored
                          | by apply sync_if_changed_keeps_stored ]).
Qed.

(** X15. The pre-planning check never raises and touches nothing but
    the profile namespace: the short-term context and the memory
    store are as before.  On an empty query it does nothing at all,
    and when the summarizer proposes no change (nothing, or an empty
    dictionary) the whole index is as before. *)
Theorem pre_planning_check_frame E (uid user_query : string) (w : world) :
  (check_and_update_profile_pre_planning E uid user_query w).1 = Ok tt ∧
  active_context (check_and_update_profile_pre_planning E uid user_query w).2
    = active_context w ∧
  (∀ ns, ns ≠ PROFILE_NAMESPACE →
     stored ns (check_and_update_profile_pre_planning E uid user_query w).2
     = stored ns w) ∧
  (user_query = "" →
   check_and_update_profile_pre_planning E uid user_query w = (Ok tt, w)) ∧
  ((∀ n p, analyze_interaction_delta E n p user_query "[SYSTEM: PRE-RESPONSE CHECK]"
             = None ∨
           analyze_interaction_delta E n p user_query "[SYSTEM: PRE-RESPONSE CHECK]"
             = Some ∅) →
   index (check_and_update_profile_pre_planning E uid user_query w).2 = index w).
Proof.
  split.
  { destruct (pre_planning_check_total E uid user_query w) as [[] H]. exact H. }
  split; [apply pre_planning_check_keeps_context|].
  split; [intros ns Hns; by apply pre_planning_check_keeps_stored|].
  split.
  { intros ->. reflexivity. }
  intros Hnone. unfold check_and_update_profile_pre_planning.
  destruct (bool_decide (user_query = "")); [done|].
  unfold try_except. unfold mbind at 1. unfold M_bind.
  pose proof (get_profile_keeps_index E uid w) as Hidx.
  destruct (get_profile E uid w) as [[cur|e] w1]; simpl in Hidx; [|by destruct w1].
  cbv zeta. unfold mbind at 1. unfold M_bind. unfold collaborator.
  destruct (fails E (ticks w1)); simpl; [by destruct w1|].
  destruct (Hnone (ticks w1) cur) as [-> | ->]; simpl; [by destruct w1|].
  rewrite decide_True by done. simpl. by destruct w1.
Qed.

(** *** A proposed change is persisted *)

Lemma get_profile_healthy E uid w :
  fails E (ticks w) = false →
  (get_profile E uid w).1 = Ok (profile_view E uid w) ∧
  index (get_profile E uid w).2 = index w ∧
  (is_Some (index w) → ticks (get_profile E uid w).2 = S (ticks w)).
Proof.
  intros Hf. rewrite get_profile_run. unfold profile_view.
  destruct (index w) as [st|] eqn:Hst.
  - rewrite Hf.
    destruct (stored_profile_data E uid w) as [d|];
      [|split; [done|]; split; [by destruct w | done]].
    destruct (decide (d = ∅)); [split; [done|]; split; [by destruct w | done]|].
    destruct (validated E d); simpl; (split; [done|]; split; [by destruct w | done]).
  - assert (Hnone : stored_profile_data E uid w = None)
      by (unfold stored_profile_data; by rewrite Hst).
    rewrite Hnone. split; [done|]. split; [done|]. intros [? [=]].
Qed.

Lemma profile_view_index E uid w w' :
  index w' = index w → profile_view E uid w' = profile_view E uid w.
Proof. unfold profile_view, stored_profile_data. by intros ->. Qed.

Lemma profile_view_written E p w :
  codec_round_trip E (model_dump p) →
  profile_record_of (user_id p) w = Some (profile_record E p) →
  profile_view E (user_id p) w = p.
Proof.
  intros Hcodec Hrec. unfold profile_view, stored_profile_data.
  unfold profile_record_of, stored in Hrec.
  destruct (index w) as [st|]; simpl in *; [|discriminate Hrec].
  rewrite Hrec. simpl. rewrite lookup_insert_eq. simpl.
  unfold model_dump_json. rewrite Hcodec.
  rewrite decide_False by apply model_dump_nonempty.
  by rewrite validated_model_dump.
Qed.

(** [sync_if_changed] on an index that takes the write: afterwards the
    lookup shows the new profile. *)
Lemma sync_if_changed_healthy E cur new w :
  is_Some (index w) →
  fails E (ticks w) = false →
  codec_round_trip E (model_dump new) →
  profile_view E (user_id new) w = cur →
  ∃ b w1,
    sync_if_changed E cur new w = (Ok b, w1) ∧
    profile_view E (user_id new) w1 = new ∧
    is_Some (index w1) ∧
    ticks w1 ≤ S (ticks w).
Proof.
  intros [st Hst] Hf Hcodec Hview. unfold sync_if_changed.
  destruct (decide (model_dump cur ≠ model_dump new)) as [Hd|Hd].
  - unfold mbind at 1. unfold M_bind. unfold logger at 1.
    unfold mbind at 1. unfold M_bind.
    rewrite update_profile_run. simpl. rewrite Hst, Hf.
    eexists _, _. split; [reflexivity|]. split; [|split; [by eexists | simpl; lia]].
    apply profile_view_written; [done|]. apply profile_record_of_update.
  - exists false, w. split; [done|].
    split; [|split; [by eexists | lia]].
    rewrite Hview. apply model_dump_inj. by destruct (decide (model_dump cur = model_dump new)).
Qed.

(** X16. A change proposed by the summarizer is persisted.  When there
    is an index, no collaborator call fails, the summarizer proposes
    a non-empty dictionary of updates for the current profile, the
    merged data is accepted by the schema and keeps the user id, and
    the codec reads the merged profile back, then [get_profile] after
    the pre-planning check returns the merged profile. *)
Theorem pre_planning_check_persists_delta E (uid user_query : string) (w : world)
    (updates : gmap string string) (new_profile : UserProfileSchema) :
  user_query ≠ "" →
  is_Some (index w) →
  (∀ n, fails E n = false) →
  analyze_interaction_delta E (S (ticks w)) (profile_view E uid w) user_query
    "[SYSTEM: PRE-RESPONSE CHECK]" = Some updates →
  updates ≠ ∅ →
  validated E (updates ∪ model_dump (profile_view E uid w)) = Some new_profile →
  user_id new_profile = uid →
  codec_round_trip E (model_dump new_profile) →
  ((check_and_update_profile_pre_planning E uid user_query ;; get_profile E uid) w).1
  = Ok new_profile.
Proof.
  intros Hq Hidx Hfails Hdelta Hne Hvalid Huid Hcodec.
  assert (Hfinal : ∀ w', profile_view E uid w' = new_profile →
            (get_profile E uid w').1 = Ok new_profile).
  { intros w' Hview. destruct (get_profile_healthy E uid w' (Hfails _)) as [-> _].
    by rewrite Hview. }
  unfold mbind at 1. unfold M_bind.
  unfold check_and_update_profile_pre_planning.
  rewrite bool_decide_eq_false_2 by done.
  unfold try_except. unfold mbind at 1. unfold M_bind.
  destruct (get_profile_healthy E uid w (Hfails _)) as (Hres & Hi1 & Ht1).
  specialize (Ht1 Hidx).
  destruct (get_profile E uid w) as [r1 w1]. simpl in Hres, Hi1, Ht1. subst r1.
  cbv zeta. unfold mbind at 1. unfold M_bind. unfold collaborator.
  rewrite Hfails, Ht1, Hdelta. rewrite decide_False by done.
  unfold mbind at 1. unfold M_bind. unfold model_validate. rewrite Hvalid.
  unfold mret at 1. unfold M_ret.
  unfold mbind at 1. unfold M_bind.
  destruct (sync_if_changed_healthy E (profile_view E uid w) new_profile (tick w1))
    as (b & w2 & Hsync & Hview & Hidx2 & _).
  { destruct w1; simpl in *. by rewrite Hi1. }
  { apply Hfails. }
  { exact Hcodec. }
  { rewrite Huid. apply profile_view_index. destruct w1; simpl in *. exact Hi1. }
  rewrite Hsync. rewrite Huid in Hview.
  destruct b; simpl; apply Hfinal.
  - rewrite <- Hview. by apply profile_view_index.
  - exact Hview.
Qed.

(** *** The same delta logic in both callers *)

Lemma pre_planning_check_as_profile_step {X} (f : world → X) E uid user_query w :
  (∀ l msg w', f (push_log l msg w') = f w') →
  user_query ≠ "" →
  f (check_and_update_profile_pre_planning E uid user_query w).2
    = f (analyze_profile_delta E uid user_query
           "[SYSTEM: PRE-RESPONSE CHECK]" w).2.
Proof.
  intros Hlog Hq.
  unfold check_and_update_profile_pre_planning, analyze_profile_delta.
  rewrite bool_decide_eq_false_2 by done.
  unfold try_except, mbind, M_bind, mret, M_ret, logger.
  destruct (get_profile E uid w) as [[cur|e] w1]; simpl; [|by rewrite Hlog].
  unfold collaborator.
  destruct (fails E (ticks w1)); simpl; [by rewrite Hlog|].
  destruct (analyze_interaction_delta E (ticks w1) cur user_query
              "[SYSTEM: PRE-RESPONSE CHECK]") as [u|]; [|done].
  destruct (decide (u = ∅)); [done|].
  unfold model_validate.
  destruct (validated E (u ∪ model_dump cur)) as [new|]; simpl;
    [|by rewrite Hlog].
  unfold sync_if_changed, mbind, M_bind, mret, M_ret, logger.
  destruct (decide (model_dump cur ≠ model_dump new)); [|done].
  rewrite update_profile_run.
  destruct w1 as [idx ctx cache lg k r c]. simpl.
  destruct idx as [st|]; [destruct (fails E (S k))|]; simpl;
    by rewrite ?Hlog.
Qed.

(** X20. The pre-planning check is step 2 of
    [process_realtime_interaction] run on the query with the sentinel
    in place of the agent message: for a non-empty query both leave
    the same index and the same short-term context, and they make the
    same number of external calls. *)
Theorem pre_planning_check_is_profile_step E (uid user_query : string) (w : world) :
  user_query ≠ "" →
  index (check_and_update_profile_pre_planning E uid user_query w).2
    = index (analyze_profile_delta E uid user_query
               "[SYSTEM: PRE-RESPONSE CHECK]" w).2 ∧
  active_context (check_and_update_profile_pre_planning E uid user_query w).2
    = active_context (analyze_profile_delta E uid user_query
                        "[SYSTEM: PRE-RESPONSE CHECK]" w).2 ∧
  ticks (check_and_update_profile_pre_planning E uid user_query w).2
    = ticks (analyze_profile_delta E uid user_query
               "[SYSTEM: PRE-RESPONSE CHECK]" w).2.
Proof.
  intros Hq. split_and!;
    by apply pre_planning_check_as_profile_step; [intros ? ? []|].
Qed.

(** ** The login screen *)

(** The answer of [check_user_status] as a function of the world. *)
Lemma check_user_status_answer E uid w :
  ∃ w1,
    check_user_status E uid w
    = (Ok (if fails E (ticks w) then "new"
           else if profile_record_of uid w is Some _ then "old" else "new"), w1) ∧
    index w1 = index w ∧ active_context w1 = active_context w.
Proof.
  rewrite check_user_status_run. unfold profile_record_of, stored.
  destruct w as [idx ctx cache lg n r c]. simpl.
  destruct idx as [st|]; simpl.
  - destruct (fails E n); [by eexists|].
    destruct (namespace_of PROFILE_NAMESPACE st !! uid); by eexists.
  - destruct (fails E n); by eexists.
Qed.

(** X17. [login_user] never raises and changes neither the index nor
    the short-term context.  It refuses, leaving the session as it
    was and showing one error, an empty id, a declared-new id whose
    profile the lookup finds, and a declared-existing id whose
    profile the lookup does not find or fails to fetch.  Otherwise it
    records the id and sends a declared-new user to the profile
    setup, or authenticates a declared-existing one.  So the session
    becomes authenticated only for a user declared existing whose
    profile record is stored. *)
Theorem login_user_gate E (uid : string) (is_new_declared : bool) (s : session)
    (w : world) :
  let known :=
    fails E (ticks w) = false ∧ is_Some (profile_record_of uid w) in
  ∃ s' events,
    (login_user E uid is_new_declared s w).1 = Ok (s', events) ∧
    index (login_user E uid is_new_declared s w).2 = index w ∧
    active_context (login_user E uid is_new_declared s w).2 = active_context w ∧
    (uid = "" ∨ (is_new_declared = true ∧ known) ∨ (is_new_declared = false ∧ ¬ known) →
     s' = s ∧ ∃ msg, events = [UiError msg]) ∧
    (uid ≠ "" → is_new_declared = true → ¬ known →
     s' = Session (Some uid) (ss_authenticated s) true (ss_messages s) ∧ events = []) ∧
    (uid ≠ "" → is_new_declared = false → known →
     s' = Session (Some uid) true false (ss_messages s) ∧ events = [UiRerun]) ∧
    (ss_authenticated s' = true →
     ss_authenticated s = true ∨ (is_new_declared = false ∧ known)).
Proof.
  intros known. subst known. unfold login_user.
  destruct (bool_decide (uid = "")) eqn:Hempty.
  - apply bool_decide_eq_true_1 in Hempty. exists s, [UiError "Please enter a User ID."].
    simpl. split; [done|]. split; [done|]. split; [done|].
    split; [intros _; split; [done | by eexists]|].
    split; [done|]. split; [done|]. intros H. by left.
  - apply bool_decide_eq_false_1 in Hempty.
    unfold mbind, M_bind.
    destruct (check_user_status_answer E uid w) as (w1 & -> & Hi & Hc).
    destruct (fails E (ticks w)) eqn:Hf; [|destruct (profile_record_of uid w) as [rec|] eqn:Hrec];
      destruct is_new_declared; simpl; eexists _, _;
      (split; [reflexivity|]); (split; [exact Hi|]); (split; [exact Hc|]).
    + split; [intros [?|[[_ [[=] _]]|[[=] _]]]; done|].
      split; [done|]. split; [intros _ _ [[=] _]|]. intros H. by left.
    + split; [intros _; split; [done | by eexists]|].
      split; [done|]. split; [intros _ _ [[=] _]|]. intros H. by left.
    + split; [intros _; split; [done | by eexists]|].
      split; [intros _ _ Hnot; exfalso; apply Hnot; by eauto|].
      split; [done|]. intros H. by left.
    + split; [intros [?|[[[=] _]|[_ Hnot]]]; [done|]; exfalso; apply Hnot; by eauto|].
      split; [done|]. split; [done|]. intros _. right. by eauto.
    + split; [intros [?|[[_ [_ [? [=]]]]|[[=] _]]]; done|].
      split; [done|]. split; [intros _ _ [_ [? [=]]]|]. intros H. by left.
    + split; [intros _; split; [done | by eexists]|].
      split; [done|]. split; [intros _ _ [_ [? [=]]]|]. intros H. by left.
Qed.

Lemma validated_form_data E uid r d st :
  validated E (profile_form_data (Some uid) (risk_value r) (depth_value d)
                 (style_value st))
  = Some (UserProfile uid r d st).
Proof.
  unfold validated, profile_form_data. simplify_map_eq. simpl.
  by rewrite of_value_value_risk, of_value_value_depth, of_value_value_style.
Qed.

Lemma save_profile_run E uid r d st s w :
  ss_user_id s = Some uid →
  save_profile E (risk_value r) (depth_value d) (style_value st) s w
  = (Ok (Session (Some uid) true (ss_is_new_user s) (ss_messages s),
         [UiSuccess "Profile created successfully!"; UiRerun]),
     (update_profile E (UserProfile uid r d st) w).2).
Proof.
  intros Hu. unfold save_profile. rewrite Hu. cbv zeta.
  unfold mbind at 1. unfold M_bind. unfold model_validate.
  rewrite validated_form_data. unfold mret at 1. unfold M_ret.
  unfold try_except. unfold mbind at 1. unfold M_bind.
  rewrite update_profile_run.
  destruct (index w); [destruct (fails E (ticks w))|]; reflexivity.
Qed.

(** X18. [save_profile], called with a user id in the session and
    values of the three enumerations, never reaches its error branch:
    it shows the success message, marks the session authenticated and
    reruns, whether or not the profile could be written, since
    [update_profile] swallows every failure.  When there is an index
    and neither the write nor the next lookup fails, [get_profile]
    then returns exactly the values that were chosen.  With a value
    the schema rejects, or no user id in the session, the validation
    error escapes and the index is as before. *)
Theorem save_profile_outcome E (r : risk_level) (d : depth_level) (st : style_kind)
    (uid : string) (s : session) (w : world) :
  ss_user_id s = Some uid →
  (save_profile E (risk_value r) (depth_value d) (style_value st) s w).1
    = Ok (Session (Some uid) true (ss_is_new_user s) (ss_messages s),
          [UiSuccess "Profile created successfully!"; UiRerun]) ∧
  (is_Some (index w) → fails E (ticks w) = false → fails E (S (ticks w)) = false →
   codec_round_trip E (model_dump (UserProfile uid r d st)) →
   ((save_profile E (risk_value r) (depth_value d) (style_value st) s ;;
     get_profile E uid) w).1 = Ok (UserProfile uid r d st)) ∧
  (∀ risk depth style s0,
     validated E (profile_form_data (ss_user_id s0) risk depth style) = None →
     (save_profile E risk depth style s0 w).1 = Raise ValidationError ∧
     index (save_profile E risk depth style s0 w).2 = index w).
Proof.
  intros Hu. split; [by rewrite (save_profile_run E uid r d st s w Hu)|]. split.
  - intros [st0 Hst] Hf0 Hf1 Hcodec. unfold mbind at 1. unfold M_bind.
    rewrite (save_profile_run E uid r d st s w Hu).
    rewrite update_profile_run, Hst, Hf0. cbn [snd].
    destruct (get_profile_healthy E uid
                (set_index
                   (Some (idx_upsert PROFILE_NAMESPACE
                            [UpsertItem (user_id (UserProfile uid r d st))
                               (profile_placeholder E)
                               (vec_metadata (profile_record E (UserProfile uid r d st)))]
                            st0))
                   (tick (count_update_profile w)))) as [-> _]; [done|].
    f_equal.
    apply (profile_view_written E (UserProfile uid r d st)); [done|].
    apply profile_record_of_update.
  - intros risk depth style s0 Hbad. unfold save_profile. cbv zeta.
    unfold mbind at 1. unfold M_bind. unfold model_validate. rewrite Hbad.
    by destruct w.
Qed.

(** X19. A user whose profile was just saved on an index that took the
    write is known at the next login: declared existing, the user is
    authenticated; declared new, the id is refused as taken. *)
Theorem returning_user_login E (r : risk_level) (d : depth_level) (st : style_kind)
    (uid : string) (s s0 : session) (w : world) :
  uid ≠ "" →
  ss_user_id s = Some uid →
  is_Some (index w) →
  fails E (ticks w) = false →
  fails E (S (ticks w)) = false →
  ((save_profile E (risk_value r) (depth_value d) (style_value st) s ;;
    login_user E uid false s0) w).1
    = Ok (Session (Some uid) true false (ss_messages s0), [UiRerun]) ∧
  ((save_profile E (risk_value r) (depth_value d) (style_value st) s ;;
    login_user E uid true s0) w).1
    = Ok (s0, [UiError ("❌ User ID '" +:+ uid +:+
                        "' is already taken. Please choose a new ID.")]).
Proof.
  intros Hne Hu [st0 Hst] Hf0 Hf1.
  assert (Hlogin : ∀ is_new,
    ((save_profile E (risk_value r) (depth_value d) (style_value st) s ;;
      login_user E uid is_new s0) w).1
    = (if is_new
       then Ok (s0, [UiError ("❌ User ID '" +:+ uid +:+
                              "' is already taken. Please choose a new ID.")])
       else Ok (Session (Some uid) true false (ss_messages s0), [UiRerun]))).
  { intros is_new. unfold mbind at 1. unfold M_bind.
    rewrite (save_profile_run E uid r d st s w Hu).
    rewrite update_profile_run, Hst, Hf0. cbn [snd].
    unfold login_user. rewrite bool_decide_eq_false_2 by done.
    unfold mbind, M_bind.
    match goal with
    | |- context [check_user_status E uid ?w1] =>
        destruct (check_user_status_answer E uid w1) as (w2 & Hrun & _);
        rewrite Hrun
    end.
    cbn [ticks set_index tick count_update_profile]. rewrite Hf1.
    rewrite (profile_record_of_update E (UserProfile uid r d st)).
    by destruct is_new. }
  split; [apply (Hlogin false) | apply (Hlogin true)].
Qed.

(** ** [reset_memory], step by step *)

Lemma reset_memory_leaves_index E uid w :
  index (reset_memory E uid w).2 = reset_memory_index E uid w <$> index w.
Proof.
  rewrite reset_memory_run.
  destruct w as [idx ctx cache lg k r c].
  unfold delete_user_vectors_outcome, clear_cache_outcome, delete_profile_outcome,
    reset_memory_index.
  simpl. destruct idx as [st|]; simpl.
  - destruct (fails E k); simpl; destruct (fails E (S k)); simpl;
      destruct (fails E (S (S k))); done.
  - by destruct (fails E k).
Qed.

Lemma reset_memory_result E uid w :
  (reset_memory E uid w).1
  = Ok (match index w with
        | Some _ => negb (fails E (ticks w))
        | None => true
        end).
Proof.
  rewrite reset_memory_run.
  destruct w as [idx ctx cache lg k r c].
  unfold delete_user_vectors_outcome. simpl.
  destruct idx as [st|]; simpl; [|done]. by destruct (fails E k).
Qed.

Lemma reset_memory_context E uid w :
  active_context (reset_memory E uid w).2 = delete uid (active_context w).
Proof.
  rewrite reset_memory_run.
  destruct w as [idx ctx cache lg k r c].
  unfold delete_user_vectors_outcome, clear_cache_outcome, delete_profile_outcome.
  simpl. destruct idx as [st|]; simpl.
  - destruct (fails E k); simpl; destruct (fails E (S k)); simpl;
      destruct (fails E (S (S k))); done.
  - by destruct (fails E k).
Qed.

Lemma reset_memory_cache E uid w :
  fails E (ticks w + (match index w with Some _ => 2 | None => 0 end)) = false →
  semantic_cache (reset_memory E uid w).2 = [].
Proof.
  rewrite reset_memory_run.
  destruct w as [idx ctx cache lg k r c].
  unfold delete_user_vectors_outcome, clear_cache_outcome, delete_profile_outcome.
  simpl. destruct idx as [st|]; simpl.
  - replace (k + 2) with (S (S k)) by lia. intros Hc.
    destruct (fails E k); simpl; destruct (fails E (S k)); simpl;
      by rewrite Hc.
  - replace (k + 0) with k by lia. by intros ->.
Qed.

(** The memory store and the profile namespace of [reset_memory_index]. *)
Lemma reset_memory_index_memory E uid w st :
  namespace_of NAMESPACE (reset_memory_index E uid w st)
  = if fails E (ticks w) then namespace_of NAMESPACE st
    else namespace_of NAMESPACE
           (idx_delete_filter NAMESPACE (<["user_id" := uid]> ∅) st).
Proof.
  unfold reset_memory_index.
  destruct (fails E (S (ticks w))), (fails E (ticks w));
    rewrite ?idx_delete_ids_other by apply namespaces_distinct; done.
Qed.

Lemma reset_memory_index_profiles E uid w st :
  namespace_of PROFILE_NAMESPACE (reset_memory_index E uid w st)
  = if fails E (S (ticks w)) then namespace_of PROFILE_NAMESPACE st
    else namespace_of PROFILE_NAMESPACE
           (idx_delete_ids PROFILE_NAMESPACE [uid] st).
Proof.
  assert (Hne : PROFILE_NAMESPACE ≠ NAMESPACE).
  { intros Heq. by apply namespaces_distinct. }
  unfold reset_memory_index, idx_delete_ids.
  destruct (fails E (S (ticks w))), (fails E (ticks w));
    rewrite ?namespace_of_insert_eq, ?idx_delete_filter_other by done; done.
Qed.

Lemma reset_memory_index_elsewhere E uid w st ns :
  ns ≠ NAMESPACE → ns ≠ PROFILE_NAMESPACE →
  namespace_of ns (reset_memory_index E uid w st) = namespace_of ns st.
Proof.
  intros H1 H2. unfold reset_memory_index.
  destruct (fails E (S (ticks w))), (fails E (ticks w));
    rewrite ?idx_delete_ids_other, ?idx_delete_filter_other by done; done.
Qed.

(** X21. The two deletions of [reset_memory] are independent: each is
    attempted whatever the other did.  With an index at hand, the
    result is [False] when the deletion of the user's vectors raises,
    and then the memory store is as it was; when it does not raise,
    no record of the memory store is tagged with the user any more,
    also if the deletion of the profile fails.  The profile record is
    gone whenever the deletion of the profile does not raise, also
    after a failed deletion of the vectors.  When neither raises the
    result is [True].  The buffer of the user is dropped in every
    case, and the semantic cache is empty whenever clearing it does
    not raise. *)
Theorem reset_memory_deletions_independent E (uid : string) (w : world) :
  (∃ b : bool, (reset_memory E uid w).1 = Ok b) ∧
  active_context (reset_memory E uid w).2 !! uid = None ∧
  (is_Some (index w) → fails E (ticks w) = true →
   (reset_memory E uid w).1 = Ok false ∧
   stored NAMESPACE (reset_memory E uid w).2 = stored NAMESPACE w) ∧
  (is_Some (index w) → fails E (ticks w) = false →
   ∀ id rec, memory_record_of id (reset_memory E uid w).2 = Some rec →
             vec_metadata rec !! "user_id" ≠ Some uid) ∧
  (is_Some (index w) → fails E (S (ticks w)) = false →
   profile_record_of uid (reset_memory E uid w).2 = None) ∧
  (is_Some (index w) → fails E (ticks w) = false → fails E (S (ticks w)) = false →
   (reset_memory E uid w).1 = Ok true) ∧
  (is_Some (index w) → fails E (S (S (ticks w))) = false →
   semantic_cache (reset_memory E uid w).2 = []).
Proof.
  unfold memory_record_of, profile_record_of, stored.
  rewrite reset_memory_result, reset_memory_context, reset_memory_leaves_index.
  split; [by eexists|]. split; [by rewrite lookup_delete_eq|].
  split; [|split; [|split; [|split]]].
  - intros [st Hst] Hf. rewrite Hst, Hf. simpl. split; [done|].
    by rewrite reset_memory_index_memory, Hf.
  - intros [st Hst] Hf id rec. rewrite Hst. simpl.
    rewrite reset_memory_index_memory, Hf.
    apply idx_delete_filter_user_gone.
  - intros [st Hst] Hf. rewrite Hst. simpl.
    rewrite reset_memory_index_profiles, Hf.
    apply idx_delete_ids_gone.
  - intros [st Hst] Hf _. by rewrite Hst, Hf.
  - intros [st Hst] Hf. apply reset_memory_cache. rewrite Hst.
    replace (ticks w + 2) with (S (S (ticks w))) by lia. done.
Qed.

(** X22. [reset_memory uid] is scoped to its user: the buffers and the
    profile records of all other users are as before, every record of
    the memory store that is not tagged with [uid] is still there,
    unchanged, no record is added or altered anywhere, and the
    namespaces other than the memory store and the profiles are
    untouched. *)
Theorem reset_memory_frame E (uid : string) (w : world) :
  (∀ other, other ≠ uid →
     active_context (reset_memory E uid w).2 !! other = active_context w !! other) ∧
  (∀ other, other ≠ uid →
     profile_record_of other (reset_memory E uid w).2 = profile_record_of other w) ∧
  (∀ id rec, memory_record_of id w = Some rec →
     vec_metadata rec !! "user_id" ≠ Some uid →
     memory_record_of id (reset_memory E uid w).2 = Some rec) ∧
  (∀ id rec, memory_record_of id (reset_memory E uid w).2 = Some rec →
     memory_record_of id w = Some rec) ∧
  (∀ id rec, profile_record_of id (reset_memory E uid w).2 = Some rec →
     profile_record_of id w = Some rec) ∧
  (∀ ns, ns ≠ NAMESPACE → ns ≠ PROFILE_NAMESPACE →
     stored ns (reset_memory E uid w).2 = stored ns w).
Proof.
  unfold memory_record_of, profile_record_of, stored.
  rewrite reset_memory_context, reset_memory_leaves_index.
  split; [intros other Hne; by rewrite lookup_delete_ne|].
  destruct (index w) as [st|]; simpl; [|done].
  rewrite reset_memory_index_memory, reset_memory_index_profiles.
  split; [|split; [|split; [|split]]].
  - intros other Hne. destruct (fails E (S (ticks w))); [done|].
    by apply idx_delete_ids_lookup_other.
  - intros id rec Hrec Huser. destruct (fails E (ticks w)); [done|].
    apply idx_delete_filter_lookup. split; [done|].
    by rewrite filter_matches_one.
  - intros id rec. destruct (fails E (ticks w)); [done|].
    intros Hrec. by apply idx_delete_filter_lookup in Hrec as [Hrec _].
  - intros id rec. destruct (fails E (S (ticks w))); [done|].
    intros Hrec. by apply idx_delete_ids_lookup in Hrec as [Hrec _].
  - intros ns H1 H2. by rewrite reset_memory_index_elsewhere.
Qed.

(** ** The further properties at concrete inputs *)

Lemma demo_never_fails n : fails (demo []) n = false.
Proof. apply bool_decide_eq_false_2. inversion 1. Qed.

Lemma cautious_demo_never_fails n : fails cautious_demo n = false.
Proof. apply demo_never_fails. Qed.

Lemma demo_ids_fresh : fresh_ids (demo []) two_user_world.
Proof.
  intros n. unfold memory_record_of, stored, two_user_world, two_user_index.
  cbn [index fmap option_fmap option_map mbind option_bind].
  unfold idx_upsert. rewrite namespace_of_insert_eq. cbn [foldl up_id].
  unfold uuid4, demo.
  rewrite !lookup_insert_ne by (simpl; discriminate).
  unfold namespace_of. by rewrite lookup_empty.
Qed.

Lemma update_profile_then_get_profile_witness :
  ((update_profile (demo []) alice_low ;; get_profile (demo []) "alice")
     world_with_alice).1 = Ok alice_low.
Proof.
  apply (update_profile_then_get_profile (demo []) alice_low world_with_alice).
  - vm_compute. eauto.
  - vm_compute. reflexivity.
  - vm_compute. reflexivity.
  - unfold codec_round_trip. vm_compute. reflexivity.
Defined.

Lemma check_user_status_old_iff_stored_witness :
  (check_user_status (demo []) "alice" world_with_alice).1 = Ok "old" ∧
  (check_user_status (demo []) "bob" world_with_alice).1 = Ok "new".
Proof.
  split.
  - destruct (check_user_status_old_iff_stored (demo []) "alice" world_with_alice)
      as (status & Hres & _ & Hiff & _).
    rewrite Hres. f_equal. apply Hiff. split.
    + vm_compute. reflexivity.
    + vm_compute. eauto.
  - destruct (check_user_status_old_iff_stored (demo []) "bob" world_with_alice)
      as (status & Hres & [Hold|Hnew] & Hiff & _).
    + apply Hiff in Hold as [_ Hrec]. vm_compute in Hrec.
      destruct Hrec as [rec Hrec]. discriminate Hrec.
    + rewrite Hres. f_equal. exact Hnew.
Defined.

Lemma profile_lifecycle_status_witness :
  ((update_profile (demo []) alice_high ;; check_user_status (demo []) "alice")
     (fresh_manager (Some ∅))).1 = Ok "old" ∧
  ((delete_profile (demo []) "alice" ;; check_user_status (demo []) "alice")
     world_with_alice).1 = Ok "new".
Proof.
  split.
  - destruct (profile_lifecycle_status (demo []) alice_high "alice"
                (fresh_manager (Some ∅))) as [Hold _].
    apply Hold; [vm_compute; eauto | vm_compute; reflexivity | vm_compute; reflexivity].
  - destruct (profile_lifecycle_status (demo []) alice_high "alice"
                world_with_alice) as [_ Hnew].
    apply Hnew. vm_compute. reflexivity.
Defined.

Lemma delete_profile_frame_witness :
  profile_record_of "alice" (delete_profile (demo []) "alice" world_with_alice).2
    = None ∧
  profile_record_of "alice" (delete_profile (demo []) "bob" world_with_alice).2
    = profile_record_of "alice" world_with_alice.
Proof.
  split.
  - destruct (delete_profile_frame (demo []) "alice" world_with_alice)
      as (_ & _ & _ & _ & _ & Hgone).
    apply Hgone. vm_compute. reflexivity.
  - destruct (delete_profile_frame (demo []) "bob" world_with_alice)
      as (_ & _ & _ & Hother & _).
    apply Hother. discriminate.
Defined.

Lemma update_profile_writes_one_record_witness :
  ∃ rec,
    profile_record_of "alice"
      (update_profile (demo []) alice_high (fresh_manager (Some ∅))).2 = Some rec ∧
    vec_metadata rec !! "type" = Some "user_profile" ∧
    length (vec_values rec) = 4 ∧
    vec_values rec !! 0 = Some 1%Q.
Proof.
  destruct (update_profile_writes_one_record (demo []) alice_high
              (fresh_manager (Some ∅))) as (_ & _ & _ & _ & Hrec).
  destruct Hrec as (rec & Hat & _ & Htype & Hlen & Hfirst).
  - vm_compute. eauto.
  - vm_compute. reflexivity.
  - exists rec. split; [exact Hat|]. split; [exact Htype|]. split; [exact Hlen|].
    apply Hfirst. simpl. lia.
Defined.

Lemma get_immediate_context_window_witness :
  (1 ≤ 1)%Z ∧
  (get_immediate_context "alice" 1 two_user_world).1 = Ok "Agent: hello" ∧
  (get_immediate_context "alice" 0 two_user_world).1
    = Ok ("User: hi" +:+ newline +:+ "Agent: hello") ∧
  (get_immediate_context "carol" 4 two_user_world).1 = Ok "".
Proof.
  assert (H1 : (1 ≤ 1)%Z) by lia.
  split; [exact H1|]. split; [|split].
  - destruct (get_immediate_context_window "alice" 1 two_user_world)
      as (_ & _ & Hwin & _).
    exact (Hwin H1).
  - destruct (get_immediate_context_window "alice" 0 two_user_world)
      as (_ & _ & _ & Hzero).
    exact (Hzero eq_refl).
  - destruct (get_immediate_context_window "carol" 4 two_user_world)
      as (_ & Hnone & _).
    apply Hnone. vm_compute. reflexivity.
Defined.

Lemma immediate_context_after_interaction_witness :
  long_question ≠ "" ∧ long_answer ≠ "" ∧
  ((process_realtime_interaction (demo [1]) "alice" long_question long_answer ;;
    get_immediate_context "alice" 2) two_user_world).1
  = Ok (exchange_text long_question long_answer).
Proof.
  assert (H1 : long_question ≠ "") by discriminate.
  assert (H2 : long_answer ≠ "") by discriminate.
  split; [exact H1|]. split; [exact H2|].
  exact (immediate_context_after_interaction (demo [1]) "alice"
           long_question long_answer two_user_world H1 H2).
Defined.

Lemma process_realtime_interaction_buffers_witness :
  process_realtime_interaction (demo []) "alice" "" "hello" two_user_world
    = (Ok tt, two_user_world) ∧
  active_context
    (process_realtime_interaction (demo []) "alice" "hi" "hello" two_user_world).2
    !! "bob" = active_context two_user_world !! "bob" ∧
  ∃ buf,
    active_context
      (process_realtime_interaction (demo []) "alice" "hi" "hello" two_user_world).2
      !! "alice" = Some buf ∧
    length buf = 4.
Proof.
  split; [|split].
  - destruct (process_realtime_interaction_buffers (demo []) "alice" "" "hello"
                two_user_world) as [Hskip _].
    apply Hskip. left. reflexivity.
  - destruct (process_realtime_interaction_buffers (demo []) "alice" "hi" "hello"
                two_user_world) as [_ Hrun].
    destruct Hrun as [Hother _]; [discriminate | discriminate |].
    apply Hother. discriminate.
  - destruct (process_realtime_interaction_buffers (demo []) "alice" "hi" "hello"
                two_user_world) as [_ Hrun].
    destruct Hrun as [_ (buf & Hbuf & _ & Hlen)]; [discriminate | discriminate |].
    exists buf. split; [exact Hbuf | exact Hlen].
Defined.

Lemma buffer_length_after_exchanges_witness :
  length (default []
            (active_context
               (run_interactions (demo [])
                  ((λ m, ("alice", m.1, m.2)) <$> replicate 12 ("hello", "hi there"))
                  two_user_world).2 !! "alice")) = 20.
Proof.
  apply (buffer_length_after_exchanges (demo []) "alice"
           (replicate 12 ("hello", "hi there")) two_user_world).
  - apply Forall_replicate. split; discriminate.
  - vm_compute. lia.
Defined.

Lemma add_memory_returns_stored_id_witness :
  ∃ id rec,
    (add_memory (demo []) "likes gold" FACT (Some (<["user_id" := "alice"]> ∅))
       two_user_world).1 = Ok (Some id) ∧
    memory_record_of id
      (add_memory (demo []) "likes gold" FACT (Some (<["user_id" := "alice"]> ∅))
         two_user_world).2 = Some rec ∧
    vec_metadata rec !! "text" = Some "likes gold" ∧
    vec_metadata rec !! "user_id" = Some "alice" ∧
    memory_record_of "m2"
      (add_memory (demo []) "likes gold" FACT (Some (<["user_id" := "alice"]> ∅))
         two_user_world).2 = memory_record_of "m2" two_user_world.
Proof.
  assert (Hrun :
    (add_memory (demo []) "likes gold" FACT (Some (<["user_id" := "alice"]> ∅))
       two_user_world).1 = Ok (Some "mem-1")) by (vm_compute; reflexivity).
  destruct (add_memory_returns_stored_id (demo []) "likes gold" FACT
              (Some (<["user_id" := "alice"]> ∅)) two_user_world)
    as (_ & _ & Hstored).
  destruct (Hstored "mem-1" Hrun)
    as (m & m' & rec & Hm & Hm' & Hrec & Hother & _ & Htext & _ & _ & _ & Huser).
  exists "mem-1", rec. split; [exact Hrun|].
  unfold memory_record_of. rewrite Hm', Hm. simpl.
  split; [exact Hrec|]. split; [exact Htext|]. split; [exact Huser|].
  apply Hother. discriminate.
Defined.

Lemma retrieve_relevant_bounded_witness :
  ∃ items,
    (retrieve_relevant (demo []) "bonds" "alice" 5 (Some FACT) (7 # 10)
       two_user_world).1 = Ok items ∧
    length items ≤ 5 ∧
    Forall (λ item, mem_type item = FACT) items ∧
    (retrieve_relevant (demo []) "" "alice" 5 (Some FACT) (7 # 10)
       two_user_world).1 = Ok [].
Proof.
  destruct (retrieve_relevant_bounded (demo []) "bonds" "alice" 5 (Some FACT)
              (7 # 10) two_user_world)
    as (items & Hres & _ & _ & Hlen & _ & _ & Htype).
  exists items. split; [exact Hres|]. split; [exact Hlen|].
  split; [exact (Htype FACT eq_refl)|].
  destruct (retrieve_relevant_bounded (demo []) "" "alice" 5 (Some FACT)
              (7 # 10) two_user_world)
    as (none & Hres' & _ & _ & _ & _ & Hnil & _).
  rewrite Hres'. f_equal. apply Hnil. left. reflexivity.
Defined.

Lemma consolidate_session_stays_within_user_facts_witness :
  fresh_ids (demo []) two_user_world ∧
  memory_record_of "m2"
    (consolidate_session (demo []) "alice" [long_question] two_user_world).2
  = Some bob_fact.
Proof.
  split; [exact demo_ids_fresh|].
  destruct (consolidate_session_stays_within_user_facts (demo []) "alice"
              [long_question] two_user_world) as (_ & _ & _ & _ & Hkept).
  apply (Hkept demo_ids_fresh "m2" bob_fact).
  - vm_compute. reflexivity.
  - intros [_ Huser]. vm_compute in Huser. discriminate Huser.
Defined.

Lemma consolidate_session_replaces_user_facts_witness :
  user_facts_among "alice" [long_question]
    (consolidate_session (demo []) "alice" [long_question] two_user_world).2.
Proof.
  apply (consolidate_session_replaces_user_facts (demo []) "alice"
           [long_question] two_user_world
           [Memory "m1" "likes bonds" FACT "" ∅]).
  - exact demo_never_fails.
  - discriminate.
  - vm_compute. discriminate.
  - vm_compute. reflexivity.
Defined.

Lemma pre_planning_check_frame_witness :
  check_and_update_profile_pre_planning (demo []) "alice" "" world_with_alice
    = (Ok tt, world_with_alice) ∧
  index (check_and_update_profile_pre_planning (demo []) "alice" "hello"
           world_with_alice).2 = index world_with_alice ∧
  stored NAMESPACE
    (check_and_update_profile_pre_planning cautious_demo "alice" "hello"
       world_with_alice).2 = stored NAMESPACE world_with_alice.
Proof.
  split; [|split].
  - destruct (pre_planning_check_frame (demo []) "alice" "" world_with_alice)
      as (_ & _ & _ & Hempty & _).
    exact (Hempty eq_refl).
  - destruct (pre_planning_check_frame (demo []) "alice" "hello" world_with_alice)
      as (_ & _ & _ & _ & Hnone).
    apply Hnone. intros n p. left. reflexivity.
  - destruct (pre_planning_check_frame cautious_demo "alice" "hello"
                world_with_alice) as (_ & _ & Hframe & _).
    apply Hframe. discriminate.
Defined.

Lemma pre_planning_check_persists_delta_witness :
  ((check_and_update_profile_pre_planning cautious_demo "alice" "I hate risk" ;;
    get_profile cautious_demo "alice") world_with_alice).1 = Ok alice_low.
Proof.
  apply (pre_planning_check_persists_delta cautious_demo "alice" "I hate risk"
           world_with_alice (<["risk_tolerance" := "low"]> ∅) alice_low).
  - discriminate.
  - vm_compute. eauto.
  - exact cautious_demo_never_fails.
  - reflexivity.
  - apply insert_non_empty.
  - vm_compute. reflexivity.
  - reflexivity.
  - unfold codec_round_trip. vm_compute. reflexivity.
Defined.

Lemma pre_planning_check_is_profile_step_witness :
  index (check_and_update_profile_pre_planning cautious_demo "alice" "I hate risk"
           world_with_alice).2
  = index (analyze_profile_delta cautious_demo "alice" "I hate risk"
             "[SYSTEM: PRE-RESPONSE CHECK]" world_with_alice).2.
Proof.
  destruct (pre_planning_check_is_profile_step cautious_demo "alice" "I hate risk"
              world_with_alice) as (Hidx & _).
  - discriminate.
  - exact Hidx.
Defined.

Lemma login_user_gate_witness :
  ∃ events,
    (login_user (demo []) "alice" false initial_session world_with_alice).1
      = Ok (Session (Some "alice") true false [], events) ∧
    events = [UiRerun].
Proof.
  pose proof (login_user_gate (demo []) "alice" false initial_session
                world_with_alice) as Hgate.
  cbv zeta in Hgate.
  destruct Hgate as (s' & events & Hres & _ & _ & _ & _ & Hold & _).
  destruct Hold as [Hs Hev].
  - discriminate.
  - reflexivity.
  - split; [vm_compute; reflexivity | vm_compute; eauto].
  - exists events. rewrite Hres, Hs. split; [reflexivity | exact Hev].
Defined.

Lemma save_profile_outcome_witness :
  (save_profile (demo []) "low" "simple" "casual" bob_session
     (fresh_manager (Some ∅))).1
    = Ok (Session (Some "bob") true true [],
          [UiSuccess "Profile created successfully!"; UiRerun]) ∧
  ((save_profile (demo []) "low" "simple" "casual" bob_session ;;
    get_profile (demo []) "bob") (fresh_manager (Some ∅))).1
    = Ok (UserProfile "bob" risk_low depth_simple style_casual) ∧
  (save_profile (demo []) "reckless" "simple" "casual" bob_session
     (fresh_manager (Some ∅))).1 = Raise ValidationError.
Proof.
  destruct (save_profile_outcome (demo []) risk_low depth_simple style_casual
              "bob" bob_session (fresh_manager (Some ∅)) eq_refl)
    as (Hok & Hread & Hbad).
  split; [exact Hok|]. split.
  - apply Hread.
    + vm_compute. eauto.
    + vm_compute. reflexivity.
    + vm_compute. reflexivity.
    + unfold codec_round_trip. vm_compute. reflexivity.
  - apply (Hbad "reckless" "simple" "casual" bob_session).
    vm_compute. reflexivity.
Defined.

Lemma returning_user_login_witness :
  ((save_profile (demo []) "low" "simple" "casual" bob_session ;;
    login_user (demo []) "bob" false initial_session) (fresh_manager (Some ∅))).1
    = Ok (Session (Some "bob") true false [], [UiRerun]).
Proof.
  destruct (returning_user_login (demo []) risk_low depth_simple style_casual
              "bob" bob_session initial_session (fresh_manager (Some ∅)))
    as [Hknown _].
  - discriminate.
  - reflexivity.
  - vm_compute. eauto.
  - vm_compute. reflexivity.
  - vm_compute. reflexivity.
  - exact Hknown.
Defined.

Lemma reset_memory_deletions_independent_witness :
  (reset_memory (demo [1]) "alice" world_with_alice).1 = Ok false ∧
  profile_record_of "alice" (reset_memory (demo [1]) "alice" world_with_alice).2
    = None ∧
  (reset_memory (demo []) "alice" two_user_world).1 = Ok true ∧
  stored NAMESPACE (reset_memory (demo [0]) "alice" two_user_world).2
    = stored NAMESPACE two_user_world ∧
  semantic_cache (reset_memory (demo [1]) "alice" world_with_alice).2 = [].
Proof.
  assert (Hidx : is_Some (index world_with_alice)) by (vm_compute; eauto).
  assert (Hidx2 : is_Some (index two_user_world)) by (vm_compute; eauto).
  destruct (reset_memory_deletions_independent (demo [1]) "alice" world_with_alice)
    as (_ & _ & Hfail & _ & Hprofile & _ & Hcache).
  split; [|split; [|split; [|split]]].
  - apply Hfail; [exact Hidx | vm_compute; reflexivity].
  - apply Hprofile; [exact Hidx | vm_compute; reflexivity].
  - destruct (reset_memory_deletions_independent (demo []) "alice" two_user_world)
      as (_ & _ & _ & _ & _ & Hok & _).
    apply Hok; [exact Hidx2 | vm_compute; reflexivity | vm_compute; reflexivity].
  - destruct (reset_memory_deletions_independent (demo [0]) "alice" two_user_world)
      as (_ & _ & Hkept & _).
    apply Hkept; [exact Hidx2 | vm_compute; reflexivity].
  - apply Hcache; [exact Hidx | vm_compute; reflexivity].
Defined.

Lemma reset_memory_frame_witness :
  memory_record_of "m2" (reset_memory (demo []) "alice" two_user_world).2
    = Some bob_fact ∧
  active_context (reset_memory (demo []) "alice" two_user_world).2 !! "bob"
    = Some [Turn "user" "hey"] ∧
  profile_record_of "alice" (reset_memory (demo []) "bob" world_with_alice).2
    = profile_record_of "alice" world_with_alice.
Proof.
  destruct (reset_memory_frame (demo []) "alice" two_user_world)
    as (Hctx & _ & Hkept & _).
  split; [|split].
  - apply Hkept.
    + vm_compute. reflexivity.
    + vm_compute. discriminate.
  - rewrite Hctx by discriminate. vm_compute. reflexivity.
  - destruct (reset_memory_frame (demo []) "bob" world_with_alice)
      as (_ & Hprofiles & _).
    apply Hprofiles. discriminate.
Defined.
